(** * rPPG signal processing: a shallow embedding of [signal_processing.cpp]

    The functions of [src/ml_models/signal_processing_wasm/src/signal_processing.cpp]
    are written here as Rocq functions, loop by loop, and the numeric
    statements of the specification are proved about them.

    Conventions.
    - [float] is read as a real number and the arithmetic is exact, which is
      how the specification phrases its numeric properties.  The constant
      [PI] is the real number pi.  Infinities and NaN have no counterpart: a
      division by zero has the value the real numbers of Rocq give it
      ([x / 0 = 0]), and [static_cast<int>] is the truncation toward zero of
      any real number.  Two places of the code leave this reading:
      [detrend_signal] on a single sample divides zero by zero, and the two
      casts of [find_peak_frequency] are taken of quotients that floats
      round and that may leave the [int] range.  The statements about
      detrended values are made for two samples or more, and the range
      statement of the peak finder is made over the integers the two casts
      produce ([find_peak_frequency_from_bins]).
    - [int] is [Z].  A signal of [length] floats has to fit the 32-bit
      address space of the WebAssembly build, so [length < 2^30] and the loop
      counters, [fft_size <<= 1], [psd.size() * 2] and [k + N/2] stay inside
      the [int] range; they are written as plain [Z] operations.  The one
      [int] product that leaves the range for such a length is [i * i] in
      [detrend_signal]; it is written with its 32-bit wrap-around
      ([int_mul]).
    - A [float*] argument is [option buffer]: [None] is the null pointer and
      a buffer maps an index to the float stored there.  The two buffers of a
      call are distinct arrays (or the very same one).
    - A [std::vector] is a list.  An index that the loop bounds keep inside
      the vector is read with [vnth]; [find_peak_frequency], whose first read
      is not guarded, reads with [vat] and returns [None] when an index falls
      outside the vector. *)

From Stdlib Require Import Reals Lra Lia ZArith List Bool.
Import ListNotations.

Open Scope Z_scope.
Open Scope R_scope.

(** [lia] also decides goals with [/] and [mod] by a constant. *)
Ltac Zify.zify_post_hook ::= Z.to_euclidean_division_equations.

(** ** Machine integers *)

(** Two's-complement wrap-around of a 32-bit [int]. *)
Definition wrap32 (z : Z) : Z := ((z + 2 ^ 31) mod 2 ^ 32 - 2 ^ 31)%Z.

(** [a * b] on [int]. *)
Definition int_mul (a b : Z) : Z := wrap32 (a * b).

(** [static_cast<int>(x)]: truncation toward zero. *)
Definition float_to_int (x : R) : Z :=
  if Rle_dec 0 x then Zfloor x else Zceil x.

(** ** Float comparisons as booleans *)

Definition flt (x y : R) : bool := if Rlt_dec x y then true else false.
Definition fle (x y : R) : bool := if Rle_dec x y then true else false.
Definition fgt (x y : R) : bool := flt y x.
Definition fge (x y : R) : bool := fle y x.

(** ** Loops *)

(** [n] iterations of [body], the counter starting at [i]. *)
Fixpoint iter_from {St : Type} (n : nat) (i : Z) (body : Z -> St -> St) (s : St) : St :=
  match n with
  | O => s
  | S n' => iter_from n' (i + 1)%Z body (body i s)
  end.

(** [for (int i = lo; i < hi; i++) body]. *)
Definition for_loop {St : Type} (lo hi : Z) (body : Z -> St -> St) (s : St) : St :=
  iter_from (Z.to_nat (hi - lo)) lo body s.

(** ** Buffers and vectors *)

Definition buffer : Type := Z -> R.

(** [b[i] = v]. *)
Definition bset (b : buffer) (i : Z) (v : R) : buffer :=
  fun j => if (j =? i)%Z then v else b j.

Definition vsize {A : Type} (v : list A) : Z := Z.of_nat (length v).

(** [v[i]] for an index inside the vector. *)
Definition vnth {A : Type} (d : A) (v : list A) (i : Z) : A :=
  nth (Z.to_nat i) v d.

Fixpoint set_nth {A : Type} (v : list A) (n : nat) (x : A) : list A :=
  match v, n with
  | [], _ => []
  | _ :: t, O => x :: t
  | h :: t, S n' => h :: set_nth t n' x
  end.

(** [v[i] = x] for an index inside the vector. *)
Definition vset {A : Type} (v : list A) (i : Z) (x : A) : list A :=
  if (i <? 0)%Z then v else set_nth v (Z.to_nat i) x.

(** [v[i]] with the bounds made explicit. *)
Definition vat {A : Type} (v : list A) (i : Z) : option A :=
  if (0 <=? i)%Z && (i <? vsize v)%Z then nth_error v (Z.to_nat i) else None.

(** [std::vector<float> v(n)]: [n] zeros. *)
Definition vmake {A : Type} (d : A) (n : Z) : list A := repeat d (Z.to_nat n).

(** [v.data()]. *)
Definition vdata (v : list R) : buffer := fun i => vnth 0 v i.

(** ** Complex numbers ([std::complex<float>]) *)

Abbreviation complex := (R * R)%type.

Definition C0 : complex := (0, 0).
Definition Cadd (a b : complex) : complex := (fst a + fst b, snd a + snd b).
Definition Csub (a b : complex) : complex := (fst a - fst b, snd a - snd b).
Definition Cmul (a b : complex) : complex :=
  (fst a * fst b - snd a * snd b, fst a * snd b + snd a * fst b).
(** [z *= w] for a real [w]. *)
Definition Cscale (z : complex) (w : R) : complex := (fst z * w, snd z * w).
(** [std::polar(rho, theta)]. *)
Definition polar (rho theta : R) : complex := (rho * cos theta, rho * sin theta).
(** [std::norm(z)]: the squared magnitude. *)
Definition Cnorm (z : complex) : R := fst z * fst z + snd z * snd z.

(** Equations between complex expressions, componentwise. *)
Ltac Ceq :=
  repeat match goal with z : complex |- _ => destruct z end;
  unfold Cadd, Csub, Cmul, Cscale, polar, C0; simpl; f_equal; ring.

(** ** The program *)

(** [const float PI = 3.14159265359f;] *)
Definition PI : R := Rtrigo1.PI.

(** The accumulation loop of [detrend_signal]:
    [(sum_x, sum_y, sum_xy, sum_x2)] when the loop ends. *)
Definition detrend_sums (signal : buffer) (length : Z) : R * R * R * R :=
  for_loop 0 length
    (fun i '(sum_x, sum_y, sum_xy, sum_x2) =>
       (sum_x + IZR i,
        sum_y + signal i,
        sum_xy + IZR i * signal i,
        sum_x2 + IZR (int_mul i i)))
    (0, 0, 0, 0).

(** The divisor of [slope]: [length * sum_x2 - sum_x * sum_x]. *)
Definition detrend_denominator (signal : buffer) (length : Z) : R :=
  let '(sum_x, _, _, sum_x2) := detrend_sums signal length in
  IZR length * sum_x2 - sum_x * sum_x.

(** [void detrend_signal(float* signal, int length)] *)
Definition detrend_signal (signal : buffer) (length : Z) : buffer :=
  let mean := for_loop 0 length (fun i mean => mean + signal i) 0 in
  let mean := mean / IZR length in
  let signal := for_loop 0 length (fun i sig => bset sig i (sig i - mean)) signal in
  let '(sum_x, sum_y, sum_xy, sum_x2) := detrend_sums signal length in
  let slope :=
    (IZR length * sum_xy - sum_x * sum_y) / (IZR length * sum_x2 - sum_x * sum_x) in
  let intercept := (sum_y - slope * sum_x) / IZR length in
  for_loop 0 length
    (fun i sig => bset sig i (sig i - (slope * IZR i + intercept))) signal.

(** The band test of [bandpass_filter]:
    [low_norm <= 0 || high_norm >= 1 || low_norm >= high_norm]. *)
Definition band_rejected (sample_rate low_cutoff high_cutoff : R) : bool :=
  let nyquist := sample_rate / 2 in
  let low_norm := low_cutoff / nyquist in
  let high_norm := high_cutoff / nyquist in
  fle low_norm 0 || fge high_norm 1 || fge low_norm high_norm.

(** [int bandpass_filter(float* input, float* output, int length,
                         float sample_rate, float low_cutoff, float high_cutoff)]:
    the returned [int] and the output buffer after the call. *)
Definition bandpass_filter (input output : option buffer) (length : Z)
    (sample_rate low_cutoff high_cutoff : R) : Z * option buffer :=
  match input, output with
  | Some inp, Some out =>
    if (length <=? 0)%Z then (0%Z, output) else
    if band_rejected sample_rate low_cutoff high_cutoff then (0%Z, output) else
    let rc_low := 1 / (2 * PI * low_cutoff) in
    let rc_high := 1 / (2 * PI * high_cutoff) in
    let dt := 1 / sample_rate in
    let alpha_low := dt / (rc_low + dt) in
    let alpha_high := rc_high / (rc_high + dt) in
    let temp := vmake 0 length in
    let temp := vset temp 0 (inp 0%Z) in
    let temp :=
      for_loop 1 length
        (fun i temp =>
           vset temp i (alpha_high * (vnth 0 temp (i - 1) + inp i - inp (i - 1)%Z)))
        temp in
    let out := bset out 0 (vnth 0 temp 0) in
    let out :=
      for_loop 1 length
        (fun i out =>
           bset out i (out (i - 1)%Z + alpha_low * (vnth 0 temp i - out (i - 1)%Z)))
        out in
    (1%Z, Some out)
  | _, _ => (0%Z, output)
  end.

(** The "divide" loop of [fft]: even-indexed and odd-indexed samples. *)
Definition fft_divide (data : list complex) : list complex * list complex :=
  for_loop 0 (vsize data)
    (fun i '(even, odd) =>
       if (Z.rem i 2 =? 0)%Z
       then (even ++ [vnth C0 data i], odd)
       else (even, odd ++ [vnth C0 data i]))
    ([], []).

(** The "combine" loop of [fft], on the transformed halves. *)
Definition fft_combine (even odd data : list complex) : list complex :=
  let N := vsize data in
  for_loop 0 (Z.quot N 2)
    (fun k data =>
       let t := Cmul (polar 1 (-2 * PI * IZR k / IZR N)) (vnth C0 odd k) in
       let data := vset data k (Cadd (vnth C0 even k) t) in
       vset data (k + Z.quot N 2) (Csub (vnth C0 even k) t))
    data.

(** [void fft(std::vector<std::complex<float>>& data)], the recursion
    unrolled [depth] times. *)
Fixpoint fft_rec (depth : nat) (data : list complex) : list complex :=
  if (vsize data <=? 1)%Z then data else
  match depth with
  | O => data
  | S depth' =>
    let '(even, odd) := fft_divide data in
    fft_combine (fft_rec depth' even) (fft_rec depth' odd) data
  end.

(** Each call halves the size, so [length data] levels are more than the
    recursion ever needs ([fft_unfold] below). *)
Definition fft (data : list complex) : list complex :=
  fft_rec (length data) data.

(** [while (fft_size < length) fft_size <<= 1;] run for at most [fuel]
    rounds. *)
Fixpoint grow_fft_size (fuel : nat) (fft_size length : Z) : Z :=
  if (fft_size <? length)%Z then
    match fuel with
    | O => fft_size
    | S fuel' => grow_fft_size fuel' (Z.shiftl fft_size 1) length
    end
  else fft_size.

(** [int fft_size = 1; while (fft_size < length) fft_size <<= 1;]
    The loop stops within [length] rounds ([padded_size_reached] below). *)
Definition padded_size (length : Z) : Z :=
  grow_fft_size (Z.to_nat length) 1 length.

(** The Hann window coefficient computed inside [calculate_psd]. *)
Definition hann (length i : Z) : R :=
  0.5 * (1 - cos (2 * PI * IZR i / IZR (length - 1))).

(** [std::vector<float> calculate_psd(float* signal, int length)] *)
Definition calculate_psd (signal : buffer) (length : Z) : list R :=
  let fft_size := padded_size length in
  let fft_data := vmake C0 fft_size in
  let fft_data :=
    for_loop 0 length (fun i d => vset d i (signal i, 0)) fft_data in
  let fft_data :=
    for_loop length fft_size (fun i d => vset d i (0, 0)) fft_data in
  let fft_data :=
    for_loop 0 length
      (fun i d =>
         let window := hann length i in
         vset d i (Cscale (vnth C0 d i) window))
      fft_data in
  let fft_data := fft fft_data in
  let psd := vmake 0 (Z.quot fft_size 2) in
  for_loop 0 (Z.quot fft_size 2)
    (fun i psd => vset psd i (Cnorm (vnth C0 fft_data i))) psd.

(** Sequencing of reads that may fall outside a vector. *)
Definition bind {A B : Type} (m : option A) (f : A -> option B) : option B :=
  match m with
  | Some a => f a
  | None => None
  end.

Notation "x <- m ;; k" := (bind m (fun x => k))
  (at level 61, m at next level, right associativity).

(** [float find_peak_frequency(const std::vector<float>& psd, float sample_rate,
                                float min_freq, float max_freq)]:
    [None] when a read of [psd] is out of bounds. *)
Definition find_peak_frequency (psd : list R) (sample_rate min_freq max_freq : R)
    : option R :=
  let fft_size := (vsize psd * 2)%Z in
  let freq_resolution := sample_rate / IZR fft_size in
  let min_bin := float_to_int (min_freq / freq_resolution) in
  let max_bin := float_to_int (max_freq / freq_resolution) in
  let min_bin := Z.max 1 min_bin in
  let max_bin := Z.min (vsize psd - 1) max_bin in
  let peak_bin := min_bin in
  max_power <- vat psd min_bin ;;
  st <- for_loop (min_bin + 1) (max_bin + 1)
          (fun i st =>
             st <- st ;;
             p <- vat psd i ;;
             if fgt p (snd st) then Some (i, p) else Some st)
          (Some (peak_bin, max_power)) ;;
  Some (IZR (fst st) * freq_resolution).

(** [find_peak_frequency] from its two casts on: [min_cast] and [max_cast]
    are the integers that [static_cast<int>(min_freq / freq_resolution)] and
    [static_cast<int>(max_freq / freq_resolution)] produced, whatever the
    rounding of the two quotients; the clamping, the first read and the scan
    are those of [find_peak_frequency]. *)
Definition find_peak_frequency_from_bins (psd : list R) (sample_rate : R)
    (min_cast max_cast : Z) : option R :=
  let fft_size := (vsize psd * 2)%Z in
  let freq_resolution := sample_rate / IZR fft_size in
  let min_bin := Z.max 1 min_cast in
  let max_bin := Z.min (vsize psd - 1) max_cast in
  let peak_bin := min_bin in
  max_power <- vat psd min_bin ;;
  st <- for_loop (min_bin + 1) (max_bin + 1)
          (fun i st =>
             st <- st ;;
             p <- vat psd i ;;
             if fgt p (snd st) then Some (i, p) else Some st)
          (Some (peak_bin, max_power)) ;;
  Some (IZR (fst st) * freq_resolution).

(** [std::max_element(b, b + length)] for [length > 0], as an index: the
    first position holding the largest value. *)
Definition max_element (b : buffer) (length : Z) : Z :=
  for_loop 1 length (fun i largest => if flt (b largest) (b i) then i else largest) 0%Z.

(** [std::min_element(b, b + length)] for [length > 0], as an index: the
    first position holding the smallest value. *)
Definition min_element (b : buffer) (length : Z) : Z :=
  for_loop 1 length (fun i smallest => if flt (b i) (b smallest) then i else smallest) 0%Z.

(** [int process_rppg_signals(float* input, float* output, int length,
                              float sample_rate)]:
    the returned [int] and the output buffer after the call. *)
Definition process_rppg_signals (input output : option buffer) (length : Z)
    (sample_rate : R) : Z * option buffer :=
  match input, output with
  | Some inp, Some out =>
    if (length <=? 0)%Z then (0%Z, output) else
    let out := for_loop 0 length (fun i out => bset out i (inp i)) out in
    let out := detrend_signal out length in
    let temp := vmake 0 length in
    let temp := for_loop 0 length (fun i temp => vset temp i (out i)) temp in
    let '(ok, output) :=
      bandpass_filter (Some (vdata temp)) (Some out) length sample_rate 0.8 3.0 in
    if (ok =? 0)%Z then (0%Z, output) else
    match output with
    | None => (1%Z, None)
    | Some out =>
      let max_val := out (max_element out length) in
      let min_val := out (min_element out length) in
      let range := max_val - min_val in
      if fgt range 0 then
        (1%Z,
         Some (for_loop 0 length (fun i out => bset out i ((out i - min_val) / range)) out))
      else (1%Z, Some out)
    end
  | _, _ => (0%Z, output)
  end.

(** [float calculate_heart_rate_fft(float* signals, int length, float sample_rate,
                                    float min_bpm, float max_bpm)] *)
Definition calculate_heart_rate_fft (signals : option buffer) (length : Z)
    (sample_rate min_bpm max_bpm : R) : option R :=
  match signals with
  | None => Some 0
  | Some sig =>
    if (length <=? 0)%Z then Some 0 else
    let min_hz := min_bpm / 60.0 in
    let max_hz := max_bpm / 60.0 in
    let psd := calculate_psd sig length in
    peak_freq <- find_peak_frequency psd sample_rate min_hz max_hz ;;
    Some (peak_freq * 60.0)
  end.

(** [float calculate_respiration_rate(float* signals, int length, float sample_rate,
                                      float min_brpm, float max_brpm)] *)
Definition calculate_respiration_rate (signals : option buffer) (length : Z)
    (sample_rate min_brpm max_brpm : R) : option R :=
  match signals with
  | None => Some 0
  | Some sig =>
    if (length <=? 0)%Z then Some 0 else
    let filtered := vmake 0 length in
    let '(ok, filtered) :=
      bandpass_filter signals (Some (vdata filtered)) length sample_rate 0.1 0.7 in
    if (ok =? 0)%Z then Some 0 else
    match filtered with
    | None => None
    | Some filtered =>
      let min_hz := min_brpm / 60.0 in
      let max_hz := max_brpm / 60.0 in
      let psd := calculate_psd filtered length in
      peak_freq <- find_peak_frequency psd sample_rate min_hz max_hz ;;
      Some (peak_freq * 60.0)
    end
  end.

(** ** Reference definitions, following the specification *)

(** High-pass stage: [temp[0] = input[0]],
    [temp[i] = alpha * (temp[i-1] + input[i] - input[i-1])]. *)
Fixpoint highpass_rec (alpha : R) (input : buffer) (i : nat) : R :=
  match i with
  | O => input 0%Z
  | S j =>
    alpha * (highpass_rec alpha input j + input (Z.of_nat (S j)) - input (Z.of_nat j))
  end.

(** Low-pass stage: [output[0] = temp[0]],
    [output[i] = output[i-1] + alpha * (temp[i] - output[i-1])]. *)
Fixpoint lowpass_rec (alpha : R) (temp : nat -> R) (i : nat) : R :=
  match i with
  | O => temp O
  | S j =>
    lowpass_rec alpha temp j + alpha * (temp (S j) - lowpass_rec alpha temp j)
  end.

(** The two-stage cascade with the coefficients of the specification. *)
Definition cascade (sample_rate low_cutoff high_cutoff : R) (input : buffer) (i : nat) : R :=
  let dt := 1 / sample_rate in
  let rc_high := 1 / (2 * PI * high_cutoff) in
  let rc_low := 1 / (2 * PI * low_cutoff) in
  let alpha_high := rc_high / (rc_high + dt) in
  let alpha_low := dt / (rc_low + dt) in
  lowpass_rec alpha_low (highpass_rec alpha_high input) i.

(** The band passes validation: none of the three rejections applies. *)
Definition band_valid (sample_rate low_cutoff high_cutoff : R) : Prop :=
  let nyquist := sample_rate / 2 in
  0 < low_cutoff / nyquist /\
  high_cutoff / nyquist < 1 /\
  low_cutoff / nyquist < high_cutoff / nyquist.

(** [sum over n < N of f n], complex. *)
Fixpoint Csum (f : nat -> complex) (N : nat) : complex :=
  match N with
  | O => C0
  | S n => Cadd (Csum f n) (f n)
  end.

(** The discrete Fourier transform:
    [X[k] = sum over n of x[n] * exp(-2*pi*i*n*k/N)]. *)
Definition dft (x : list complex) (k : nat) : complex :=
  let N := length x in
  Csum (fun n => Cmul (nth n x C0) (polar 1 (-2 * PI * INR n * INR k / INR N))) N.

(** [sum over i < n of f i], real. *)
Fixpoint Rsum (f : Z -> R) (n : nat) : R :=
  match n with
  | O => 0
  | S k => Rsum f k + f (Z.of_nat k)
  end.

(** Arithmetic mean of the first [n] samples. *)
Definition mean_of (b : buffer) (n : nat) : R := Rsum b n / INR n.

(** [N * Sum(x^2) - (Sum(x))^2] for the predictor [x = 0 .. n-1]. *)
Definition regression_denominator (n : nat) : R :=
  INR n * Rsum (fun i => IZR i * IZR i) n - Rsum IZR n * Rsum IZR n.

(** Least-squares slope of the first [n] samples against their index. *)
Definition regression_slope (b : buffer) (n : nat) : R :=
  (INR n * Rsum (fun i => IZR i * b i) n - Rsum IZR n * Rsum b n)
  / regression_denominator n.

(** Detrending as the specification describes it: the mean is removed,
    then the least-squares line of the centred samples against their index
    is subtracted. *)
Definition remove_mean (b : buffer) (n : nat) : buffer :=
  fun i => b i - mean_of b n.

Definition regression_intercept (b : buffer) (n : nat) : R :=
  (Rsum b n - regression_slope b n * Rsum IZR n) / INR n.

Definition detrend_spec (b : buffer) (n : nat) : buffer :=
  let centred := remove_mean b n in
  fun i => centred i - (regression_slope centred n * IZR i + regression_intercept centred n).

(** [M] is the largest of the first [n] samples. *)
Definition is_max (b : buffer) (n : Z) (M : R) : Prop :=
  (exists i, (0 <= i < n)%Z /\ b i = M) /\ forall i, (0 <= i < n)%Z -> b i <= M.

(** [m] is the smallest of the first [n] samples. *)
Definition is_min (b : buffer) (n : Z) (m : R) : Prop :=
  (exists i, (0 <= i < n)%Z /\ b i = m) /\ forall i, (0 <= i < n)%Z -> m <= b i.

(** The input of the FFT according to the specification: the signal under
    the Hann window on the first [length] places, zeros up to [size]. *)
Definition windowed_padded (signal : buffer) (length size : Z) : list complex :=
  map (fun i : nat =>
         if (Z.of_nat i <? length)%Z
         then (signal (Z.of_nat i) * hann length (Z.of_nat i), 0)
         else (0, 0))
      (seq 0 (Z.to_nat size)).

(** The frequency resolution and the clamped bin range computed by
    [find_peak_frequency]. *)
Definition freq_resolution (psd : list R) (sample_rate : R) : R :=
  sample_rate / IZR (vsize psd * 2).

Definition min_bin (psd : list R) (sample_rate min_freq : R) : Z :=
  Z.max 1 (float_to_int (min_freq / freq_resolution psd sample_rate)).

Definition max_bin (psd : list R) (sample_rate max_freq : R) : Z :=
  Z.min (vsize psd - 1) (float_to_int (max_freq / freq_resolution psd sample_rate)).

(** The two coefficients of [bandpass_filter]:
    [alpha_low = dt / (rc_low + dt)] and [alpha_high = rc_high / (rc_high + dt)]. *)
Definition alpha_low (sample_rate low_cutoff : R) : R :=
  let rc_low := 1 / (2 * PI * low_cutoff) in
  let dt := 1 / sample_rate in
  dt / (rc_low + dt).

Definition alpha_high (sample_rate high_cutoff : R) : R :=
  let rc_high := 1 / (2 * PI * high_cutoff) in
  let dt := 1 / sample_rate in
  rc_high / (rc_high + dt).

(** Complex conjugate. *)
Definition Cconj (z : complex) : complex := (fst z, - snd z).

(** ** Loops, buffers, vectors: basic facts *)

Lemma for_loop_empty {St : Type} (lo hi : Z) (body : Z -> St -> St) (s : St) :
  (hi <= lo)%Z -> for_loop lo hi body s = s.
Proof.
  intros H. unfold for_loop.
  replace (Z.to_nat (hi - lo)) with O by lia. reflexivity.
Qed.

Lemma iter_from_snoc {St : Type} (n : nat) (i : Z) (body : Z -> St -> St) (s : St) :
  iter_from (S n) i body s
  = body (i + Z.of_nat n)%Z (iter_from n i body s).
Proof.
  revert i s. induction n as [|n IH]; intros i s.
  - simpl. now rewrite Z.add_0_r.
  - change (iter_from (S (S n)) i body s)
      with (iter_from (S n) (i + 1)%Z body (body i s)).
    rewrite IH. simpl iter_from at 2.
    f_equal. lia.
Qed.

(** Loop invariants: [P i s] relates the counter and the state. *)
Lemma for_loop_ind {St : Type} (P : Z -> St -> Prop) (lo hi : Z)
    (body : Z -> St -> St) (s : St) :
  (lo <= hi)%Z ->
  P lo s ->
  (forall i t, (lo <= i < hi)%Z -> P i t -> P (i + 1)%Z (body i t)) ->
  P hi (for_loop lo hi body s).
Proof.
  intros Hle H0 Hstep.
  replace hi with (lo + Z.of_nat (Z.to_nat (hi - lo)))%Z at 1 by lia.
  assert (Hn : (Z.of_nat (Z.to_nat (hi - lo)) <= hi - lo)%Z) by lia.
  unfold for_loop. revert Hn.
  induction (Z.to_nat (hi - lo)) as [|n IH]; intros Hn.
  - simpl. now rewrite Z.add_0_r.
  - rewrite iter_from_snoc.
    replace (lo + Z.of_nat (S n))%Z with (lo + Z.of_nat n + 1)%Z by lia.
    apply Hstep; [lia | apply IH; lia].
Qed.

Lemma bset_same (b : buffer) (i : Z) (v : R) : bset b i v i = v.
Proof. unfold bset. now rewrite Z.eqb_refl. Qed.

Lemma bset_other (b : buffer) (i j : Z) (v : R) : j <> i -> bset b i v j = b j.
Proof. intros H. unfold bset. destruct (Z.eqb_spec j i); [contradiction | reflexivity]. Qed.

Lemma set_nth_length {A : Type} (v : list A) (n : nat) (x : A) :
  length (set_nth v n x) = length v.
Proof.
  revert n. induction v as [|h t IH]; intros [|n]; simpl; auto.
Qed.

Lemma set_nth_same {A : Type} (d : A) (v : list A) (n : nat) (x : A) :
  (n < length v)%nat -> nth n (set_nth v n x) d = x.
Proof.
  revert n. induction v as [|h t IH]; intros [|n] H; simpl in *; try lia; auto.
  apply IH. lia.
Qed.

Lemma set_nth_other {A : Type} (d : A) (v : list A) (n m : nat) (x : A) :
  m <> n -> nth m (set_nth v n x) d = nth m v d.
Proof.
  revert n m. induction v as [|h t IH]; intros [|n] [|m] H; simpl; auto; try lia.
Qed.

Lemma vset_size {A : Type} (v : list A) (i : Z) (x : A) : vsize (vset v i x) = vsize v.
Proof.
  unfold vsize, vset. destruct (i <? 0)%Z; [reflexivity|].
  now rewrite set_nth_length.
Qed.

Lemma vset_length {A : Type} (v : list A) (i : Z) (x : A) :
  length (vset v i x) = length v.
Proof.
  unfold vset. destruct (i <? 0)%Z; [reflexivity|]. apply set_nth_length.
Qed.

Lemma vnth_vset_same {A : Type} (d : A) (v : list A) (i : Z) (x : A) :
  (0 <= i < vsize v)%Z -> vnth d (vset v i x) i = x.
Proof.
  unfold vsize, vnth, vset. intros H.
  destruct (Z.ltb_spec i 0); [lia|].
  apply set_nth_same. lia.
Qed.

Lemma vnth_vset_other {A : Type} (d : A) (v : list A) (i j : Z) (x : A) :
  (0 <= j)%Z -> j <> i -> vnth d (vset v i x) j = vnth d v j.
Proof.
  unfold vnth, vset. intros Hj H.
  destruct (Z.ltb_spec i 0); [reflexivity|].
  apply set_nth_other. lia.
Qed.

Lemma vmake_size {A : Type} (d : A) (n : Z) : (0 <= n)%Z -> vsize (vmake d n) = n.
Proof. intros H. unfold vsize, vmake. rewrite repeat_length. lia. Qed.

Lemma nth_vmake {A : Type} (d : A) (n : Z) (k : nat) : nth k (vmake d n) d = d.
Proof.
  unfold vmake.
  destruct (Nat.lt_ge_cases k (Z.to_nat n)) as [H|H].
  - apply nth_repeat_lt. exact H.
  - apply nth_overflow. now rewrite repeat_length.
Qed.

Lemma flt_true (x y : R) : flt x y = true <-> x < y.
Proof. unfold flt. destruct (Rlt_dec x y); split; intros; auto; discriminate. Qed.

Lemma flt_false (x y : R) : flt x y = false <-> y <= x.
Proof.
  unfold flt. destruct (Rlt_dec x y); split; intros; auto; try discriminate; lra.
Qed.


Lemma fle_false (x y : R) : fle x y = false <-> y < x.
Proof.
  unfold fle. destruct (Rle_dec x y); split; intros; auto; try discriminate; lra.
Qed.

(** ** The integer parts of the model, run on small inputs *)

Example int_mul_46340 : int_mul 46340 46340 = 2147395600%Z.
Proof. reflexivity. Qed.

Example int_mul_46341_wraps : int_mul 46341 46341 = (-2147479015)%Z.
Proof. reflexivity. Qed.

Example padded_size_300 : padded_size 300 = 512%Z.
Proof. reflexivity. Qed.

Example padded_size_512 : padded_size 512 = 512%Z.
Proof. reflexivity. Qed.

Example fft_divide_5 (a b c d e : complex) :
  fft_divide [a; b; c; d; e] = ([a; c; e], [b; d]).
Proof. reflexivity. Qed.

Example vat_outside_empty : vat (@nil R) 1 = None.
Proof. reflexivity. Qed.

(** ** The band-pass filter *)

Lemma band_rejected_false (sample_rate low_cutoff high_cutoff : R) :
  band_rejected sample_rate low_cutoff high_cutoff = false
  <-> band_valid sample_rate low_cutoff high_cutoff.
Proof.
  unfold band_rejected, band_valid, fge. cbv zeta.
  rewrite !orb_false_iff, !fle_false. tauto.
Qed.


Lemma band_valid_30 : band_valid 30 0.8 3.0.
Proof. unfold band_valid. cbv zeta. repeat split; lra. Qed.

Lemma band_rejected_30_resp : band_rejected 30 0.1 0.7 = false.
Proof.
  apply band_rejected_false. unfold band_valid. cbv zeta. repeat split; lra.
Qed.

Lemma highpass_rec_S (alpha : R) (input : buffer) (j : nat) :
  highpass_rec alpha input (S j)
  = alpha * (highpass_rec alpha input j + input (Z.of_nat (S j))
             - input (Z.of_nat j)).
Proof. reflexivity. Qed.

Lemma lowpass_rec_S (alpha : R) (temp : nat -> R) (j : nat) :
  lowpass_rec alpha temp (S j)
  = lowpass_rec alpha temp j
    + alpha * (temp (S j) - lowpass_rec alpha temp j).
Proof. reflexivity. Qed.

(** The high-pass loop fills [temp] with the recurrence of the
    specification. *)
Lemma highpass_loop (alpha : R) (inp : buffer) (length : Z) :
  (0 < length)%Z ->
  let temp :=
    for_loop 1 length
      (fun i temp =>
         vset temp i (alpha * (vnth 0 temp (i - 1) + inp i - inp (i - 1)%Z)))
      (vset (vmake 0 length) 0 (inp 0%Z)) in
  vsize temp = length /\
  forall j, (0 <= j < length)%Z -> vnth 0 temp j = highpass_rec alpha inp (Z.to_nat j).
Proof.
  intros Hlen.
  apply (for_loop_ind
           (fun i temp =>
              vsize temp = length /\
              forall j, (0 <= j < i)%Z ->
                        vnth 0 temp j = highpass_rec alpha inp (Z.to_nat j))).
  - lia.
  - split.
    + rewrite vset_size. apply vmake_size. lia.
    + intros j Hj. assert (j = 0%Z) by lia. subst j.
      rewrite vnth_vset_same; [reflexivity | rewrite vmake_size; lia].
  - intros i t Hi [Hsz Hrec]. split.
    + now rewrite vset_size.
    + intros j Hj. destruct (Z.eq_dec j i) as [->|Hne].
      * rewrite vnth_vset_same by lia.
        rewrite Hrec by lia.
        replace (Z.to_nat i) with (S (Z.to_nat (i - 1))) by lia.
        rewrite highpass_rec_S.
        replace (Z.of_nat (S (Z.to_nat (i - 1)))) with i by lia.
        replace (Z.of_nat (Z.to_nat (i - 1))) with (i - 1)%Z by lia.
        reflexivity.
      * rewrite vnth_vset_other by lia. apply Hrec. lia.
Qed.

(** The low-pass loop writes the recurrence of the specification into
    the first [length] places of [out] and nothing elsewhere. *)
Lemma lowpass_loop (alpha : R) (temp : list R) (out : buffer) (length : Z) :
  (0 < length)%Z ->
  let out' :=
    for_loop 1 length
      (fun i out =>
         bset out i (out (i - 1)%Z + alpha * (vnth 0 temp i - out (i - 1)%Z)))
      (bset out 0 (vnth 0 temp 0)) in
  (forall j, (0 <= j < length)%Z ->
             out' j = lowpass_rec alpha (fun n => vnth 0 temp (Z.of_nat n)) (Z.to_nat j)) /\
  (forall j, ~ (0 <= j < length)%Z -> out' j = out j).
Proof.
  intros Hlen.
  apply (for_loop_ind
           (fun i o =>
              (forall j, (0 <= j < i)%Z ->
                 o j = lowpass_rec alpha (fun n => vnth 0 temp (Z.of_nat n)) (Z.to_nat j)) /\
              (forall j, ~ (0 <= j < i)%Z -> o j = out j))).
  - lia.
  - split.
    + intros j Hj. assert (j = 0%Z) by lia. subst j.
      rewrite bset_same. reflexivity.
    + intros j Hj. apply bset_other. lia.
  - intros i o Hi [Hin Hout]. split.
    + intros j Hj. destruct (Z.eq_dec j i) as [->|Hne].
      * rewrite bset_same. rewrite Hin by lia.
        replace (Z.to_nat i) with (S (Z.to_nat (i - 1))) by lia.
        rewrite lowpass_rec_S.
        replace (Z.of_nat (S (Z.to_nat (i - 1)))) with i by lia.
        reflexivity.
      * rewrite bset_other by exact Hne. apply Hin. lia.
    + intros j Hj. rewrite bset_other by lia. apply Hout. lia.
Qed.

Lemma lowpass_rec_ext (alpha : R) (t t' : nat -> R) (n : nat) :
  (forall k, (k <= n)%nat -> t k = t' k) ->
  lowpass_rec alpha t n = lowpass_rec alpha t' n.
Proof.
  induction n as [|n IH]; intros H; simpl.
  - apply H. lia.
  - rewrite IH by (intros; apply H; lia). rewrite (H (S n)) by lia.
    reflexivity.
Qed.

(** What a call that passes the guards returns. *)
Lemma bandpass_filter_run (inp out : buffer) (length : Z)
    (sample_rate low_cutoff high_cutoff : R) :
  (0 < length)%Z ->
  band_rejected sample_rate low_cutoff high_cutoff = false ->
  exists out',
    bandpass_filter (Some inp) (Some out) length sample_rate low_cutoff high_cutoff
    = (1%Z, Some out') /\
    (forall i, (0 <= i < length)%Z ->
       out' i = cascade sample_rate low_cutoff high_cutoff inp (Z.to_nat i)) /\
    (forall i, ~ (0 <= i < length)%Z -> out' i = out i).
Proof.
  intros Hlen Hband. unfold bandpass_filter.
  destruct (Z.leb_spec length 0); [lia|].
  rewrite Hband. cbv zeta.
  eexists. split; [reflexivity|].
  set (alpha_high := 1 / (2 * PI * high_cutoff) / (1 / (2 * PI * high_cutoff) + 1 / sample_rate)).
  set (alpha_low := 1 / sample_rate / (1 / (2 * PI * low_cutoff) + 1 / sample_rate)).
  destruct (highpass_loop alpha_high inp length Hlen) as [Hsz Htemp].
  cbv zeta in Hsz, Htemp.
  set (temp := for_loop 1 length _ _) in *.
  destruct (lowpass_loop alpha_low temp out length Hlen) as [Hin Hout].
  cbv zeta in Hin, Hout.
  split; [|exact Hout].
  intros i Hi. rewrite Hin by exact Hi.
  unfold cascade. cbv zeta. fold alpha_high alpha_low.
  apply lowpass_rec_ext. intros k Hk.
  rewrite Htemp by lia. now rewrite Nat2Z.id.
Qed.

(** C1.  A call to [bandpass_filter] with non-null [input] and [output],
    [length > 0] and a band that passes validation returns 1, and the first
    [length] places of the output hold the two-stage cascade of the
    specification (high-pass recurrence, then low-pass recurrence, with
    [alpha_high = rc_high/(rc_high+dt)], [alpha_low = dt/(rc_low+dt)]); the
    output buffer is written nowhere else, so it has as many samples as the
    input. *)
Theorem bandpass_filter_cascade (inp out : buffer) (length : Z)
    (sample_rate low_cutoff high_cutoff : R) :
  (0 < length)%Z ->
  band_valid sample_rate low_cutoff high_cutoff ->
  exists out',
    bandpass_filter (Some inp) (Some out) length sample_rate low_cutoff high_cutoff
    = (1%Z, Some out') /\
    (forall i, (0 <= i < length)%Z ->
       out' i = cascade sample_rate low_cutoff high_cutoff inp (Z.to_nat i)) /\
    (forall i, ~ (0 <= i < length)%Z -> out' i = out i).
Proof.
  intros Hlen Hband. apply bandpass_filter_run; [exact Hlen|].
  now apply band_rejected_false.
Qed.

(** Witness for C1: two samples at 30 Hz through the heart-rate band. *)
Lemma bandpass_filter_cascade_witness :
  exists out',
    bandpass_filter (Some (fun _ => 1)) (Some (fun _ => 0)) 2 30 0.8 3.0
    = (1%Z, Some out') /\
    (forall i, (0 <= i < 2)%Z ->
       out' i = cascade 30 0.8 3.0 (fun _ => 1) (Z.to_nat i)) /\
    (forall i, ~ (0 <= i < 2)%Z -> out' i = (fun _ : Z => 0) i).
Proof.
  apply (bandpass_filter_cascade (fun _ => 1) (fun _ => 0) 2 30 0.8 3.0).
  - lia.
  - apply band_valid_30.
Defined.



(** ** The peak finder *)

Lemma vat_inside {A : Type} (d : A) (v : list A) (i : Z) :
  (0 <= i < vsize v)%Z -> vat v i = Some (vnth d v i).
Proof.
  unfold vat, vnth, vsize. intros H.
  destruct (Z.leb_spec 0 i); [|lia].
  destruct (Z.ltb_spec i (Z.of_nat (length v))); [|lia].
  simpl. apply nth_error_nth'. lia.
Qed.

Lemma vat_outside {A : Type} (v : list A) (i : Z) :
  ~ (0 <= i < vsize v)%Z -> vat v i = None.
Proof.
  unfold vat. intros H.
  destruct (Z.leb_spec 0 i); [|reflexivity].
  destruct (Z.ltb_spec i (vsize v)); [lia | reflexivity].
Qed.

(** The scan of [find_peak_frequency] over the bins [lo .. hi], all of them
    inside [psd]: it ends on the first bin of largest power. *)
Lemma peak_scan (psd : list R) (lo hi : Z) :
  (0 <= lo)%Z -> (lo <= hi)%Z -> (hi < vsize psd)%Z ->
  exists pk,
    for_loop (lo + 1) (hi + 1)
      (fun i st =>
         st <- st ;;
         p <- vat psd i ;;
         if fgt p (snd st) then Some (i, p) else Some st)
      (Some (lo, vnth 0 psd lo))
    = Some (pk, vnth 0 psd pk) /\
    (lo <= pk <= hi)%Z /\
    (forall j, (lo <= j <= hi)%Z -> vnth 0 psd j <= vnth 0 psd pk) /\
    (forall j, (lo <= j < pk)%Z -> vnth 0 psd j < vnth 0 psd pk).
Proof.
  intros Hlo Hle Hhi.
  assert (Hinv :
    exists pk,
      for_loop (lo + 1) (hi + 1)
        (fun i st =>
           st <- st ;;
           p <- vat psd i ;;
           if fgt p (snd st) then Some (i, p) else Some st)
        (Some (lo, vnth 0 psd lo))
      = Some (pk, vnth 0 psd pk) /\
      (lo <= pk < hi + 1)%Z /\
      (forall j, (lo <= j < hi + 1)%Z -> vnth 0 psd j <= vnth 0 psd pk) /\
      (forall j, (lo <= j < pk)%Z -> vnth 0 psd j < vnth 0 psd pk)).
  { apply (for_loop_ind
             (fun i st =>
                exists pk,
                  st = Some (pk, vnth 0 psd pk) /\
                  (lo <= pk < i)%Z /\
                  (forall j, (lo <= j < i)%Z -> vnth 0 psd j <= vnth 0 psd pk) /\
                  (forall j, (lo <= j < pk)%Z -> vnth 0 psd j < vnth 0 psd pk))).
    - lia.
    - exists lo. repeat split; try lia.
      intros j Hj. assert (j = lo) by lia. subst j. lra.
    - intros i st Hi (pk & -> & Hpk & Hmax & Hfirst).
      simpl bind. rewrite (vat_inside 0) by lia. simpl bind.
      unfold fgt. simpl snd.
      destruct (flt (vnth 0 psd pk) (vnth 0 psd i)) eqn:Hcmp.
      + apply flt_true in Hcmp. exists i. repeat split; try lia.
        * intros j Hj. destruct (Z.eq_dec j i) as [->|Hne]; [lra|].
          specialize (Hmax j ltac:(lia)). lra.
        * intros j Hj. specialize (Hmax j ltac:(lia)). lra.
      + apply flt_false in Hcmp. exists pk. repeat split; try lia.
        * intros j Hj. destruct (Z.eq_dec j i) as [->|Hne]; [lra|].
          apply Hmax. lia.
        * exact Hfirst. }
  destruct Hinv as (pk & Hloop & Hpk & Hmax & Hfirst).
  exists pk. repeat split; try lia; auto.
  intros j Hj. apply Hmax. lia.
Qed.

(** The first read [psd[min_bin]] falls outside the vector. *)
Lemma find_peak_frequency_out (psd : list R) (sample_rate min_freq max_freq : R) :
  (vsize psd - 1 < min_bin psd sample_rate min_freq)%Z ->
  find_peak_frequency psd sample_rate min_freq max_freq = None.
Proof.
  intros H. unfold find_peak_frequency. cbv zeta.
  fold (freq_resolution psd sample_rate). fold (min_bin psd sample_rate min_freq).
  rewrite vat_outside by lia. reflexivity.
Qed.

(** Empty clamped range, first read inside the vector: the scan does not
    run and [min_bin] is returned. *)
Lemma find_peak_frequency_empty (psd : list R) (sample_rate min_freq max_freq : R) :
  (min_bin psd sample_rate min_freq <= vsize psd - 1)%Z ->
  (max_bin psd sample_rate max_freq < min_bin psd sample_rate min_freq)%Z ->
  find_peak_frequency psd sample_rate min_freq max_freq
  = Some (IZR (min_bin psd sample_rate min_freq) * freq_resolution psd sample_rate).
Proof.
  intros Hin Hempty. unfold find_peak_frequency. cbv zeta.
  fold (freq_resolution psd sample_rate). fold (min_bin psd sample_rate min_freq).
  fold (max_bin psd sample_rate max_freq).
  assert (1 <= min_bin psd sample_rate min_freq)%Z by (unfold min_bin; lia).
  rewrite (vat_inside 0) by lia. simpl bind.
  rewrite for_loop_empty by lia. reflexivity.
Qed.

(** Non-empty clamped range: the first bin of largest power in the range. *)
Lemma find_peak_frequency_scan (psd : list R) (sample_rate min_freq max_freq : R) :
  (min_bin psd sample_rate min_freq <= max_bin psd sample_rate max_freq)%Z ->
  exists pk,
    find_peak_frequency psd sample_rate min_freq max_freq
    = Some (IZR pk * freq_resolution psd sample_rate) /\
    (min_bin psd sample_rate min_freq <= pk <= max_bin psd sample_rate max_freq)%Z /\
    (forall j, (min_bin psd sample_rate min_freq <= j
                <= max_bin psd sample_rate max_freq)%Z ->
               vnth 0 psd j <= vnth 0 psd pk) /\
    (forall j, (min_bin psd sample_rate min_freq <= j < pk)%Z ->
               vnth 0 psd j < vnth 0 psd pk).
Proof.
  intros Hrange.
  assert (1 <= min_bin psd sample_rate min_freq)%Z by (unfold min_bin; lia).
  assert (max_bin psd sample_rate max_freq <= vsize psd - 1)%Z by (unfold max_bin; lia).
  destruct (peak_scan psd (min_bin psd sample_rate min_freq)
              (max_bin psd sample_rate max_freq)) as (pk & Hloop & Hpk & Hmax & Hfirst);
    try lia.
  exists pk. split; [|auto].
  unfold find_peak_frequency. cbv zeta.
  fold (freq_resolution psd sample_rate). fold (min_bin psd sample_rate min_freq).
  fold (max_bin psd sample_rate max_freq).
  rewrite (vat_inside 0) by lia. simpl bind.
  rewrite Hloop. reflexivity.
Qed.

Lemma float_to_int_pos_le (x : R) : (1 <= float_to_int x)%Z -> IZR (float_to_int x) <= x.
Proof.
  unfold float_to_int. destruct (Rle_dec 0 x) as [Hx|Hx]; intros H.
  - apply Zfloor_bound.
  - exfalso. pose proof (Zceil_bound x) as [Hc _].
    apply IZR_le in H. lra.
Qed.

Lemma float_to_int_floor (x : R) (z : Z) :
  (0 <= z)%Z -> IZR z <= x < IZR z + 1 -> float_to_int x = z.
Proof.
  intros Hz Hx. unfold float_to_int.
  destruct (Rle_dec 0 x) as [H0|H0].
  - now apply Zfloor_eq.
  - exfalso. apply IZR_le in Hz. lra.
Qed.

(** Two bins of equal, largest power: the lower one is returned. *)
Example find_peak_frequency_tie :
  find_peak_frequency [0; 5; 5; 1] 8 1 3 = Some (IZR 1 * 1).
Proof.
  assert (Hres : freq_resolution [0; 5; 5; 1] 8 = 1).
  { unfold freq_resolution, vsize. simpl length. simpl Z.of_nat. simpl Z.mul. lra. }
  assert (Hmin : min_bin [0; 5; 5; 1] 8 1 = 1%Z).
  { unfold min_bin. rewrite Hres.
    rewrite (float_to_int_floor (1 / 1) 1) by (try lia; lra). reflexivity. }
  assert (Hmax : max_bin [0; 5; 5; 1] 8 3 = 3%Z).
  { unfold max_bin. rewrite Hres.
    rewrite (float_to_int_floor (3 / 1) 3) by (try lia; lra). reflexivity. }
  destruct (find_peak_frequency_scan [0; 5; 5; 1] 8 1 3)
    as (pk & Heq & Hpk & Hbest & Hfirst); rewrite ?Hmin, ?Hmax in *; [lia|].
  rewrite Heq, Hres.
  assert (pk = 1%Z) as ->; [|reflexivity].
  destruct (Z.eq_dec pk 1) as [|Hne]; [assumption|]. exfalso.
  specialize (Hfirst 1%Z ltac:(lia)).
  specialize (Hbest 1%Z ltac:(lia)).
  assert (pk = 2 \/ pk = 3)%Z as [-> | ->] by lia;
    unfold vnth in Hfirst, Hbest; simpl in Hfirst, Hbest; lra.
Qed.

Lemma find_peak_frequency_some_iff (psd : list R) (sample_rate min_freq max_freq : R) :
  find_peak_frequency psd sample_rate min_freq max_freq <> None
  <-> (min_bin psd sample_rate min_freq <= vsize psd - 1)%Z.
Proof.
  split.
  - intros H. destruct (Z_le_gt_dec (min_bin psd sample_rate min_freq) (vsize psd - 1))
      as [Hin|Hout]; [exact Hin|].
    exfalso. apply H. apply find_peak_frequency_out. lia.
  - intros Hin.
    destruct (Z_le_gt_dec (min_bin psd sample_rate min_freq)
                (max_bin psd sample_rate max_freq)) as [Hrange|Hempty].
    + destruct (find_peak_frequency_scan psd sample_rate min_freq max_freq Hrange)
        as (pk & -> & _). discriminate.
    + rewrite find_peak_frequency_empty by lia. discriminate.
Qed.

(** In the exact arithmetic of this model the two casts of
    [find_peak_frequency] are the truncations of the two quotients. *)
Lemma find_peak_frequency_casts (psd : list R) (sample_rate min_freq max_freq : R) :
  find_peak_frequency psd sample_rate min_freq max_freq
  = find_peak_frequency_from_bins psd sample_rate
      (float_to_int (min_freq / freq_resolution psd sample_rate))
      (float_to_int (max_freq / freq_resolution psd sample_rate)).
Proof. reflexivity. Qed.

(** Non-empty clamped range, whatever the two casts produced: the first bin
    of largest power in the range. *)
Lemma find_peak_frequency_from_bins_scan (psd : list R) (sample_rate : R)
    (min_cast max_cast : Z) :
  (Z.max 1 min_cast <= Z.min (vsize psd - 1) max_cast)%Z ->
  exists pk,
    find_peak_frequency_from_bins psd sample_rate min_cast max_cast
    = Some (IZR pk * freq_resolution psd sample_rate) /\
    (Z.max 1 min_cast <= pk <= Z.min (vsize psd - 1) max_cast)%Z /\
    (forall j, (Z.max 1 min_cast <= j <= Z.min (vsize psd - 1) max_cast)%Z ->
               vnth 0 psd j <= vnth 0 psd pk) /\
    (forall j, (Z.max 1 min_cast <= j < pk)%Z -> vnth 0 psd j < vnth 0 psd pk).
Proof.
  intros Hrange.
  destruct (peak_scan psd (Z.max 1 min_cast) (Z.min (vsize psd - 1) max_cast))
    as (pk & Hloop & Hpk & Hmax & Hfirst); try lia.
  exists pk. split; [|auto].
  unfold find_peak_frequency_from_bins. cbv zeta.
  fold (freq_resolution psd sample_rate).
  rewrite (vat_inside 0) by lia. simpl bind.
  rewrite Hloop. reflexivity.
Qed.

(** C4, as the code has it.  Let [min_cast] and [max_cast] be the integers
    that the two casts [static_cast<int>(minFreq / resolution)] and
    [static_cast<int>(maxFreq / resolution)] produce, with
    [resolution = sample_rate / (2 * len(psd))].  For a positive sample rate
    and a clamped bin range [max(1, min_cast) .. min(len(psd)-1, max_cast)]
    that is not empty, [find_peak_frequency] returns [peakBin * resolution]
    with [peakBin] inside that range: bin 0 is never selected, the returned
    frequency lies between [min_cast * resolution] and
    [max_cast * resolution], and [peakBin] is the lowest-indexed bin of
    largest power in the range.  When the two casts are the truncations of
    [minFreq / resolution] and [maxFreq / resolution], this is the value of
    [find_peak_frequency] on the band and it is not above [maxFreq]. *)
Theorem find_peak_frequency_in_range (psd : list R) (sample_rate : R)
    (min_cast max_cast : Z) :
  let resolution := sample_rate / (2 * IZR (vsize psd)) in
  let lo := Z.max 1 min_cast in
  let hi := Z.min (vsize psd - 1) max_cast in
  0 < sample_rate ->
  (lo <= hi)%Z ->
  exists peak_bin,
    find_peak_frequency_from_bins psd sample_rate min_cast max_cast
    = Some (IZR peak_bin * resolution) /\
    (lo <= peak_bin <= hi)%Z /\
    peak_bin <> 0%Z /\
    IZR min_cast * resolution <= IZR peak_bin * resolution
      <= IZR max_cast * resolution /\
    (forall j, (lo <= j <= hi)%Z -> vnth 0 psd j <= vnth 0 psd peak_bin) /\
    (forall j, (lo <= j < peak_bin)%Z -> vnth 0 psd j < vnth 0 psd peak_bin) /\
    (forall min_freq max_freq,
       min_cast = float_to_int (min_freq / resolution) ->
       max_cast = float_to_int (max_freq / resolution) ->
       find_peak_frequency psd sample_rate min_freq max_freq
       = Some (IZR peak_bin * resolution) /\
       IZR peak_bin * resolution <= max_freq).
Proof.
  intros resolution lo hi Hsr Hrange.
  assert (Hres : resolution = freq_resolution psd sample_rate).
  { unfold resolution, freq_resolution. rewrite mult_IZR. f_equal. lra. }
  destruct (find_peak_frequency_from_bins_scan psd sample_rate min_cast max_cast)
    as (pk & Heq & Hpk & Hmax & Hfirst); [exact Hrange|].
  rewrite <- Hres in Heq. fold lo hi in Hpk, Hmax, Hfirst.
  exists pk. split; [exact Heq|]. split; [exact Hpk|].
  assert (Hsize : (2 <= vsize psd)%Z) by lia.
  assert (Hpos : 0 < resolution).
  { unfold resolution. apply IZR_le in Hsize.
    apply Rdiv_lt_0_compat; lra. }
  split; [lia|].
  split; [|split; [exact Hmax|split; [exact Hfirst|]]].
  - split; apply Rmult_le_compat_r; try lra; apply IZR_le; lia.
  - intros min_freq max_freq Hcmin Hcast.
    split.
    { rewrite find_peak_frequency_casts, <- Hres, <- Hcmin, <- Hcast. exact Heq. }
    assert (Htrunc : (1 <= float_to_int (max_freq / resolution))%Z) by lia.
    apply float_to_int_pos_le in Htrunc.
    assert (Hle : IZR pk <= max_freq / resolution).
    { eapply Rle_trans; [|exact Htrunc]. apply IZR_le. lia. }
    apply (Rmult_le_compat_r resolution) in Hle; [|lra].
    replace (max_freq / resolution * resolution) with max_freq in Hle
      by (field; lra).
    exact Hle.
Qed.

(** C10.  [find_peak_frequency] reads [psd[min_bin]] whatever the range, so
    all its reads are inside [psd] exactly when
    [max(1, trunc(min_freq/resolution)) <= len(psd) - 1]; and
    [calculate_heart_rate_fft] on a non-null signal of length 1 passes the
    guard, gets an empty power spectrum (padded size 1) and reads outside
    it. *)
Theorem find_peak_frequency_unguarded_read :
  (forall psd sample_rate min_freq max_freq,
     find_peak_frequency psd sample_rate min_freq max_freq <> None
     <-> (Z.max 1 (float_to_int (min_freq / (sample_rate / IZR (vsize psd * 2))))
          <= vsize psd - 1)%Z) /\
  (forall sig sample_rate min_bpm max_bpm,
     padded_size 1 = 1%Z /\
     calculate_psd sig 1 = [] /\
     calculate_heart_rate_fft (Some sig) 1 sample_rate min_bpm max_bpm = None).
Proof.
  split.
  - intros. apply find_peak_frequency_some_iff.
  - intros sig sample_rate min_bpm max_bpm.
    assert (Hpsd : calculate_psd sig 1 = []) by reflexivity.
    split; [reflexivity|]. split; [exact Hpsd|].
    unfold calculate_heart_rate_fft. simpl Z.leb. cbv iota zeta.
    rewrite Hpsd. rewrite find_peak_frequency_out; [reflexivity|].
    unfold min_bin, vsize. simpl length. lia.
Qed.

(** Witness for C4: four bins at 8 Hz, the band [1 Hz, 3 Hz], whose
    quotients 1 and 3 the casts leave as they are; the peak is bin 2. *)
Lemma find_peak_frequency_in_range_witness :
  0 < 8 /\
  (Z.max 1 1 <= Z.min (vsize [0; 0; 1; 0] - 1) 3)%Z /\
  find_peak_frequency_from_bins [0; 0; 1; 0] 8 1 3
  = Some (IZR 2 * (8 / (2 * IZR (vsize [0; 0; 1; 0])))) /\
  find_peak_frequency [0; 0; 1; 0] 8 1 3
  = Some (IZR 2 * (8 / (2 * IZR (vsize [0; 0; 1; 0])))) /\
  IZR 2 * (8 / (2 * IZR (vsize [0; 0; 1; 0]))) <= 3.
Proof.
  assert (Hrange : (Z.max 1 1 <= Z.min (vsize [0; 0; 1; 0] - 1) 3)%Z)
    by (unfold vsize; simpl; lia).
  split; [lra|]. split; [exact Hrange|].
  destruct (find_peak_frequency_in_range [0; 0; 1; 0] 8 1 3 ltac:(lra) Hrange)
    as (pk & Heq & Hpk & _ & _ & Hbest & _ & Hexact).
  assert (Hpk2 : pk = 2%Z).
  { unfold vsize in Hpk, Hbest. simpl in Hpk.
    specialize (Hbest 2%Z ltac:(simpl; lia)).
    assert (pk = 1 \/ pk = 2 \/ pk = 3)%Z as [-> | [-> | ->]] by lia;
      [exfalso | reflexivity | exfalso];
      unfold vnth in Hbest; simpl in Hbest; lra. }
  subst pk.
  split; [exact Heq|].
  apply (Hexact 1 3); unfold vsize; simpl length; simpl Z.of_nat.
  - rewrite (float_to_int_floor (1 / (8 / (2 * 4))) 1) by (try lia; lra). reflexivity.
  - rewrite (float_to_int_floor (3 / (8 / (2 * 4))) 3) by (try lia; lra). reflexivity.
Defined.

(** C4 as stated fails in two ways.  With four bins at 8 Hz and the band
    [0.5 Hz, 0.75 Hz] the clamped range is [1 .. 0], empty, and the function
    returns bin 1, that is 1 Hz, above [maxFreq].  With a negative sample
    rate the resolution is negative and the returned frequency (-2 Hz) is
    above [maxFreq] (-2.5 Hz) although bin 2 lies in the range [1 .. 2]. *)
Lemma find_peak_frequency_range_counterexample :
  (freq_resolution [0; 0; 0; 0] 8 = 1 /\
   min_bin [0; 0; 0; 0] 8 (1 / 2) = 1%Z /\
   max_bin [0; 0; 0; 0] 8 (3 / 4) = 0%Z /\
   find_peak_frequency [0; 0; 0; 0] 8 (1 / 2) (3 / 4) = Some (IZR 1 * 1) /\
   3 / 4 < IZR 1 * 1) /\
  (freq_resolution [0; 0; 1; 0] (-8) = -1 /\
   min_bin [0; 0; 1; 0] (-8) (-1) = 1%Z /\
   max_bin [0; 0; 1; 0] (-8) (-5 / 2) = 2%Z /\
   find_peak_frequency [0; 0; 1; 0] (-8) (-1) (-5 / 2) = Some (IZR 2 * -1) /\
   -5 / 2 < IZR 2 * -1).
Proof.
  assert (Hres1 : freq_resolution [0; 0; 0; 0] 8 = 1).
  { unfold freq_resolution, vsize. simpl length. simpl Z.of_nat. simpl Z.mul. lra. }
  assert (Hmin1 : min_bin [0; 0; 0; 0] 8 (1 / 2) = 1%Z).
  { unfold min_bin. rewrite Hres1.
    rewrite (float_to_int_floor (1 / 2 / 1) 0) by (try lia; lra). reflexivity. }
  assert (Hmax1 : max_bin [0; 0; 0; 0] 8 (3 / 4) = 0%Z).
  { unfold max_bin. rewrite Hres1.
    rewrite (float_to_int_floor (3 / 4 / 1) 0) by (try lia; lra). reflexivity. }
  assert (Hres2 : freq_resolution [0; 0; 1; 0] (-8) = -1).
  { unfold freq_resolution, vsize. simpl length. simpl Z.of_nat. simpl Z.mul. lra. }
  assert (Hmin2 : min_bin [0; 0; 1; 0] (-8) (-1) = 1%Z).
  { unfold min_bin. rewrite Hres2.
    rewrite (float_to_int_floor (-1 / -1) 1) by (try lia; lra). reflexivity. }
  assert (Hmax2 : max_bin [0; 0; 1; 0] (-8) (-5 / 2) = 2%Z).
  { unfold max_bin. rewrite Hres2.
    rewrite (float_to_int_floor (-5 / 2 / -1) 2) by (try lia; lra). reflexivity. }
  split.
  - repeat split; auto; [|lra].
    rewrite find_peak_frequency_empty; rewrite ?Hmin1, ?Hmax1, ?Hres1;
      [reflexivity | unfold vsize; simpl; lia | lia].
  - repeat split; auto; [|lra].
    destruct (find_peak_frequency_scan [0; 0; 1; 0] (-8) (-1) (-5 / 2))
      as (pk & Heq & Hpk & Hbest & _); rewrite ?Hmin2, ?Hmax2 in *; [lia|].
    rewrite Heq, Hres2.
    assert (pk = 2%Z) as ->; [|reflexivity].
    destruct (Z.eq_dec pk 2) as [|Hne]; [assumption|].
    assert (pk = 1%Z) as -> by lia.
    specialize (Hbest 2%Z ltac:(lia)). unfold vnth in Hbest. simpl in Hbest. lra.
Qed.

(** ** The rate estimators *)

(** C8.  On a non-null signal with [length > 0], [calculate_heart_rate_fft]
    is [60 * find_peak_frequency(calculate_psd(signal, length), sample_rate,
    min_bpm/60, max_bpm/60)]: the power spectrum is taken of the signal
    itself, with no band-pass filter before it.  [calculate_respiration_rate],
    when its filter call succeeds, is the same composition applied to the
    signal band-pass filtered through [0.1, 0.7] Hz: it returns what
    [calculate_heart_rate_fft] returns on the filtered signal. *)
Theorem rate_estimators_pipeline (sig : buffer) (length : Z)
    (sample_rate min_rate max_rate : R) :
  (0 < length)%Z ->
  calculate_heart_rate_fft (Some sig) length sample_rate min_rate max_rate
  = (f <- find_peak_frequency (calculate_psd sig length) sample_rate
            (min_rate / 60) (max_rate / 60) ;;
     Some (60 * f)) /\
  (fst (bandpass_filter (Some sig) (Some (vdata (vmake 0 length))) length
          sample_rate 0.1 0.7) <> 0%Z ->
   exists filtered,
     bandpass_filter (Some sig) (Some (vdata (vmake 0 length))) length
       sample_rate 0.1 0.7 = (1%Z, Some filtered) /\
     (forall i, (0 <= i < length)%Z ->
                filtered i = cascade sample_rate 0.1 0.7 sig (Z.to_nat i)) /\
     calculate_respiration_rate (Some sig) length sample_rate min_rate max_rate
     = (f <- find_peak_frequency (calculate_psd filtered length) sample_rate
               (min_rate / 60) (max_rate / 60) ;;
        Some (60 * f)) /\
     calculate_respiration_rate (Some sig) length sample_rate min_rate max_rate
     = calculate_heart_rate_fft (Some filtered) length sample_rate min_rate max_rate).
Proof.
  intros Hlen.
  assert (H60 : 60.0 = 60) by lra.
  assert (Hcomm : forall o : option R,
             (f <- o ;; Some (f * 60)) = (f <- o ;; Some (60 * f))).
  { intros [f|]; simpl; [|reflexivity]. f_equal. lra. }
  split.
  - unfold calculate_heart_rate_fft.
    destruct (Z.leb_spec length 0); [lia|]. cbv zeta.
    rewrite H60. apply Hcomm.
  - intros Hok.
    destruct (band_rejected sample_rate 0.1 0.7) eqn:Hband.
    + exfalso. apply Hok. unfold bandpass_filter.
      destruct (Z.leb_spec length 0); [lia|]. now rewrite Hband.
    + destruct (bandpass_filter_run sig (vdata (vmake 0 length)) length
                  sample_rate 0.1 0.7 Hlen Hband) as (filtered & Heq & Hcas & _).
      exists filtered. split; [exact Heq|]. split; [exact Hcas|].
      unfold calculate_respiration_rate, calculate_heart_rate_fft.
      destruct (Z.leb_spec length 0); [lia|]. cbv zeta.
      rewrite Heq. simpl Z.eqb. cbv iota.
      split; [|reflexivity].
      rewrite H60. apply Hcomm.
Qed.

(** C9.  With a null signal pointer or [length <= 0] both rate estimators
    return the sentinel 0.0 before any of the pipeline runs, and
    [process_rppg_signals] and [bandpass_filter] return 0 (also for a null
    output pointer); [calculate_respiration_rate] returns 0.0 as well when
    its [0.1, 0.7] Hz band-pass filter call returns 0. *)
Theorem invalid_buffer_results (signals output : option buffer) (length : Z)
    (sample_rate low high min_rate max_rate : R) :
  (signals = None \/ (length <= 0)%Z ->
   calculate_heart_rate_fft signals length sample_rate min_rate max_rate = Some 0 /\
   calculate_respiration_rate signals length sample_rate min_rate max_rate = Some 0) /\
  (signals = None \/ output = None \/ (length <= 0)%Z ->
   process_rppg_signals signals output length sample_rate = (0%Z, output) /\
   bandpass_filter signals output length sample_rate low high = (0%Z, output)) /\
  (fst (bandpass_filter signals (Some (vdata (vmake 0 length))) length
          sample_rate 0.1 0.7) = 0%Z ->
   calculate_respiration_rate signals length sample_rate min_rate max_rate = Some 0).
Proof.
  split; [|split].
  - intros [->|Hlen]; [split; reflexivity|].
    unfold calculate_heart_rate_fft, calculate_respiration_rate.
    destruct signals; [|split; reflexivity].
    destruct (Z.leb_spec length 0); [split; reflexivity | lia].
  - intros H. unfold process_rppg_signals, bandpass_filter.
    destruct signals, output; try (split; reflexivity).
    destruct (Z.leb_spec length 0); [split; reflexivity|].
    destruct H as [H|[H|H]]; try discriminate; lia.
  - intros Hfail. unfold calculate_respiration_rate.
    destruct signals as [sig|]; [|reflexivity].
    destruct (Z.leb_spec length 0); [reflexivity|]. cbv zeta.
    destruct (bandpass_filter _ _ _ _ _ _) as [ok filtered].
    simpl in Hfail. subst ok. reflexivity.
Qed.

(** Witness for C9: the null signal with [length = 0]. *)
Lemma invalid_buffer_results_witness :
  calculate_heart_rate_fft None 0 30 40 180 = Some 0 /\
  calculate_respiration_rate None 0 30 40 180 = Some 0 /\
  process_rppg_signals None None 0 30 = (0%Z, None) /\
  bandpass_filter None None 0 30 0.8 3.0 = (0%Z, None).
Proof.
  destruct (invalid_buffer_results None None 0 30 0.8 3.0 40 180) as (H1 & H2 & H3).
  destruct (H1 (or_introl eq_refl)) as [Hh _].
  destruct (H2 (or_introl eq_refl)) as [Hp Hb].
  split; [exact Hh|]. split; [exact (H3 eq_refl)|]. split; [exact Hp | exact Hb].
Defined.

(** ** Loops that rewrite an array place by place *)

Lemma for_loop_bset (g : Z -> R -> R) (lo hi : Z) (b : buffer) :
  (lo <= hi)%Z ->
  forall j,
    for_loop lo hi (fun i sig => bset sig i (g i (sig i))) b j
    = if (lo <=? j)%Z && (j <? hi)%Z then g j (b j) else b j.
Proof.
  intros Hle.
  apply (for_loop_ind
           (fun i s => forall j,
                s j = if (lo <=? j)%Z && (j <? i)%Z then g j (b j) else b j)).
  - exact Hle.
  - intros j. destruct (Z.leb_spec lo j), (Z.ltb_spec j lo); simpl; auto; lia.
  - intros i s Hi Hs j. destruct (Z.eq_dec j i) as [->|Hne].
    + rewrite bset_same, Hs.
      destruct (Z.leb_spec lo i), (Z.ltb_spec i i), (Z.ltb_spec i (i + 1));
        simpl; auto; lia.
    + rewrite bset_other by exact Hne. rewrite Hs.
      destruct (Z.leb_spec lo j), (Z.ltb_spec j i), (Z.ltb_spec j (i + 1));
        simpl; auto; lia.
Qed.

Lemma for_loop_vset {A : Type} (d0 : A) (g : Z -> A -> A) (lo hi : Z) (v : list A) :
  (0 <= lo <= hi)%Z -> (hi <= vsize v)%Z ->
  let v' := for_loop lo hi (fun i d => vset d i (g i (vnth d0 d i))) v in
  length v' = length v /\
  forall j, (0 <= j)%Z ->
    vnth d0 v' j
    = if (lo <=? j)%Z && (j <? hi)%Z then g j (vnth d0 v j) else vnth d0 v j.
Proof.
  intros Hle Hhi.
  apply (for_loop_ind
           (fun i s =>
              length s = length v /\
              forall j, (0 <= j)%Z ->
                vnth d0 s j
                = if (lo <=? j)%Z && (j <? i)%Z then g j (vnth d0 v j) else vnth d0 v j)).
  - lia.
  - split; [reflexivity|].
    intros j Hj. destruct (Z.leb_spec lo j), (Z.ltb_spec j lo); simpl; auto; lia.
  - intros i s Hi [Hlen Hs]. split; [now rewrite vset_length|].
    intros j Hj. destruct (Z.eq_dec j i) as [->|Hne].
    + rewrite vnth_vset_same by (unfold vsize in *; lia).
      rewrite Hs by lia.
      destruct (Z.leb_spec lo i), (Z.ltb_spec i i), (Z.ltb_spec i (i + 1));
        simpl; auto; lia.
    + rewrite vnth_vset_other by lia. rewrite Hs by lia.
      destruct (Z.leb_spec lo j), (Z.ltb_spec j i), (Z.ltb_spec j (i + 1));
        simpl; auto; lia.
Qed.

(** ** The padded size *)

Lemma grow_fft_size_spec (length : Z) (fuel : nat) :
  forall j,
    (0 <= j)%Z ->
    (length - 2 ^ j < Z.of_nat fuel)%Z ->
    (j = 0 \/ 2 ^ (j - 1) < length)%Z ->
    exists k,
      (0 <= k)%Z /\
      grow_fft_size fuel (2 ^ j) length = (2 ^ k)%Z /\
      (length <= 2 ^ k)%Z /\
      (k = 0 \/ 2 ^ (k - 1) < length)%Z.
Proof.
  induction fuel as [|fuel IH]; intros j Hj Hfuel Hprev.
  - exists j. cbn [grow_fft_size]. destruct (Z.ltb_spec (2 ^ j) length); [lia|]. auto.
  - cbn [grow_fft_size]. destruct (Z.ltb_spec (2 ^ j) length) as [Hlt|Hge].
    + rewrite Z.shiftl_mul_pow2 by lia.
      replace (2 ^ j * 2 ^ 1)%Z with (2 ^ (j + 1))%Z
        by (rewrite Z.pow_add_r by lia; reflexivity).
      assert (0 < 2 ^ j)%Z by (apply Z.pow_pos_nonneg; lia).
      apply IH.
      * lia.
      * rewrite Z.pow_add_r by lia. change (2 ^ 1)%Z with 2%Z. lia.
      * right. now replace (j + 1 - 1)%Z with j by lia.
    + exists j. auto.
Qed.

(** [padded_size length] is the smallest power of two that is at least
    [length]; the doubling loop reaches it within [length] rounds. *)
Lemma padded_size_reached (length : Z) :
  exists k,
    (0 <= k)%Z /\
    padded_size length = (2 ^ k)%Z /\
    (length <= 2 ^ k)%Z /\
    (forall k', (0 <= k')%Z -> (length <= 2 ^ k')%Z -> (2 ^ k <= 2 ^ k')%Z).
Proof.
  destruct (grow_fft_size_spec length (Z.to_nat length) 0) as (k & Hk & Heq & Hle & Hmin).
  - lia.
  - simpl. lia.
  - now left.
  - exists k. repeat split; auto.
    intros k' Hk' Hle'.
    apply Z.pow_le_mono_r; [lia|].
    destruct Hmin as [->|Hmin]; [lia|].
    destruct (Z_le_gt_dec k k') as [|Hgt]; [assumption|].
    exfalso.
    assert (2 ^ k' <= 2 ^ (k - 1))%Z by (apply Z.pow_le_mono_r; lia).
    lia.
Qed.

Lemma padded_size_pos (length : Z) : (1 <= padded_size length)%Z.
Proof.
  destruct (padded_size_reached length) as (k & Hk & -> & _).
  assert (0 < 2 ^ k)%Z by (apply Z.pow_pos_nonneg; lia). lia.
Qed.

(** ** The FFT: the loops *)

Lemma vnth_app_l {A : Type} (d : A) (u v : list A) (i : Z) :
  (0 <= i < vsize u)%Z -> vnth d (u ++ v) i = vnth d u i.
Proof. unfold vnth, vsize. intros H. apply app_nth1. lia. Qed.

Lemma vnth_snoc {A : Type} (d : A) (u : list A) (x : A) :
  vnth d (u ++ [x]) (vsize u) = x.
Proof.
  unfold vnth, vsize. rewrite Nat2Z.id.
  rewrite app_nth2 by lia. now rewrite Nat.sub_diag.
Qed.

Lemma vsize_snoc {A : Type} (u : list A) (x : A) : vsize (u ++ [x]) = (vsize u + 1)%Z.
Proof. unfold vsize. rewrite length_app. simpl. lia. Qed.

(** The divide loop: [even[m] = data[2m]], [odd[m] = data[2m+1]]. *)
Lemma fft_divide_spec (data : list complex) :
  let N := vsize data in
  vsize (fst (fft_divide data)) = ((N + 1) / 2)%Z /\
  vsize (snd (fft_divide data)) = (N / 2)%Z /\
  (forall m, (0 <= m)%Z -> (2 * m < N)%Z ->
             vnth C0 (fst (fft_divide data)) m = vnth C0 data (2 * m)) /\
  (forall m, (0 <= m)%Z -> (2 * m + 1 < N)%Z ->
             vnth C0 (snd (fft_divide data)) m = vnth C0 data (2 * m + 1)).
Proof.
  intros N. unfold fft_divide. fold N.
  apply (for_loop_ind
           (fun i s =>
              vsize (fst s) = ((i + 1) / 2)%Z /\
              vsize (snd s) = (i / 2)%Z /\
              (forall m, (0 <= m)%Z -> (2 * m < i)%Z ->
                         vnth C0 (fst s) m = vnth C0 data (2 * m)) /\
              (forall m, (0 <= m)%Z -> (2 * m + 1 < i)%Z ->
                         vnth C0 (snd s) m = vnth C0 data (2 * m + 1)))).
  - unfold N, vsize. lia.
  - split; [reflexivity|]. split; [reflexivity|]. split; intros; lia.
  - intros i [even odd] Hi (He & Ho & Hev & Hod). simpl fst in *. simpl snd in *.
    rewrite Z.rem_mod_nonneg by lia.
    destruct (Z.eqb_spec (i mod 2) 0) as [Hpar|Hpar]; simpl fst; simpl snd.
    + assert (Hi2 : i = (2 * (i / 2))%Z) by lia.
      assert (Hsz : vsize even = (i / 2)%Z) by (rewrite He; lia).
      repeat split.
      * rewrite vsize_snoc, He. lia.
      * rewrite Ho. lia.
      * intros m Hm Hlt. destruct (Z.eq_dec m (i / 2)) as [->|Hne].
        -- rewrite <- Hsz at 1. rewrite vnth_snoc. now rewrite <- Hi2.
        -- rewrite vnth_app_l by lia. apply Hev; lia.
      * intros m Hm Hlt. apply Hod; lia.
    + assert (Hi2 : i = (2 * (i / 2) + 1)%Z) by lia.
      repeat split.
      * rewrite He. lia.
      * rewrite vsize_snoc, Ho. lia.
      * intros m Hm Hlt. apply Hev; lia.
      * intros m Hm Hlt. destruct (Z.eq_dec m (i / 2)) as [->|Hne].
        -- rewrite <- Ho at 1. rewrite vnth_snoc. now rewrite <- Hi2.
        -- rewrite vnth_app_l by lia. apply Hod; lia.
Qed.

(** The combine loop on a vector of even size [N = 2 * M]. *)
Lemma fft_combine_spec (even odd data : list complex) (M : Z) :
  (0 <= M)%Z -> vsize data = (2 * M)%Z ->
  let tw k := polar 1 (-2 * PI * IZR k / IZR (vsize data)) in
  let X := fft_combine even odd data in
  length X = length data /\
  forall k, (0 <= k < M)%Z ->
    vnth C0 X k = Cadd (vnth C0 even k) (Cmul (tw k) (vnth C0 odd k)) /\
    vnth C0 X (k + M) = Csub (vnth C0 even k) (Cmul (tw k) (vnth C0 odd k)).
Proof.
  intros HM HN tw X. unfold X, fft_combine.
  assert (Hq : Z.quot (vsize data) 2 = M).
  { rewrite Z.quot_div_nonneg by lia. rewrite HN.
    rewrite Z.mul_comm. apply Z.div_mul. lia. }
  rewrite Hq.
  apply (for_loop_ind
           (fun i s =>
              length s = length data /\
              forall k, (0 <= k < i)%Z ->
                vnth C0 s k = Cadd (vnth C0 even k) (Cmul (tw k) (vnth C0 odd k)) /\
                vnth C0 s (k + M) = Csub (vnth C0 even k) (Cmul (tw k) (vnth C0 odd k)))).
  - exact HM.
  - split; [reflexivity | intros; lia].
  - intros i s Hi [Hlen Hs].
    assert (Hsz : vsize s = (2 * M)%Z) by (unfold vsize in *; lia).
    split; [now rewrite !vset_length|].
    intros k Hk. fold (tw i). destruct (Z.eq_dec k i) as [->|Hne].
    + split.
      * rewrite vnth_vset_other by lia.
        rewrite vnth_vset_same by lia. reflexivity.
      * rewrite vnth_vset_same by (rewrite vset_size; lia). reflexivity.
    + rewrite !vnth_vset_other by lia. apply Hs. lia.
Qed.

(** More levels than the vector has elements change nothing. *)
Lemma fft_rec_depth (d1 : nat) :
  forall (d2 : nat) (data : list complex),
    (length data <= d1)%nat -> (length data <= d2)%nat ->
    fft_rec d1 data = fft_rec d2 data.
Proof.
  induction d1 as [|d1 IH]; intros d2 data H1 H2.
  - destruct data; [|simpl in H1; lia].
    destruct d2; reflexivity.
  - destruct d2 as [|d2].
    + destruct data; [reflexivity | simpl in H2; lia].
    + cbn [fft_rec].
      destruct (Z.leb_spec (vsize data) 1) as [|Hbig]; [reflexivity|].
      pose proof (fft_divide_spec data) as (He & Ho & _).
      destruct (fft_divide data) as [even odd]. simpl fst in *. simpl snd in *.
      cbv zeta in He, Ho.
      assert (length even <= d1)%nat.
      { unfold vsize in *. lia. }
      assert (length odd <= d1)%nat.
      { unfold vsize in *. lia. }
      assert (length even <= d2)%nat.
      { unfold vsize in *. lia. }
      assert (length odd <= d2)%nat.
      { unfold vsize in *. lia. }
      rewrite (IH d2 even), (IH d2 odd) by assumption. reflexivity.
Qed.

(** [fft] is the recursion of the source: vectors of size at most 1 are
    returned as they are, larger ones are divided, transformed and
    combined. *)
Lemma fft_unfold (data : list complex) :
  fft data =
  if (vsize data <=? 1)%Z then data
  else fft_combine (fft (fst (fft_divide data))) (fft (snd (fft_divide data))) data.
Proof.
  unfold fft at 1.
  destruct (length data) as [|n] eqn:Hn.
  - destruct data; [reflexivity | discriminate].
  - cbn [fft_rec].
    destruct (Z.leb_spec (vsize data) 1) as [|Hbig]; [reflexivity|].
    pose proof (fft_divide_spec data) as (He & Ho & _).
    destruct (fft_divide data) as [even odd]. simpl fst in *. simpl snd in *.
    cbv zeta in He, Ho. unfold fft.
    assert (length even <= n)%nat.
    { unfold vsize in *. lia. }
    assert (length odd <= n)%nat.
    { unfold vsize in *. lia. }
    rewrite (fft_rec_depth n (length even) even), (fft_rec_depth n (length odd) odd)
      by lia.
    reflexivity.
Qed.

(** ** Complex arithmetic and the DFT *)

Lemma Cadd_0_l (z : complex) : Cadd C0 z = z.
Proof. Ceq. Qed.

Lemma Cmul_1_r (z : complex) : Cmul z (1, 0) = z.
Proof. Ceq. Qed.

Lemma Cadd_neg (a b c : complex) : Cadd a (Cmul (Csub C0 b) c) = Csub a (Cmul b c).
Proof. Ceq. Qed.

Lemma Cmul_swap (a b c : complex) : Cmul a (Cmul b c) = Cmul b (Cmul a c).
Proof. Ceq. Qed.

Lemma polar_0 : polar 1 0 = (1, 0).
Proof. unfold polar. rewrite cos_0, sin_0. f_equal; ring. Qed.

Lemma polar_add (a b : R) : polar 1 (a + b) = Cmul (polar 1 a) (polar 1 b).
Proof.
  unfold polar, Cmul. simpl. rewrite cos_plus, sin_plus. f_equal; ring.
Qed.

Lemma polar_period (a : R) (m : nat) : polar 1 (a - 2 * INR m * PI) = polar 1 a.
Proof.
  unfold polar, PI.
  rewrite <- (cos_period (a - 2 * INR m * Rtrigo1.PI) m).
  rewrite <- (sin_period (a - 2 * INR m * Rtrigo1.PI) m).
  replace (a - 2 * INR m * Rtrigo1.PI + 2 * INR m * Rtrigo1.PI) with a by ring.
  reflexivity.
Qed.

Lemma polar_shift (a b : R) (m : nat) :
  a = b - 2 * INR m * PI -> polar 1 a = polar 1 b.
Proof. intros ->. apply polar_period. Qed.

Lemma polar_half (a : R) : polar 1 (a - PI) = Csub C0 (polar 1 a).
Proof.
  unfold polar, Csub, C0, PI, Rminus. simpl.
  rewrite cos_plus, sin_plus, cos_neg, sin_neg, cos_PI, sin_PI.
  f_equal; ring.
Qed.

Lemma Csum_ext (f g : nat -> complex) (N : nat) :
  (forall n, (n < N)%nat -> f n = g n) -> Csum f N = Csum g N.
Proof.
  induction N as [|N IH]; intros H; simpl; [reflexivity|].
  rewrite IH by (intros; apply H; lia). now rewrite H by lia.
Qed.

Lemma Csum_mul_l (c : complex) (f : nat -> complex) (N : nat) :
  Csum (fun n => Cmul c (f n)) N = Cmul c (Csum f N).
Proof.
  induction N as [|N IH]; simpl.
  - Ceq.
  - rewrite IH. generalize (Csum f N) (f N). intros. Ceq.
Qed.

Lemma Csum_even_odd (f : nat -> complex) (M : nat) :
  Csum f (2 * M)
  = Cadd (Csum (fun m => f (2 * m)%nat) M) (Csum (fun m => f (2 * m + 1)%nat) M).
Proof.
  induction M as [|M IH].
  - simpl. Ceq.
  - replace (2 * S M)%nat with (S (S (2 * M))) by lia.
    cbn [Csum]. rewrite IH.
    replace (S (2 * M)) with (2 * M + 1)%nat by lia.
    generalize (Csum (fun m => f (2 * m)%nat) M) (Csum (fun m => f (2 * m + 1)%nat) M)
               (f (2 * M)%nat) (f (2 * M + 1)%nat).
    intros. Ceq.
Qed.

(** The Danielson-Lanczos step: the DFT of a vector of size [2 * M] from
    the DFTs of its even-indexed and odd-indexed halves. *)
Lemma dft_even_odd (x xe xo : list complex) (M : nat) :
  (0 < M)%nat ->
  length x = (2 * M)%nat -> length xe = M -> length xo = M ->
  (forall m, (m < M)%nat -> nth m xe C0 = nth (2 * m) x C0) ->
  (forall m, (m < M)%nat -> nth m xo C0 = nth (2 * m + 1) x C0) ->
  forall k,
    let tw := polar 1 (-2 * PI * INR k / INR (2 * M)) in
    dft x k = Cadd (dft xe k) (Cmul tw (dft xo k)) /\
    dft x (k + M) = Csub (dft xe k) (Cmul tw (dft xo k)).
Proof.
  intros HM Hx Hxe Hxo Heven Hodd k tw.
  assert (HMR : INR M <> 0) by (apply not_0_INR; lia).
  assert (H2M : INR (2 * M) = 2 * INR M) by (rewrite mult_INR; simpl; ring).
  unfold dft. rewrite Hx, Hxe, Hxo. cbv zeta.
  split.
  - rewrite Csum_even_odd. f_equal.
    + apply Csum_ext. intros m Hm. rewrite Heven by exact Hm.
      f_equal. f_equal. rewrite H2M, mult_INR. simpl INR. field. exact HMR.
    + rewrite <- Csum_mul_l. apply Csum_ext. intros m Hm.
      rewrite Hodd by exact Hm. rewrite Cmul_swap. f_equal.
      unfold tw. rewrite <- polar_add. f_equal.
      rewrite H2M, plus_INR, mult_INR. simpl INR. field. exact HMR.
  - rewrite Csum_even_odd, <- Cadd_neg. f_equal.
    + apply Csum_ext. intros m Hm. rewrite Heven by exact Hm.
      f_equal. apply (polar_shift _ _ m).
      rewrite H2M, mult_INR, plus_INR. simpl INR. field. exact HMR.
    + rewrite <- Csum_mul_l. apply Csum_ext. intros m Hm.
      rewrite Hodd by exact Hm. rewrite Cmul_swap. f_equal.
      unfold tw. rewrite <- polar_half, <- polar_add.
      apply (polar_shift _ _ m).
      rewrite H2M, !plus_INR, mult_INR. simpl INR. field. exact HMR.
Qed.

Lemma dft_singleton (x : list complex) : length x = 1%nat -> dft x 0 = nth 0 x C0.
Proof.
  intros H. unfold dft. rewrite H. simpl.
  replace (-2 * PI * 0 * 0 / 1) with 0 by field.
  rewrite polar_0, Cadd_0_l, Cmul_1_r. reflexivity.
Qed.

(** The recursive [fft] computes the DFT on sizes [2 ^ p]. *)
Lemma fft_dft_pow2 (p : nat) :
  forall data : list complex,
    length data = (2 ^ p)%nat ->
    length (fft data) = length data /\
    forall k, (k < length data)%nat -> nth k (fft data) C0 = dft data k.
Proof.
  induction p as [|p IH]; intros data Hlen.
  - simpl in Hlen. rewrite fft_unfold.
    destruct (Z.leb_spec (vsize data) 1) as [_|Hbig]; [|unfold vsize in Hbig; lia].
    split; [reflexivity|].
    intros k Hk. rewrite Hlen in Hk.
    assert (k = 0%nat) by lia. subst k.
    symmetry. now apply dft_singleton.
  - set (M := (2 ^ p)%nat).
    assert (HM : (0 < M)%nat) by (unfold M; apply Nat.neq_0_lt_0, Nat.pow_nonzero; lia).
    assert (Hlen2 : length data = (2 * M)%nat) by (rewrite Hlen; simpl; unfold M; lia).
    assert (Hsz : vsize data = (2 * Z.of_nat M)%Z) by (unfold vsize; lia).
    pose proof (fft_divide_spec data) as (He & Ho & Hev & Hod).
    cbv zeta in He, Ho, Hev, Hod.
    destruct (fft_divide data) as [even odd] eqn:Hdiv. simpl fst in *. simpl snd in *.
    assert (Hle : length even = M) by (unfold vsize in *; lia).
    assert (Hlo : length odd = M) by (unfold vsize in *; lia).
    destruct (IH even Hle) as [HlE HE].
    destruct (IH odd Hlo) as [HlO HO].
    rewrite fft_unfold. destruct (Z.leb_spec (vsize data) 1) as [|_]; [lia|].
    rewrite Hdiv. simpl fst. simpl snd.
    destruct (fft_combine_spec (fft even) (fft odd) data (Z.of_nat M))
      as [HlX HX]; [lia | exact Hsz |].
    cbv zeta in HlX, HX.
    split; [exact HlX|].
    assert (Hsplit : forall k, (k < M)%nat ->
              dft data k
              = Cadd (dft even k)
                     (Cmul (polar 1 (-2 * PI * INR k / INR (2 * M))) (dft odd k)) /\
              dft data (k + M)
              = Csub (dft even k)
                     (Cmul (polar 1 (-2 * PI * INR k / INR (2 * M))) (dft odd k))).
    { intros k Hk. apply dft_even_odd; auto.
      - intros m Hm. specialize (Hev (Z.of_nat m) ltac:(lia) ltac:(lia)).
        unfold vnth in Hev. rewrite Nat2Z.id in Hev. rewrite Hev. f_equal. lia.
      - intros m Hm. specialize (Hod (Z.of_nat m) ltac:(lia) ltac:(lia)).
        unfold vnth in Hod. rewrite Nat2Z.id in Hod. rewrite Hod. f_equal. lia. }
    assert (Htw : forall k, polar 1 (-2 * PI * IZR (Z.of_nat k) / IZR (vsize data))
                            = polar 1 (-2 * PI * INR k / INR (2 * M))).
    { intros k. unfold vsize. rewrite <- !INR_IZR_INZ, Hlen2. reflexivity. }
    intros k Hk. rewrite Hlen2 in Hk.
    destruct (Nat.lt_ge_cases k M) as [Hlt|Hge].
    + destruct (HX (Z.of_nat k) ltac:(lia)) as [H1 _].
      destruct (Hsplit k Hlt) as [H2 _].
      unfold vnth in H1. rewrite Nat2Z.id in H1. rewrite H1, H2, Htw.
      rewrite <- HE by lia. rewrite <- HO by lia. reflexivity.
    + destruct (HX (Z.of_nat (k - M)) ltac:(lia)) as [_ H1].
      destruct (Hsplit (k - M)%nat ltac:(lia)) as [_ H2].
      replace (k - M + M)%nat with k in H2 by lia.
      unfold vnth in H1. rewrite Nat2Z.id in H1.
      replace (Z.to_nat (Z.of_nat (k - M) + Z.of_nat M)) with k in H1 by lia.
      rewrite H1, H2, Htw.
      rewrite <- HE by lia. rewrite <- HO by lia. reflexivity.
Qed.

(** C2.  On a vector whose size [N] is a power of two, [fft] returns a
    vector of the same size holding the discrete Fourier transform
    [X[k] = sum over n of x[n] * exp(-2*pi*i*n*k/N)]; a vector of size at most
    1 is returned unchanged, and a larger one is obtained from the
    transforms [E], [O] of its even-indexed and odd-indexed halves by
    [X[k] = E[k] + exp(-2*pi*i*k/N) * O[k]] and
    [X[k+N/2] = E[k] - exp(-2*pi*i*k/N) * O[k]] for [k] in [[0, N/2)]. *)
Theorem fft_computes_dft (data : list complex) (p : nat) :
  length data = (2 ^ p)%nat ->
  length (fft data) = length data /\
  (forall k, (k < length data)%nat -> nth k (fft data) C0 = dft data k) /\
  ((length data <= 1)%nat -> fft data = data) /\
  ((1 < length data)%nat ->
   let N := length data in
   let E := fft (fst (fft_divide data)) in
   let O := fft (snd (fft_divide data)) in
   forall k, (k < N / 2)%nat ->
     let tw := polar 1 (-2 * PI * INR k / INR N) in
     nth k (fft data) C0 = Cadd (nth k E C0) (Cmul tw (nth k O C0)) /\
     nth (k + N / 2) (fft data) C0 = Csub (nth k E C0) (Cmul tw (nth k O C0))).
Proof.
  intros Hlen.
  destruct (fft_dft_pow2 p data Hlen) as [Hl Hdft].
  split; [exact Hl|]. split; [exact Hdft|]. split.
  - intros Hsmall. rewrite fft_unfold.
    destruct (Z.leb_spec (vsize data) 1) as [_|Hbig];
      [reflexivity | unfold vsize in Hbig; lia].
  - intros Hbig N E O k Hk tw.
    destruct p as [|p]; [simpl in Hlen; lia|].
    assert (Hsz : vsize data = (2 * Z.of_nat (2 ^ p))%Z).
    { unfold vsize. rewrite Hlen. simpl Nat.pow. lia. }
    assert (HN2 : (N / 2)%nat = (2 ^ p)%nat).
    { unfold N. rewrite Hlen. simpl Nat.pow.
      replace (2 ^ p + (2 ^ p + 0))%nat with (2 ^ p * 2)%nat by lia.
      apply Nat.div_mul. lia. }
    rewrite fft_unfold. destruct (Z.leb_spec (vsize data) 1) as [|_]; [lia|].
    destruct (fft_combine_spec E O data (Z.of_nat (2 ^ p))) as [_ HX];
      [lia | exact Hsz |].
    cbv zeta in HX.
    destruct (HX (Z.of_nat k) ltac:(lia)) as [H1 H2].
    unfold vnth in H1, H2. rewrite Nat2Z.id in H1, H2.
    replace (Z.to_nat (Z.of_nat k + Z.of_nat (2 ^ p))) with (k + N / 2)%nat in H2 by lia.
    assert (Htw : polar 1 (-2 * PI * IZR (Z.of_nat k) / IZR (vsize data)) = tw).
    { unfold tw, vsize, N. now rewrite <- !INR_IZR_INZ. }
    rewrite Htw in H1, H2. split; assumption.
Qed.

(** Witness for C2: the unit impulse of size 2. *)
Lemma fft_computes_dft_witness :
  length (fft [(1, 0); (0, 0)]) = 2%nat /\
  forall k, (k < 2)%nat -> nth k (fft [(1, 0); (0, 0)]) C0 = dft [(1, 0); (0, 0)] k.
Proof.
  destruct (fft_computes_dft [(1, 0); (0, 0)] 1 eq_refl) as (Hl & Hdft & _).
  split; [exact Hl | exact Hdft].
Defined.

(** ** The power spectrum *)

Lemma for_loop_fill {A : Type} (d0 : A) (f : Z -> A) (n : Z) (v : list A) :
  (0 <= n)%Z -> vsize v = n ->
  for_loop 0 n (fun i d => vset d i (f i)) v
  = map (fun i : nat => f (Z.of_nat i)) (seq 0 (Z.to_nat n)).
Proof.
  intros Hn Hv.
  destruct (for_loop_vset d0 (fun i _ => f i) 0 n v) as [Hlen Hnth]; [lia | lia |].
  cbv zeta in Hlen, Hnth.
  apply (nth_ext _ _ d0 (f (Z.of_nat 0))).
  - rewrite Hlen, length_map, length_seq. unfold vsize in Hv. lia.
  - intros k Hk. rewrite Hlen in Hk. unfold vsize in Hv.
    specialize (Hnth (Z.of_nat k) ltac:(lia)).
    unfold vnth in Hnth. rewrite Nat2Z.id in Hnth. rewrite Hnth.
    destruct (Z.leb_spec 0 (Z.of_nat k)); [|lia].
    destruct (Z.ltb_spec (Z.of_nat k) n); [|lia]. simpl andb. cbv iota.
    rewrite (map_nth (fun i : nat => f (Z.of_nat i)) (seq 0 (Z.to_nat n)) 0%nat k).
    rewrite seq_nth by lia. reflexivity.
Qed.

Lemma nth_windowed_padded (signal : buffer) (length size : Z) (k : nat) :
  (k < Z.to_nat size)%nat ->
  nth k (windowed_padded signal length size) C0
  = if (Z.of_nat k <? length)%Z
    then (signal (Z.of_nat k) * hann length (Z.of_nat k), 0)
    else (0, 0).
Proof.
  intros Hk. unfold windowed_padded.
  set (F := fun i : nat =>
              if (Z.of_nat i <? length)%Z
              then (signal (Z.of_nat i) * hann length (Z.of_nat i), 0)
              else (0, 0)).
  rewrite (nth_indep _ C0 (F 0%nat)) by (rewrite length_map, length_seq; exact Hk).
  rewrite (map_nth F), seq_nth by exact Hk. reflexivity.
Qed.

(** The three preparation loops of [calculate_psd] build the windowed,
    zero-padded vector of the specification. *)
Lemma calculate_psd_input (signal : buffer) (length : Z) :
  (0 <= length)%Z ->
  let fft_size := padded_size length in
  for_loop 0 length
    (fun i d =>
       let window := hann length i in
       vset d i (Cscale (vnth C0 d i) window))
    (for_loop length fft_size (fun i d => vset d i (0, 0))
       (for_loop 0 length (fun i d => vset d i (signal i, 0)) (vmake C0 fft_size)))
  = windowed_padded signal length fft_size.
Proof.
  intros Hlen fft_size.
  assert (Hsz : (length <= fft_size)%Z).
  { destruct (padded_size_reached length) as (k & _ & Hk & Hle & _).
    unfold fft_size. lia. }
  assert (Hpos : (1 <= fft_size)%Z) by apply padded_size_pos.
  clearbody fft_size.
  set (d1 := for_loop 0 length (fun i d => vset d i (signal i, 0)) (vmake C0 fft_size)).
  assert (Hd1 : Datatypes.length d1 = Datatypes.length (vmake C0 fft_size) /\
                forall j, (0 <= j)%Z ->
                  vnth C0 d1 j
                  = if (0 <=? j)%Z && (j <? length)%Z then (signal j, 0)
                    else vnth C0 (vmake C0 fft_size) j).
  { apply (for_loop_vset C0 (fun i _ => (signal i, 0))); [lia|].
    rewrite vmake_size; lia. }
  destruct Hd1 as [Hl1 H1]. clearbody d1.
  assert (Hs1 : vsize d1 = fft_size).
  { unfold vsize. rewrite Hl1. apply vmake_size. lia. }
  set (d2 := for_loop length fft_size (fun i d => vset d i (0, 0)) d1).
  assert (Hd2 : Datatypes.length d2 = Datatypes.length d1 /\
                forall j, (0 <= j)%Z ->
                  vnth C0 d2 j
                  = if (length <=? j)%Z && (j <? fft_size)%Z then (0, 0)
                    else vnth C0 d1 j).
  { apply (for_loop_vset C0 (fun _ _ => (0, 0))); lia. }
  destruct Hd2 as [Hl2 H2]. clearbody d2.
  assert (Hs2 : vsize d2 = fft_size) by (unfold vsize in *; lia).
  set (d3 := for_loop 0 length _ d2).
  assert (Hd3 : Datatypes.length d3 = Datatypes.length d2 /\
                forall j, (0 <= j)%Z ->
                  vnth C0 d3 j
                  = if (0 <=? j)%Z && (j <? length)%Z
                    then Cscale (vnth C0 d2 j) (hann length j)
                    else vnth C0 d2 j).
  { apply (for_loop_vset C0 (fun i z => Cscale z (hann length i))); lia. }
  destruct Hd3 as [Hl3 H3]. clearbody d3.
  apply (nth_ext _ _ C0 C0).
  - unfold windowed_padded. rewrite length_map, length_seq. unfold vsize in *. lia.
  - intros k Hk. unfold vsize in *.
    specialize (H3 (Z.of_nat k) ltac:(lia)).
    specialize (H2 (Z.of_nat k) ltac:(lia)).
    specialize (H1 (Z.of_nat k) ltac:(lia)).
    unfold vnth in H1, H2, H3. rewrite Nat2Z.id in H1, H2, H3.
    rewrite H3, H2, H1. rewrite nth_windowed_padded by lia.
    rewrite nth_vmake.
    destruct (Z.leb_spec 0 (Z.of_nat k)); [|lia].
    destruct (Z.ltb_spec (Z.of_nat k) length) as [Hin|Hout]; simpl andb; cbv iota.
    + destruct (Z.leb_spec length (Z.of_nat k)); [lia|]. simpl andb. cbv iota.
      unfold Cscale. simpl. f_equal. ring.
    + destruct (Z.leb_spec length (Z.of_nat k)); [|lia].
      destruct (Z.ltb_spec (Z.of_nat k) fft_size); [|lia]. reflexivity.
Qed.

Lemma Cnorm_nonneg (z : complex) : 0 <= Cnorm z.
Proof. unfold Cnorm. nra. Qed.

Lemma calculate_psd_eq (signal : buffer) (length : Z) :
  (0 <= length)%Z ->
  let size := padded_size length in
  calculate_psd signal length
  = map (fun i : nat =>
           Cnorm (vnth C0 (fft (windowed_padded signal length size)) (Z.of_nat i)))
        (seq 0 (Z.to_nat (size / 2))).
Proof.
  intros Hlen size. unfold calculate_psd. cbv zeta.
  pose proof (calculate_psd_input signal length Hlen) as Hin. cbv zeta in Hin.
  rewrite Hin. fold size.
  assert (Hpos : (1 <= size)%Z) by apply padded_size_pos.
  rewrite Z.quot_div_nonneg by lia.
  apply (for_loop_fill 0); [lia|]. apply vmake_size. lia.
Qed.

(** C7.  For a signal of [length >= 1], [calculate_psd] returns
    [paddedSize/2] values, each a squared magnitude [re^2 + im^2] and so
    non-negative, where [paddedSize] is the smallest power of two that is at
    least [length].  They are the first [paddedSize/2] bins of the FFT of the
    signal copied into a complex vector of size [paddedSize], with the Hann
    window [0.5 * (1 - cos(2*pi*i/(length-1)))] multiplied into the first
    [length] samples only and zeros behind them. *)
Theorem calculate_psd_spec (signal : buffer) (length : Z) :
  (1 <= length)%Z ->
  let size := padded_size length in
  let psd := calculate_psd signal length in
  let fft_input := windowed_padded signal length size in
  (exists k, (0 <= k)%Z /\ size = (2 ^ k)%Z /\ (length <= size)%Z /\
             forall k', (0 <= k')%Z -> (length <= 2 ^ k')%Z -> (size <= 2 ^ k')%Z) /\
  vsize psd = (size / 2)%Z /\
  (forall x, In x psd -> 0 <= x) /\
  (forall i, (0 <= i < size / 2)%Z ->
             vnth 0 psd i
             = fst (vnth C0 (fft fft_input) i) * fst (vnth C0 (fft fft_input) i)
               + snd (vnth C0 (fft fft_input) i) * snd (vnth C0 (fft fft_input) i)) /\
  vsize fft_input = size /\
  (forall i, (0 <= i < length)%Z ->
             vnth C0 fft_input i
             = (signal i * (0.5 * (1 - cos (2 * PI * IZR i / IZR (length - 1)))), 0)) /\
  (forall i, (length <= i < size)%Z -> vnth C0 fft_input i = (0, 0)).
Proof.
  intros Hlen size psd fft_input.
  assert (Hpos : (1 <= size)%Z) by apply padded_size_pos.
  assert (Hpsd : psd = map (fun i : nat => Cnorm (vnth C0 (fft fft_input) (Z.of_nat i)))
                           (seq 0 (Z.to_nat (size / 2)))).
  { unfold psd. apply calculate_psd_eq. lia. }
  split.
  { destruct (padded_size_reached length) as (k & Hk & Heq & Hle & Hmin).
    exists k. unfold size. rewrite Heq. auto. }
  split.
  { rewrite Hpsd. unfold vsize. rewrite length_map, length_seq. lia. }
  split.
  { intros x Hx. rewrite Hpsd in Hx. apply in_map_iff in Hx.
    destruct Hx as (i & <- & _). apply Cnorm_nonneg. }
  split.
  { intros i Hi. rewrite Hpsd. unfold vnth at 1.
    set (F := fun i : nat => Cnorm (vnth C0 (fft fft_input) (Z.of_nat i))).
    rewrite (nth_indep _ 0 (F 0%nat)) by (rewrite length_map, length_seq; lia).
    rewrite (map_nth F), seq_nth by lia. unfold F. simpl Nat.add.
    rewrite Z2Nat.id by lia. reflexivity. }
  split.
  { unfold fft_input, windowed_padded, vsize. rewrite length_map, length_seq. lia. }
  assert (Hsz : (length <= size)%Z).
  { destruct (padded_size_reached length) as (k & _ & Hk & Hle & _).
    unfold size. lia. }
  split.
  - intros i Hi. unfold vnth, fft_input.
    rewrite nth_windowed_padded by lia. rewrite Z2Nat.id by lia.
    destruct (Z.ltb_spec i length); [reflexivity | lia].
  - intros i Hi. unfold vnth, fft_input.
    rewrite nth_windowed_padded by lia. rewrite Z2Nat.id by lia.
    destruct (Z.ltb_spec i length); [lia | reflexivity].
Qed.

(** Witness for C7: a constant signal of three samples. *)
Lemma calculate_psd_spec_witness :
  vsize (calculate_psd (fun _ => 1) 3) = (padded_size 3 / 2)%Z /\
  (forall x, In x (calculate_psd (fun _ => 1) 3) -> 0 <= x).
Proof.
  destruct (calculate_psd_spec (fun _ => 1) 3 ltac:(lia)) as (_ & Hsize & Hpos & _).
  split; [exact Hsize | exact Hpos].
Defined.

(** ** Sums *)

Lemma Rsum_ext (f g : Z -> R) (n : nat) :
  (forall i, (0 <= i < Z.of_nat n)%Z -> f i = g i) -> Rsum f n = Rsum g n.
Proof.
  induction n as [|n IH]; intros H; simpl; [reflexivity|].
  rewrite IH by (intros; apply H; lia). rewrite H by lia. reflexivity.
Qed.

Lemma Rsum_plus (f g : Z -> R) (n : nat) :
  Rsum (fun i => f i + g i) n = Rsum f n + Rsum g n.
Proof. induction n as [|n IH]; simpl; [ring | rewrite IH; ring]. Qed.

Lemma Rsum_scal (a : R) (f : Z -> R) (n : nat) :
  Rsum (fun i => a * f i) n = a * Rsum f n.
Proof. induction n as [|n IH]; simpl; [ring | rewrite IH; ring]. Qed.

Lemma Rsum_const (c : R) (n : nat) : Rsum (fun _ => c) n = INR n * c.
Proof.
  induction n as [|n IH]; [simpl; ring|].
  cbn [Rsum]. rewrite IH, S_INR. ring.
Qed.

(** [Sum (f i - (a * i + b)) = Sum f - a * Sum i - n * b]. *)
Lemma Rsum_residual (f : Z -> R) (a b : R) (n : nat) :
  Rsum (fun i => f i - (a * IZR i + b)) n
  = Rsum f n - a * Rsum IZR n - INR n * b.
Proof.
  rewrite (Rsum_ext _ (fun i => f i + (-a * IZR i + (fun _ => - b) i)))
    by (intros; ring).
  rewrite Rsum_plus, Rsum_plus, Rsum_scal, Rsum_const. ring.
Qed.

(** [Sum i * (f i - (a * i + b)) = Sum (i * f i) - a * Sum i^2 - b * Sum i]. *)
Lemma Rsum_residual_x (f : Z -> R) (a b : R) (n : nat) :
  Rsum (fun i => IZR i * (f i - (a * IZR i + b))) n
  = Rsum (fun i => IZR i * f i) n
    - a * Rsum (fun i => IZR i * IZR i) n - b * Rsum IZR n.
Proof.
  rewrite (Rsum_ext _ (fun i => IZR i * f i
                                + (-a * (IZR i * IZR i) + -b * IZR i)))
    by (intros; ring).
  rewrite Rsum_plus, Rsum_plus, !Rsum_scal. ring.
Qed.

(** [2 * Sum i = n * (n - 1)]. *)
Lemma Rsum_index (n : nat) : 2 * Rsum IZR n = INR n * (INR n - 1).
Proof.
  induction n as [|n IH]; [simpl; ring|].
  cbn [Rsum]. rewrite S_INR, <- INR_IZR_INZ. lra.
Qed.

(** [6 * Sum i^2 = (n - 1) * n * (2 * n - 1)]. *)
Lemma Rsum_index_sq (n : nat) :
  6 * Rsum (fun i => IZR i * IZR i) n = (INR n - 1) * INR n * (2 * INR n - 1).
Proof.
  induction n as [|n IH]; [simpl; ring|].
  cbn [Rsum]. rewrite S_INR, <- INR_IZR_INZ.
  replace (6 * (Rsum (fun i => IZR i * IZR i) n + INR n * INR n))
    with (6 * Rsum (fun i => IZR i * IZR i) n + 6 * (INR n * INR n)) by ring.
  rewrite IH. ring.
Qed.

(** [12 * (N * Sum i^2 - (Sum i)^2) = n^2 * (n^2 - 1)]. *)
Lemma regression_denominator_closed (n : nat) :
  12 * regression_denominator n = INR n * INR n * (INR n * INR n - 1).
Proof.
  unfold regression_denominator.
  pose proof (Rsum_index n) as H1. pose proof (Rsum_index_sq n) as H2.
  replace (12 * (INR n * Rsum (fun i => IZR i * IZR i) n - Rsum IZR n * Rsum IZR n))
    with (2 * INR n * (6 * Rsum (fun i => IZR i * IZR i) n)
          - 3 * ((2 * Rsum IZR n) * (2 * Rsum IZR n))) by ring.
  rewrite H1, H2. ring.
Qed.

Lemma regression_denominator_pos (n : nat) :
  (2 <= n)%nat -> 0 < regression_denominator n.
Proof.
  intros Hn. pose proof (regression_denominator_closed n) as H.
  assert (Hn2 : 2 <= INR n) by (apply le_INR in Hn; simpl in Hn; lra).
  assert (Hsq : 4 <= INR n * INR n) by nra.
  assert (0 < INR n * INR n * (INR n * INR n - 1))
    by (apply Rmult_lt_0_compat; lra).
  lra.
Qed.

(** ** The detrender *)

(** An accumulation loop is a sum. *)
Lemma for_loop_sum (f : Z -> R) (N : Z) :
  (0 <= N)%Z ->
  for_loop 0 N (fun i acc => acc + f i) 0 = Rsum f (Z.to_nat N).
Proof.
  intros HN.
  apply (for_loop_ind (fun i acc => acc = Rsum f (Z.to_nat i))); [lia | reflexivity |].
  intros i acc Hi ->.
  replace (Z.to_nat (i + 1)) with (S (Z.to_nat i)) by lia.
  cbn [Rsum]. rewrite Z2Nat.id by lia. reflexivity.
Qed.

Lemma detrend_sums_eq (signal : buffer) (N : Z) :
  (0 <= N)%Z ->
  let n := Z.to_nat N in
  detrend_sums signal N
  = (Rsum IZR n, Rsum signal n, Rsum (fun i => IZR i * signal i) n,
     Rsum (fun i => IZR (int_mul i i)) n).
Proof.
  intros HN n. unfold detrend_sums, n.
  apply (for_loop_ind
           (fun i s =>
              s = (Rsum IZR (Z.to_nat i), Rsum signal (Z.to_nat i),
                   Rsum (fun i => IZR i * signal i) (Z.to_nat i),
                   Rsum (fun i => IZR (int_mul i i)) (Z.to_nat i))));
    [lia | reflexivity |].
  intros i s Hi ->.
  replace (Z.to_nat (i + 1)) with (S (Z.to_nat i)) by lia.
  cbn [Rsum]. rewrite Z2Nat.id by lia. reflexivity.
Qed.

(** While no square [i * i] leaves the [int] range, [sum_x2] is the sum
    of the squares. *)
Lemma int_mul_square (i : Z) : (0 <= i <= 46340)%Z -> int_mul i i = (i * i)%Z.
Proof.
  intros Hi. unfold int_mul, wrap32.
  assert (0 <= i * i <= 46340 * 46340)%Z by nia.
  rewrite Z.mod_small by lia. lia.
Qed.

(** The first square that does not fit. *)
Lemma int_mul_46341 : int_mul 46341 46341 = (46341 * 46341 - 2 ^ 32)%Z.
Proof. reflexivity. Qed.

(** What [detrend_signal] leaves in the first [N] places: the centred
    sample minus the fitted line, with the slope and intercept the loops
    compute. *)
Lemma detrend_signal_eq (signal : buffer) (N : Z) :
  (0 <= N)%Z ->
  let n := Z.to_nat N in
  let mean := Rsum signal n / IZR N in
  let centred := fun i => signal i - mean in
  let sum_x := Rsum IZR n in
  let sum_y := Rsum centred n in
  let sum_xy := Rsum (fun i => IZR i * centred i) n in
  let sum_x2 := Rsum (fun i => IZR (int_mul i i)) n in
  let slope := (IZR N * sum_xy - sum_x * sum_y) / (IZR N * sum_x2 - sum_x * sum_x) in
  let intercept := (sum_y - slope * sum_x) / IZR N in
  forall i, (0 <= i < N)%Z ->
    detrend_signal signal N i = centred i - (slope * IZR i + intercept).
Proof.
  intros HN n mean centred sum_x sum_y sum_xy sum_x2 slope intercept i Hi.
  unfold detrend_signal.
  rewrite (for_loop_sum signal N HN). fold n. fold mean.
  set (s1 := for_loop 0 N (fun i sig => bset sig i (sig i - mean)) signal).
  assert (Hs1 : forall j, (0 <= j < N)%Z -> s1 j = centred j).
  { intros j Hj. unfold s1.
    rewrite (for_loop_bset (fun _ v => v - mean) 0 N signal HN).
    destruct (Z.leb_spec 0 j); [|lia]. destruct (Z.ltb_spec j N); [|lia].
    reflexivity. }
  rewrite (detrend_sums_eq s1 N HN). cbv zeta. fold n.
  rewrite (Rsum_ext s1 centred n) by (intros; apply Hs1; lia).
  rewrite (Rsum_ext (fun i => IZR i * s1 i) (fun i => IZR i * centred i) n)
    by (intros j Hj; rewrite Hs1 by lia; reflexivity).
  fold sum_x sum_y sum_xy sum_x2. fold slope. fold intercept.
  rewrite (for_loop_bset (fun i v => v - (slope * IZR i + intercept)) 0 N s1 HN).
  destruct (Z.leb_spec 0 i); [|lia]. destruct (Z.ltb_spec i N); [|lia].
  simpl andb. cbv iota. rewrite Hs1 by lia. reflexivity.
Qed.

(** The samples [1; 2; 4]: the residuals of the least-squares line. *)
Example detrend_signal_1_2_4 :
  let out := detrend_signal (vdata [1; 2; 4]) 3 in
  out 0%Z = 1 / 6 /\ out 1%Z = - 1 / 3 /\ out 2%Z = 1 / 6.
Proof.
  cbv zeta.
  unfold detrend_signal, detrend_sums, for_loop, int_mul, wrap32, vdata, vnth.
  simpl. unfold bset. simpl. repeat split; field.
Qed.

Lemma Rsum_S (f : Z -> R) (k : nat) :
  Rsum f (S k) = Rsum f k + f (Z.of_nat k).
Proof. reflexivity. Qed.

(** The sums of the detrended buffer, whatever divisor the code used for
    the slope: the samples add up to zero, and the numerator of their
    regression slope is the numerator the code computed minus
    [slope * (N * Sum(x^2) - (Sum(x))^2)]. *)
Lemma detrend_signal_sums (signal : buffer) (N : Z) :
  (1 <= N)%Z ->
  let n := Z.to_nat N in
  let mean := Rsum signal n / IZR N in
  let centred := fun i => signal i - mean in
  let sum_x := Rsum IZR n in
  let sum_y := Rsum centred n in
  let sum_xy := Rsum (fun i => IZR i * centred i) n in
  let sum_x2 := Rsum (fun i => IZR (int_mul i i)) n in
  let slope := (IZR N * sum_xy - sum_x * sum_y) / (IZR N * sum_x2 - sum_x * sum_x) in
  let out := detrend_signal signal N in
  Rsum out n = 0 /\
  INR n * Rsum (fun i => IZR i * out i) n - Rsum IZR n * Rsum out n
  = (IZR N * sum_xy - sum_x * sum_y) - slope * regression_denominator n.
Proof.
  intros HN n mean centred sum_x sum_y sum_xy sum_x2 slope out.
  set (intercept := (sum_y - slope * sum_x) / IZR N).
  assert (Hout : forall i, (0 <= i < Z.of_nat n)%Z ->
                           out i = centred i - (slope * IZR i + intercept)).
  { intros i Hi. apply (detrend_signal_eq signal N); unfold n in Hi; lia. }
  assert (HnN : INR n = IZR N) by (unfold n; rewrite INR_IZR_INZ, Z2Nat.id; [reflexivity | lia]).
  assert (HN0 : IZR N <> 0) by (apply not_0_IZR; lia).
  assert (Hsum : Rsum out n = 0).
  { rewrite (Rsum_ext out _ n Hout), Rsum_residual, HnN.
    fold sum_y sum_x. unfold intercept. field. exact HN0. }
  split; [exact Hsum|].
  rewrite Hsum.
  rewrite (Rsum_ext (fun i => IZR i * out i)
             (fun i => IZR i * (centred i - (slope * IZR i + intercept))) n)
    by (intros i Hi; rewrite Hout by exact Hi; reflexivity).
  rewrite Rsum_residual_x. fold sum_xy sum_x.
  unfold regression_denominator. fold sum_x. rewrite HnN.
  unfold intercept. field. exact HN0.
Qed.

(** X13.  For [2 <= length <= 46341] no square overflows: the divisor of
    the slope is [N * Sum(x^2) - (Sum(x))^2], it is not zero, and the
    detrended buffer has mean 0 and regression slope 0. *)
Lemma detrend_signal_least_squares (signal : buffer) (N : Z) :
  (2 <= N <= 46341)%Z ->
  let n := Z.to_nat N in
  detrend_denominator signal N = regression_denominator n /\
  detrend_denominator signal N <> 0 /\
  mean_of (detrend_signal signal N) n = 0 /\
  regression_slope (detrend_signal signal N) n = 0.
Proof.
  intros HN n.
  assert (HnN : INR n = IZR N) by (unfold n; rewrite INR_IZR_INZ, Z2Nat.id; [reflexivity | lia]).
  assert (Hx2 : Rsum (fun i => IZR (int_mul i i)) n = Rsum (fun i => IZR i * IZR i) n).
  { apply Rsum_ext. intros i Hi. rewrite int_mul_square by (unfold n in Hi; lia).
    apply mult_IZR. }
  assert (Hpos : 0 < regression_denominator n)
    by (apply regression_denominator_pos; unfold n; lia).
  assert (Hden : forall s, detrend_denominator s N = regression_denominator n).
  { intros s. unfold detrend_denominator.
    rewrite (detrend_sums_eq s N) by lia. cbv zeta. fold n.
    rewrite Hx2. unfold regression_denominator. now rewrite HnN. }
  split; [apply Hden|]. split; [rewrite Hden; lra|].
  destruct (detrend_signal_sums signal N ltac:(lia)) as [Hsum Hnum].
  cbv zeta in Hsum, Hnum. fold n in Hsum, Hnum.
  split.
  - unfold mean_of. rewrite Hsum. unfold Rdiv. ring.
  - unfold regression_slope. rewrite Hnum, Hx2.
    replace (IZR N * Rsum (fun i => IZR i * IZR i) n - Rsum IZR n * Rsum IZR n)
      with (regression_denominator n)
      by (unfold regression_denominator; now rewrite HnN).
    field. lra.
Qed.

(** C6, at the first length whose squares overflow.  On the ramp
    [signal[i] = i] of 46342 samples, [46341 * 46341] does not fit an [int]
    and wraps to [-2147479015]: [sum_x2] comes out [2^32] short, the divisor
    of the slope is not [N * Sum(x^2) - (Sum(x))^2], and the detrended buffer
    keeps a regression slope that is not zero. *)
Theorem detrend_signal_square_overflow :
  let N := 46342%Z in
  let n := Z.to_nat N in
  int_mul 46341 46341 = (-2147479015)%Z /\
  detrend_denominator IZR N = regression_denominator n - IZR N * 2 ^ 32 /\
  regression_slope (detrend_signal IZR N) n <> 0.
Proof.
  intros N n.
  assert (HnN : INR n = IZR N) by (unfold n; rewrite INR_IZR_INZ, Z2Nat.id; [reflexivity | lia]).
  assert (HN0 : IZR N <> 0) by (apply not_0_IZR; lia).
  assert (HNpos : 0 < IZR N) by (apply IZR_lt; lia).
  assert (Hn : n = S (Z.to_nat 46341)) by (unfold n, N; lia).
  set (X2 := Rsum (fun i => IZR i * IZR i) n).
  assert (Hx2 : Rsum (fun i => IZR (int_mul i i)) n = X2 - 2 ^ 32).
  { unfold X2. rewrite Hn, !Rsum_S.
    rewrite (Rsum_ext (fun i => IZR (int_mul i i)) (fun i => IZR i * IZR i))
      by (intros i Hi; rewrite int_mul_square by lia; apply mult_IZR).
    rewrite Z2Nat.id by lia. rewrite int_mul_46341.
    rewrite minus_IZR, mult_IZR, pow_IZR. simpl Z.of_nat. ring. }
  assert (Hpos : 0 < regression_denominator n)
    by (apply regression_denominator_pos; unfold n, N; lia).
  assert (HD : regression_denominator n = IZR N * X2 - Rsum IZR n * Rsum IZR n).
  { unfold regression_denominator, X2. now rewrite HnN. }
  assert (Hden : detrend_denominator IZR N = regression_denominator n - IZR N * 2 ^ 32).
  { unfold detrend_denominator. rewrite (detrend_sums_eq IZR N) by (unfold N; lia).
    cbv zeta. fold n. rewrite Hx2, HD. ring. }
  split; [reflexivity|]. split; [exact Hden|].
  destruct (detrend_signal_sums IZR N ltac:(unfold N; lia)) as [Hsum Hnum].
  cbv zeta in Hsum, Hnum. fold n in Hsum, Hnum.
  set (mean := Rsum IZR n / IZR N) in *.
  assert (Hsy : Rsum (fun i => IZR i - mean) n = 0).
  { rewrite (Rsum_ext _ (fun i => IZR i - (0 * IZR i + mean))) by (intros; ring).
    rewrite Rsum_residual, HnN. unfold mean. field. exact HN0. }
  assert (Hsxy : IZR N * Rsum (fun i => IZR i * (IZR i - mean)) n
                 = regression_denominator n).
  { rewrite (Rsum_ext _ (fun i => IZR i * (IZR i - (0 * IZR i + mean))))
      by (intros; ring).
    rewrite Rsum_residual_x. fold X2. rewrite HD. unfold mean. field. exact HN0. }
  rewrite Hsy, Hsxy, Hx2 in Hnum.
  replace (IZR N * (X2 - 2 ^ 32) - Rsum IZR n * Rsum IZR n)
    with (regression_denominator n - IZR N * 2 ^ 32) in Hnum by (rewrite HD; ring).
  set (D := regression_denominator n) in *.
  set (Dc := D - IZR N * 2 ^ 32) in *.
  unfold regression_slope. rewrite Hnum. fold D.
  replace (D - Rsum IZR n * 0) with D by ring.
  intros Hzero.
  assert (Hnumz : D - D / Dc * D = 0).
  { apply (Rmult_eq_compat_r D) in Hzero.
    unfold Rdiv in Hzero. rewrite Rmult_assoc, Rinv_l, Rmult_1_r, Rmult_0_l in Hzero by lra.
    exact Hzero. }
  assert (Hone : D / Dc = 1) by nra.
  destruct (Req_dec Dc 0) as [Hz|Hnz].
  - rewrite Hz in Hone. unfold Rdiv in Hone. rewrite Rinv_0 in Hone. lra.
  - assert (HDDc : D = Dc).
    { apply (Rmult_eq_compat_r Dc) in Hone.
      unfold Rdiv in Hone. rewrite Rmult_assoc, Rinv_l, Rmult_1_r, Rmult_1_l in Hone
        by exact Hnz.
      exact Hone. }
    unfold Dc in HDDc.
    assert (0 < IZR N * 2 ^ 32) by (apply Rmult_lt_0_compat; [exact HNpos | lra]).
    lra.
Qed.

(** ** The conditioning pipeline *)

Lemma max_element_spec (b : buffer) (N : Z) :
  (0 < N)%Z -> is_max b N (b (max_element b N)).
Proof.
  intros HN. unfold max_element.
  assert (H : (0 <= for_loop 1 N (fun i largest => if flt (b largest) (b i) then i else largest) 0%Z < N)%Z
              /\ forall i, (0 <= i < N)%Z ->
                   b i <= b (for_loop 1 N (fun i largest => if flt (b largest) (b i) then i else largest) 0%Z)).
  { apply (for_loop_ind
             (fun i k => (0 <= k < i)%Z /\ forall j, (0 <= j < i)%Z -> b j <= b k)).
    - lia.
    - split; [lia|]. intros j Hj. assert (j = 0%Z) by lia. subst j. lra.
    - intros i k Hi [Hk Hmax].
      destruct (flt (b k) (b i)) eqn:Hcmp.
      + apply flt_true in Hcmp. split; [lia|].
        intros j Hj. destruct (Z.eq_dec j i) as [->|Hne]; [lra|].
        specialize (Hmax j ltac:(lia)). lra.
      + apply flt_false in Hcmp. split; [lia|].
        intros j Hj. destruct (Z.eq_dec j i) as [->|Hne]; [lra|].
        apply Hmax. lia. }
  destruct H as [Hk Hmax]. split; [|exact Hmax].
  eexists. split; [exact Hk | reflexivity].
Qed.

Lemma min_element_spec (b : buffer) (N : Z) :
  (0 < N)%Z -> is_min b N (b (min_element b N)).
Proof.
  intros HN. unfold min_element.
  assert (H : (0 <= for_loop 1 N (fun i smallest => if flt (b i) (b smallest) then i else smallest) 0%Z < N)%Z
              /\ forall i, (0 <= i < N)%Z ->
                   b (for_loop 1 N (fun i smallest => if flt (b i) (b smallest) then i else smallest) 0%Z) <= b i).
  { apply (for_loop_ind
             (fun i k => (0 <= k < i)%Z /\ forall j, (0 <= j < i)%Z -> b k <= b j)).
    - lia.
    - split; [lia|]. intros j Hj. assert (j = 0%Z) by lia. subst j. lra.
    - intros i k Hi [Hk Hmin].
      destruct (flt (b i) (b k)) eqn:Hcmp.
      + apply flt_true in Hcmp. split; [lia|].
        intros j Hj. destruct (Z.eq_dec j i) as [->|Hne]; [lra|].
        specialize (Hmin j ltac:(lia)). lra.
      + apply flt_false in Hcmp. split; [lia|].
        intros j Hj. destruct (Z.eq_dec j i) as [->|Hne]; [lra|].
        apply Hmin. lia. }
  destruct H as [Hk Hmin]. split; [|exact Hmin].
  eexists. split; [exact Hk | reflexivity].
Qed.

Lemma is_max_ext (b b' : buffer) (N : Z) (M : R) :
  (forall i, (0 <= i < N)%Z -> b i = b' i) -> is_max b N M -> is_max b' N M.
Proof.
  intros Hext [(k & Hk & Hbk) Hle]. split.
  - exists k. split; [exact Hk|]. now rewrite <- Hext.
  - intros i Hi. rewrite <- Hext by exact Hi. now apply Hle.
Qed.

Lemma is_min_ext (b b' : buffer) (N : Z) (m : R) :
  (forall i, (0 <= i < N)%Z -> b i = b' i) -> is_min b N m -> is_min b' N m.
Proof.
  intros Hext [(k & Hk & Hbk) Hle]. split.
  - exists k. split; [exact Hk|]. now rewrite <- Hext.
  - intros i Hi. rewrite <- Hext by exact Hi. now apply Hle.
Qed.

(** The first [N] places of the detrended buffer depend on the first [N]
    samples only. *)
Lemma detrend_signal_ext (s s' : buffer) (N : Z) :
  (forall i, (0 <= i < N)%Z -> s i = s' i) ->
  forall i, (0 <= i < N)%Z -> detrend_signal s N i = detrend_signal s' N i.
Proof.
  intros Hext i Hi.
  rewrite (detrend_signal_eq s N) by lia.
  rewrite (detrend_signal_eq s' N) by lia.
  assert (Hs : Rsum s (Z.to_nat N) = Rsum s' (Z.to_nat N)).
  { apply Rsum_ext. intros j Hj. apply Hext. lia. }
  rewrite Hs.
  set (mean := Rsum s' (Z.to_nat N) / IZR N).
  assert (Hy : Rsum (fun i => s i - mean) (Z.to_nat N)
               = Rsum (fun i => s' i - mean) (Z.to_nat N)).
  { apply Rsum_ext. intros j Hj. rewrite Hext by lia. reflexivity. }
  assert (Hxy : Rsum (fun i => IZR i * (s i - mean)) (Z.to_nat N)
                = Rsum (fun i => IZR i * (s' i - mean)) (Z.to_nat N)).
  { apply Rsum_ext. intros j Hj. rewrite Hext by lia. reflexivity. }
  rewrite Hy, Hxy, (Hext i Hi). reflexivity.
Qed.

Lemma highpass_rec_ext (alpha : R) (x x' : buffer) (k : nat) :
  (forall j, (0 <= j <= Z.of_nat k)%Z -> x j = x' j) ->
  highpass_rec alpha x k = highpass_rec alpha x' k.
Proof.
  induction k as [|k IH]; intros H.
  - simpl. apply H. lia.
  - rewrite !highpass_rec_S. rewrite IH by (intros; apply H; lia).
    rewrite (H (Z.of_nat (S k))), (H (Z.of_nat k)) by lia. reflexivity.
Qed.

(** Sample [k] of the cascade depends on the input samples [0 .. k] only. *)
Lemma cascade_ext (sample_rate low high : R) (x x' : buffer) (k : nat) :
  (forall j, (0 <= j <= Z.of_nat k)%Z -> x j = x' j) ->
  cascade sample_rate low high x k = cascade sample_rate low high x' k.
Proof.
  intros H. unfold cascade. cbv zeta.
  apply lowpass_rec_ext. intros m Hm.
  apply highpass_rec_ext. intros j Hj. apply H. lia.
Qed.

(** What a call with valid buffers, [length > 0] and an accepted band
    returns: the detrended input through the [0.8, 3.0] Hz cascade,
    normalised by its extrema when they differ. *)
Lemma process_rppg_signals_run (inp out : buffer) (length : Z) (sample_rate : R) :
  (0 < length)%Z ->
  band_rejected sample_rate 0.8 3.0 = false ->
  let filtered :=
    fun i => cascade sample_rate 0.8 3.0 (detrend_signal inp length) (Z.to_nat i) in
  exists out' M m,
    process_rppg_signals (Some inp) (Some out) length sample_rate = (1%Z, Some out') /\
    is_max filtered length M /\
    is_min filtered length m /\
    (forall i, (0 <= i < length)%Z ->
       out' i = if flt m M then (filtered i - m) / (M - m) else filtered i) /\
    (forall i, ~ (0 <= i < length)%Z -> out' i = out i).
Proof.
  intros Hlen Hband filtered.
  unfold process_rppg_signals.
  destruct (Z.leb_spec length 0); [lia|]. cbv zeta.
  set (copied := for_loop 0 length (fun i out => bset out i (inp i)) out).
  assert (Hcopy : forall j, copied j = if (0 <=? j)%Z && (j <? length)%Z then inp j else out j).
  { intros j. unfold copied.
    apply (for_loop_bset (fun i _ => inp i) 0 length out). lia. }
  set (det := detrend_signal copied length).
  assert (Hdet : forall j, (0 <= j < length)%Z -> det j = detrend_signal inp length j).
  { intros j Hj. unfold det. apply detrend_signal_ext; [|exact Hj].
    intros i Hi. rewrite Hcopy.
    destruct (Z.leb_spec 0 i); [|lia]. destruct (Z.ltb_spec i length); [|lia].
    reflexivity. }
  assert (Hdet_out : forall j, ~ (0 <= j < length)%Z -> det j = out j).
  { intros j Hj. unfold det, detrend_signal.
    destruct (detrend_sums _ length) as [[[sx sy] sxy] sx2].
    rewrite (for_loop_bset (fun i v => v - (_ * IZR i + _)) 0 length) by lia.
    rewrite (for_loop_bset (fun _ v => v - _) 0 length) by lia.
    rewrite Hcopy.
    destruct (Z.leb_spec 0 j); destruct (Z.ltb_spec j length); simpl; try reflexivity; lia. }
  set (temp := for_loop 0 length (fun i temp => vset temp i (det i)) (vmake 0 length)).
  assert (Htemp : forall j, (0 <= j < length)%Z -> vdata temp j = det j).
  { intros j Hj. unfold vdata, temp.
    destruct (for_loop_vset 0 (fun i _ => det i) 0 length (vmake 0 length)) as [_ Hnth];
      [lia | rewrite vmake_size; lia |].
    cbv beta zeta in Hnth. rewrite Hnth by lia.
    destruct (Z.leb_spec 0 j); [|lia]. destruct (Z.ltb_spec j length); [|lia].
    reflexivity. }
  destruct (bandpass_filter_run (vdata temp) det length sample_rate 0.8 3.0 Hlen Hband)
    as (filt & Heq & Hfilt & Hfilt_out).
  rewrite Heq. simpl Z.eqb. cbv iota.
  assert (Hfiltered : forall i, (0 <= i < length)%Z -> filt i = filtered i).
  { intros i Hi. rewrite Hfilt by exact Hi. unfold filtered.
    apply cascade_ext. intros j Hj. rewrite Htemp by lia. apply Hdet. lia. }
  pose proof (max_element_spec filt length Hlen) as HM.
  pose proof (min_element_spec filt length Hlen) as Hm.
  set (M := filt (max_element filt length)) in *.
  set (m := filt (min_element filt length)) in *.
  assert (Hcmp : fgt (M - m) 0 = flt m M).
  { unfold fgt. destruct (flt m M) eqn:E.
    - apply flt_true in E. apply flt_true. lra.
    - apply flt_false in E. apply flt_false. lra. }
  rewrite Hcmp.
  destruct (flt m M) eqn:E.
  - eexists _, M, m. split; [reflexivity|].
    split; [apply (is_max_ext filt); assumption|].
    split; [apply (is_min_ext filt); assumption|].
    split.
    + intros i Hi.
      rewrite (for_loop_bset (fun _ v => (v - m) / (M - m)) 0 length filt) by lia.
      destruct (Z.leb_spec 0 i); [|lia]. destruct (Z.ltb_spec i length); [|lia].
      simpl andb. cbv iota. rewrite Hfiltered, E by lia. reflexivity.
    + intros i Hi.
      rewrite (for_loop_bset (fun _ v => (v - m) / (M - m)) 0 length filt) by lia.
      destruct (Z.leb_spec 0 i); destruct (Z.ltb_spec i length); simpl andb; cbv iota;
        try lia; rewrite Hfilt_out by lia; apply Hdet_out; lia.
  - exists filt, M, m. split; [reflexivity|].
    split; [apply (is_max_ext filt); assumption|].
    split; [apply (is_min_ext filt); assumption|].
    split; [intros i Hi; rewrite E; now apply Hfiltered|].
    intros i Hi. rewrite Hfilt_out by exact Hi. apply Hdet_out. exact Hi.
Qed.

Lemma bandpass_filter_rejected (input output : option buffer) (length : Z)
    (sample_rate low high : R) :
  band_rejected sample_rate low high = true ->
  bandpass_filter input output length sample_rate low high = (0%Z, output).
Proof.
  intros Hband. unfold bandpass_filter.
  destruct input, output; try reflexivity.
  destruct (length <=? 0)%Z; [reflexivity|]. now rewrite Hband.
Qed.

(** * Further properties of the code *)

(** ** Which bands [bandpass_filter] accepts *)

Lemma Rdiv_pos_iff (x d : R) : 0 < d -> (0 < x / d <-> 0 < x).
Proof.
  intros Hd. assert (Hi : 0 < / d) by now apply Rinv_0_lt_compat.
  unfold Rdiv. split; intros H; [|now apply Rmult_lt_0_compat].
  destruct (Rle_or_lt x 0) as [Hx|Hx]; [|exact Hx].
  exfalso. assert (x * / d <= 0) by nra. lra.
Qed.

Lemma Rdiv_lt_iff (x y d : R) : 0 < d -> (x / d < y / d <-> x < y).
Proof.
  intros Hd. assert (Hi : 0 < / d) by now apply Rinv_0_lt_compat.
  unfold Rdiv. split; intros H.
  - apply (Rmult_lt_reg_r (/ d)); assumption.
  - apply Rmult_lt_compat_r; assumption.
Qed.

Lemma Rdiv_lt_1_iff (x d : R) : 0 < d -> (x / d < 1 <-> x < d).
Proof.
  intros Hd. rewrite <- (Rdiv_lt_iff x d d Hd).
  replace (d / d) with 1 by (field; lra). tauto.
Qed.

(** For a positive sample rate the accepted bands are those with
    [0 < low < high < sample_rate / 2]. *)
Lemma band_valid_positive_rate (sample_rate low high : R) :
  0 < sample_rate ->
  (band_valid sample_rate low high <-> 0 < low /\ low < high /\ high < sample_rate / 2).
Proof.
  intros Hsr. unfold band_valid. cbv zeta.
  assert (Hny : 0 < sample_rate / 2) by lra.
  rewrite (Rdiv_pos_iff low _ Hny), (Rdiv_lt_1_iff high _ Hny),
    (Rdiv_lt_iff low high _ Hny).
  tauto.
Qed.

(** For a negative sample rate the accepted bands are the mirrored ones,
    [sample_rate / 2 < high < low < 0]. *)
Lemma band_valid_negative_rate (sample_rate low high : R) :
  sample_rate < 0 ->
  (band_valid sample_rate low high <-> sample_rate / 2 < high /\ high < low /\ low < 0).
Proof.
  intros Hsr. unfold band_valid. cbv zeta.
  assert (Hny : 0 < - (sample_rate / 2)) by lra.
  replace (low / (sample_rate / 2)) with ((- low) / (- (sample_rate / 2)))
    by (field; lra).
  replace (high / (sample_rate / 2)) with ((- high) / (- (sample_rate / 2)))
    by (field; lra).
  rewrite (Rdiv_pos_iff (- low) _ Hny), (Rdiv_lt_1_iff (- high) _ Hny),
    (Rdiv_lt_iff (- low) (- high) _ Hny).
  split; intros (H1 & H2 & H3); repeat split; lra.
Qed.

Lemma bandpass_filter_returns_1_iff (inp out : buffer) (length : Z)
    (sample_rate low high : R) :
  fst (bandpass_filter (Some inp) (Some out) length sample_rate low high) = 1%Z
  <-> (0 < length)%Z /\ band_valid sample_rate low high.
Proof.
  destruct (Z.leb_spec length 0) as [Hlen|Hlen].
  - unfold bandpass_filter. destruct (Z.leb_spec length 0); [|lia].
    simpl. split; [discriminate | lia].
  - destruct (band_rejected sample_rate low high) eqn:Hband.
    + rewrite bandpass_filter_rejected by exact Hband. simpl.
      split; [discriminate|]. intros [_ Hv].
      apply band_rejected_false in Hv. congruence.
    + destruct (bandpass_filter_run inp out length sample_rate low high Hlen Hband)
        as (out' & -> & _).
      simpl. split; [|reflexivity]. intros _. split; [exact Hlen|].
      now apply band_rejected_false.
Qed.

(** X1.  The validation is sound for a positive sample rate: whenever
    [bandpass_filter] returns 1 on non-null buffers, [length > 0] and the
    band satisfies [0 < low_cutoff < high_cutoff < sample_rate / 2]. *)
Theorem bandpass_filter_accepts (inp out : buffer) (length : Z)
    (sample_rate low high : R) :
  0 < sample_rate ->
  fst (bandpass_filter (Some inp) (Some out) length sample_rate low high) = 1%Z ->
  (0 < length)%Z /\ 0 < low /\ low < high /\ high < sample_rate / 2.
Proof.
  intros Hsr H1. apply bandpass_filter_returns_1_iff in H1.
  destruct H1 as [Hlen Hband].
  apply (band_valid_positive_rate _ _ _ Hsr) in Hband. tauto.
Qed.

(** Witness for X1: the heart-rate band at 30 Hz is accepted. *)
Lemma bandpass_filter_accepts_witness :
  fst (bandpass_filter (Some (fun _ => 0)) (Some (fun _ => 0)) 4 30 0.8 3.0) = 1%Z /\
  (0 < 4)%Z /\ 0 < 0.8 /\ 0.8 < 3.0 /\ 3.0 < 30 / 2.
Proof.
  assert (H1 : fst (bandpass_filter (Some (fun _ => 0)) (Some (fun _ => 0)) 4 30 0.8 3.0)
               = 1%Z).
  { apply bandpass_filter_returns_1_iff. split; [lia | apply band_valid_30]. }
  split; [exact H1|].
  apply (bandpass_filter_accepts (fun _ => 0) (fun _ => 0) 4 30 0.8 3.0); [lra | exact H1].
Defined.

(** X2.  The validation does not ask for a positive sample rate.  A call
    with a negative one can return 1, and when it does the band is a
    mirrored one: [sample_rate / 2 < high_cutoff < low_cutoff < 0]. *)
Theorem bandpass_filter_accepts_negative_rate (inp out : buffer) (length : Z)
    (sample_rate low high : R) :
  sample_rate < 0 ->
  fst (bandpass_filter (Some inp) (Some out) length sample_rate low high) = 1%Z ->
  (0 < length)%Z /\ sample_rate / 2 < high /\ high < low /\ low < 0.
Proof.
  intros Hsr H1. apply bandpass_filter_returns_1_iff in H1.
  destruct H1 as [Hlen Hband].
  apply (band_valid_negative_rate _ _ _ Hsr) in Hband. tauto.
Qed.

(** Witness for X2: the mirrored heart-rate band at -30 Hz is accepted. *)
Lemma bandpass_filter_accepts_negative_rate_witness :
  fst (bandpass_filter (Some (fun _ => 0)) (Some (fun _ => 0)) 4 (-30) (-0.8) (-3.0))
  = 1%Z /\
  (0 < 4)%Z /\ -30 / 2 < -3.0 /\ -3.0 < -0.8 /\ -0.8 < 0.
Proof.
  assert (H1 : fst (bandpass_filter (Some (fun _ => 0)) (Some (fun _ => 0)) 4 (-30)
                      (-0.8) (-3.0)) = 1%Z).
  { apply bandpass_filter_returns_1_iff. split; [lia|].
    apply band_valid_negative_rate; lra. }
  split; [exact H1|].
  apply (bandpass_filter_accepts_negative_rate (fun _ => 0) (fun _ => 0) 4 (-30)
           (-0.8) (-3.0)); [lra | exact H1].
Defined.

Lemma PI_pos : 0 < PI.
Proof. unfold PI. apply PI_RGT_0. Qed.

Lemma cascade_alpha (sample_rate low high : R) (x : buffer) (i : nat) :
  cascade sample_rate low high x i
  = lowpass_rec (alpha_low sample_rate low) (highpass_rec (alpha_high sample_rate high) x) i.
Proof. reflexivity. Qed.

Lemma alpha_bounds (sample_rate low high : R) :
  0 < sample_rate -> 0 < low -> 0 < high ->
  0 < alpha_low sample_rate low < 1 /\ 0 < alpha_high sample_rate high < 1.
Proof.
  intros Hsr Hlo Hhi. pose proof PI_pos as Hpi.
  unfold alpha_low, alpha_high. cbv zeta.
  assert (Hdt : 0 < 1 / sample_rate) by (apply Rdiv_lt_0_compat; lra).
  assert (Hrl : 0 < 1 / (2 * PI * low)).
  { apply Rdiv_lt_0_compat; [lra|]. apply Rmult_lt_0_compat; lra. }
  assert (Hrh : 0 < 1 / (2 * PI * high)).
  { apply Rdiv_lt_0_compat; [lra|]. apply Rmult_lt_0_compat; lra. }
  set (dt := 1 / sample_rate) in *.
  set (rl := 1 / (2 * PI * low)) in *.
  set (rh := 1 / (2 * PI * high)) in *.
  split; split.
  - apply Rdiv_lt_0_compat; lra.
  - apply Rdiv_lt_1_iff; lra.
  - apply Rdiv_lt_0_compat; lra.
  - apply Rdiv_lt_1_iff; lra.
Qed.

(** X3.  For a positive sample rate and positive cutoffs both filter
    coefficients lie strictly between 0 and 1. *)
Theorem bandpass_coefficients_in_unit_interval (sample_rate low high : R) :
  0 < sample_rate -> 0 < low -> 0 < high ->
  0 < alpha_low sample_rate low < 1 /\ 0 < alpha_high sample_rate high < 1.
Proof. apply alpha_bounds. Qed.

(** Witness for X3: the heart-rate band at 30 Hz. *)
Lemma bandpass_coefficients_in_unit_interval_witness :
  0 < alpha_low 30 0.8 < 1 /\ 0 < alpha_high 30 3.0 < 1.
Proof.
  apply (bandpass_coefficients_in_unit_interval 30 0.8 3.0); lra.
Defined.

(** ** The filter as a linear, causal, stable system *)

Lemma highpass_rec_linear (alpha a b : R) (x y : buffer) (k : nat) :
  highpass_rec alpha (fun i => a * x i + b * y i) k
  = a * highpass_rec alpha x k + b * highpass_rec alpha y k.
Proof.
  induction k as [|k IH]; [reflexivity|].
  rewrite !highpass_rec_S, IH. ring.
Qed.

Lemma lowpass_rec_linear (alpha a b : R) (t u : nat -> R) (k : nat) :
  lowpass_rec alpha (fun n => a * t n + b * u n) k
  = a * lowpass_rec alpha t k + b * lowpass_rec alpha u k.
Proof.
  induction k as [|k IH]; [reflexivity|].
  rewrite !lowpass_rec_S, IH. ring.
Qed.

Lemma cascade_linear (sample_rate low high a b : R) (x y : buffer) (k : nat) :
  cascade sample_rate low high (fun i => a * x i + b * y i) k
  = a * cascade sample_rate low high x k + b * cascade sample_rate low high y k.
Proof.
  rewrite !cascade_alpha. rewrite <- lowpass_rec_linear.
  apply lowpass_rec_ext. intros m _. apply highpass_rec_linear.
Qed.

(** X4.  Superposition: filtering [a * x + b * y] gives [a] times the
    filtered [x] plus [b] times the filtered [y], sample by sample. *)
Theorem bandpass_filter_superposition (x y z outx outy outz : buffer) (length : Z)
    (sample_rate low high a b : R) :
  (0 < length)%Z ->
  band_valid sample_rate low high ->
  (forall i, (0 <= i < length)%Z -> z i = a * x i + b * y i) ->
  exists fx fy fz,
    bandpass_filter (Some x) (Some outx) length sample_rate low high = (1%Z, Some fx) /\
    bandpass_filter (Some y) (Some outy) length sample_rate low high = (1%Z, Some fy) /\
    bandpass_filter (Some z) (Some outz) length sample_rate low high = (1%Z, Some fz) /\
    forall i, (0 <= i < length)%Z -> fz i = a * fx i + b * fy i.
Proof.
  intros Hlen Hband Hz. apply band_rejected_false in Hband.
  destruct (bandpass_filter_run x outx length sample_rate low high Hlen Hband)
    as (fx & Hx & Hfx & _).
  destruct (bandpass_filter_run y outy length sample_rate low high Hlen Hband)
    as (fy & Hy & Hfy & _).
  destruct (bandpass_filter_run z outz length sample_rate low high Hlen Hband)
    as (fz & Hz' & Hfz & _).
  exists fx, fy, fz. repeat split; try assumption.
  intros i Hi. rewrite Hfx, Hfy, Hfz by exact Hi.
  rewrite <- cascade_linear. apply cascade_ext.
  intros j Hj. apply Hz. lia.
Qed.

(** Witness for X4: twice a constant signal. *)
Lemma bandpass_filter_superposition_witness :
  exists fx fy fz,
    bandpass_filter (Some (fun _ => 1)) (Some (fun _ => 0)) 2 30 0.8 3.0 = (1%Z, Some fx) /\
    bandpass_filter (Some (fun _ => 1)) (Some (fun _ => 0)) 2 30 0.8 3.0 = (1%Z, Some fy) /\
    bandpass_filter (Some (fun _ => 2)) (Some (fun _ => 0)) 2 30 0.8 3.0 = (1%Z, Some fz) /\
    forall i, (0 <= i < 2)%Z -> fz i = 1 * fx i + 1 * fy i.
Proof.
  apply (bandpass_filter_superposition (fun _ => 1) (fun _ => 1) (fun _ => 2)).
  - lia.
  - apply band_valid_30.
  - intros i _. lra.
Defined.

Lemma highpass_rec_zero (alpha : R) (x : buffer) (k : nat) :
  (forall j, (0 <= j <= Z.of_nat k)%Z -> x j = 0) -> highpass_rec alpha x k = 0.
Proof.
  induction k as [|k IH]; intros H.
  - simpl. apply H. lia.
  - rewrite highpass_rec_S, IH by (intros; apply H; lia).
    rewrite (H (Z.of_nat (S k))), (H (Z.of_nat k)) by lia. ring.
Qed.

Lemma lowpass_rec_zero (alpha : R) (t : nat -> R) (k : nat) :
  (forall j, (j <= k)%nat -> t j = 0) -> lowpass_rec alpha t k = 0.
Proof.
  induction k as [|k IH]; intros H.
  - simpl. apply H. lia.
  - rewrite lowpass_rec_S, IH by (intros; apply H; lia).
    rewrite (H (S k)) by lia. ring.
Qed.

(** X5.  An all-zero input of valid length is filtered to an all-zero
    output, and the call returns 1. *)
Theorem bandpass_filter_zero_input (x out : buffer) (length : Z)
    (sample_rate low high : R) :
  (0 < length)%Z ->
  band_valid sample_rate low high ->
  (forall i, (0 <= i < length)%Z -> x i = 0) ->
  exists out',
    bandpass_filter (Some x) (Some out) length sample_rate low high = (1%Z, Some out') /\
    forall i, (0 <= i < length)%Z -> out' i = 0.
Proof.
  intros Hlen Hband Hx. apply band_rejected_false in Hband.
  destruct (bandpass_filter_run x out length sample_rate low high Hlen Hband)
    as (out' & Heq & Hout & _).
  exists out'. split; [exact Heq|].
  intros i Hi. rewrite Hout by exact Hi. rewrite cascade_alpha.
  apply lowpass_rec_zero. intros j Hj.
  apply highpass_rec_zero. intros m Hm. apply Hx. lia.
Qed.

(** Witness for X5: three zeros at 30 Hz over a buffer of ones. *)
Lemma bandpass_filter_zero_input_witness :
  exists out',
    bandpass_filter (Some (fun _ => 0)) (Some (fun _ => 1)) 3 30 0.8 3.0
    = (1%Z, Some out') /\
    forall i, (0 <= i < 3)%Z -> out' i = 0.
Proof.
  apply (bandpass_filter_zero_input (fun _ => 0) (fun _ => 1) 3 30 0.8 3.0).
  - lia.
  - apply band_valid_30.
  - reflexivity.
Defined.

(** X6.  The filter is causal and does not read its output buffer: output
    sample [k] is the same for two inputs that agree on the samples
    [0 .. k], whatever the two output buffers held before the calls. *)
Theorem bandpass_filter_causal (x y outx outy : buffer) (length k : Z)
    (sample_rate low high : R) :
  (0 <= k < length)%Z ->
  band_valid sample_rate low high ->
  (forall j, (0 <= j <= k)%Z -> x j = y j) ->
  exists fx fy,
    bandpass_filter (Some x) (Some outx) length sample_rate low high = (1%Z, Some fx) /\
    bandpass_filter (Some y) (Some outy) length sample_rate low high = (1%Z, Some fy) /\
    fx k = fy k.
Proof.
  intros Hk Hband Hxy. apply band_rejected_false in Hband.
  destruct (bandpass_filter_run x outx length sample_rate low high ltac:(lia) Hband)
    as (fx & Hx & Hfx & _).
  destruct (bandpass_filter_run y outy length sample_rate low high ltac:(lia) Hband)
    as (fy & Hy & Hfy & _).
  exists fx, fy. repeat split; try assumption.
  rewrite Hfx, Hfy by exact Hk. apply cascade_ext.
  intros j Hj. apply Hxy. lia.
Qed.

(** Witness for X6: two inputs that differ from sample 2 on. *)
Lemma bandpass_filter_causal_witness :
  exists fx fy,
    bandpass_filter (Some (fun i => if (i <? 2)%Z then 1 else 5)) (Some (fun _ => 0))
      4 30 0.8 3.0 = (1%Z, Some fx) /\
    bandpass_filter (Some (fun _ => 1)) (Some (fun _ => 7)) 4 30 0.8 3.0
    = (1%Z, Some fy) /\
    fx 1%Z = fy 1%Z.
Proof.
  apply (bandpass_filter_causal (fun i => if (i <? 2)%Z then 1 else 5) (fun _ => 1)
           (fun _ => 0) (fun _ => 7) 4 1 30 0.8 3.0).
  - lia.
  - apply band_valid_30.
  - intros j Hj. destruct (Z.ltb_spec j 2); [reflexivity | lia].
Defined.

Lemma highpass_rec_bounded (alpha B : R) (x : buffer) (k : nat) :
  0 < alpha < 1 ->
  (forall j, (0 <= j <= Z.of_nat k)%Z -> - B <= x j <= B) ->
  - (B * (1 + alpha) / (1 - alpha)) <= highpass_rec alpha x k
  <= B * (1 + alpha) / (1 - alpha).
Proof.
  intros Ha. set (T := B * (1 + alpha) / (1 - alpha)).
  assert (HT : T * (1 - alpha) = B * (1 + alpha)) by (unfold T; field; lra).
  induction k as [|k IH]; intros Hx.
  - simpl. specialize (Hx 0%Z ltac:(lia)).
    assert (0 <= B) by lra. assert (B <= T) by nra. lra.
  - rewrite highpass_rec_S.
    pose proof (Hx (Z.of_nat (S k)) ltac:(lia)) as H1.
    pose proof (Hx (Z.of_nat k) ltac:(lia)) as H0.
    specialize (IH ltac:(intros; apply Hx; lia)).
    set (h := highpass_rec alpha x k) in *.
    set (u := x (Z.of_nat (S k))) in *. set (v := x (Z.of_nat k)) in *.
    assert (0 <= B) by lra.
    assert (Hs : - (T + 2 * B) <= h + u - v <= T + 2 * B) by lra.
    assert (Hslack : alpha * (T + 2 * B) <= T) by nra.
    split; nra.
Qed.

Lemma lowpass_rec_bounded (alpha T : R) (t : nat -> R) (k : nat) :
  0 < alpha < 1 ->
  (forall j, (j <= k)%nat -> - T <= t j <= T) ->
  - T <= lowpass_rec alpha t k <= T.
Proof.
  intros Ha. induction k as [|k IH]; intros Ht.
  - simpl. apply Ht. lia.
  - rewrite lowpass_rec_S.
    specialize (IH ltac:(intros; apply Ht; lia)).
    pose proof (Ht (S k) ltac:(lia)) as H1.
    set (l := lowpass_rec alpha t k) in *. set (u := t (S k)) in *.
    replace (l + alpha * (u - l)) with ((1 - alpha) * l + alpha * u) by ring.
    split; nra.
Qed.

(** X7.  Bounded input, bounded output: for a positive sample rate and an
    accepted band, if every input sample lies in [[-B, B]] then every output
    sample lies within [B * (1 + alpha_high) / (1 - alpha_high)] of zero. *)
Theorem bandpass_filter_bounded (x out : buffer) (length : Z)
    (sample_rate low high B : R) :
  (0 < length)%Z ->
  0 < sample_rate ->
  band_valid sample_rate low high ->
  (forall i, (0 <= i < length)%Z -> - B <= x i <= B) ->
  exists out',
    bandpass_filter (Some x) (Some out) length sample_rate low high = (1%Z, Some out') /\
    forall i, (0 <= i < length)%Z ->
      - (B * (1 + alpha_high sample_rate high) / (1 - alpha_high sample_rate high))
      <= out' i
      <= B * (1 + alpha_high sample_rate high) / (1 - alpha_high sample_rate high).
Proof.
  intros Hlen Hsr Hband Hx.
  pose proof (proj1 (band_valid_positive_rate _ _ _ Hsr) Hband) as (Hlo & Hlh & _).
  destruct (alpha_bounds sample_rate low high Hsr Hlo ltac:(lra)) as [Hal Hah].
  apply band_rejected_false in Hband.
  destruct (bandpass_filter_run x out length sample_rate low high Hlen Hband)
    as (out' & Heq & Hout & _).
  exists out'. split; [exact Heq|].
  intros i Hi. rewrite Hout by exact Hi. rewrite cascade_alpha.
  apply lowpass_rec_bounded; [exact Hal|].
  intros j Hj. apply highpass_rec_bounded; [exact Hah|].
  intros m Hm. apply Hx. lia.
Qed.

(** Witness for X7: a constant input within [[-1, 1]]. *)
Lemma bandpass_filter_bounded_witness :
  exists out',
    bandpass_filter (Some (fun _ => 1)) (Some (fun _ => 0)) 3 30 0.8 3.0
    = (1%Z, Some out') /\
    forall i, (0 <= i < 3)%Z ->
      - (1 * (1 + alpha_high 30 3.0) / (1 - alpha_high 30 3.0))
      <= out' i
      <= 1 * (1 + alpha_high 30 3.0) / (1 - alpha_high 30 3.0).
Proof.
  apply (bandpass_filter_bounded (fun _ => 1) (fun _ => 0) 3 30 0.8 3.0 1).
  - lia.
  - lra.
  - apply band_valid_30.
  - intros i _. lra.
Defined.

(** ** The detrender: what it touches and what it removes *)

Lemma detrend_signal_outside (s : buffer) (N i : Z) :
  ~ (0 <= i < N)%Z -> detrend_signal s N i = s i.
Proof.
  intros Hi. unfold detrend_signal.
  destruct (detrend_sums _ N) as [[[sx sy] sxy] sx2].
  destruct (Z_le_gt_dec 0 N) as [HN|HN].
  - rewrite (for_loop_bset (fun i v => v - (_ * IZR i + _)) 0 N) by lia.
    rewrite (for_loop_bset (fun _ v => v - _) 0 N) by lia.
    destruct (Z.leb_spec 0 i); destruct (Z.ltb_spec i N); simpl; try reflexivity; lia.
  - rewrite !for_loop_empty by lia. reflexivity.
Qed.

(** X8.  [detrend_signal] writes the first [length] samples only, and what
    it leaves there depends on those samples only; with [length <= 0] the
    buffer is returned as it was. *)
Theorem detrend_signal_local (s s' : buffer) (N : Z) :
  (forall i, ~ (0 <= i < N)%Z -> detrend_signal s N i = s i) /\
  ((forall i, (0 <= i < N)%Z -> s i = s' i) ->
   forall i, (0 <= i < N)%Z -> detrend_signal s N i = detrend_signal s' N i).
Proof.
  split.
  - intros i Hi. now apply detrend_signal_outside.
  - apply detrend_signal_ext.
Qed.

(** Witness for X8: two buffers that differ behind the third sample. *)
Lemma detrend_signal_local_witness :
  detrend_signal (vdata [1; 2; 4]) 3 1%Z = detrend_signal (vdata [1; 2; 4; 9]) 3 1%Z.
Proof.
  apply (proj2 (detrend_signal_local (vdata [1; 2; 4]) (vdata [1; 2; 4; 9]) 3)).
  - intros i Hi. unfold vdata, vnth.
    assert (i = 0 \/ i = 1 \/ i = 2)%Z as [-> | [-> | ->]] by lia; reflexivity.
  - lia.
Defined.

(** The result of [detrend_signal] in closed form, while no square
    overflows: the sample minus the least-squares line through the
    samples. *)
Lemma detrend_signal_line (s : buffer) (N : Z) :
  (2 <= N <= 46341)%Z ->
  let n := Z.to_nat N in
  let D := regression_denominator n in
  let sx := Rsum IZR n in
  let sy := Rsum s n in
  let sxy := Rsum (fun i => IZR i * s i) n in
  let slope := (IZR N * sxy - sx * sy) / D in
  let intercept := (sy - slope * sx) / IZR N in
  forall i, (0 <= i < N)%Z ->
    detrend_signal s N i = s i - (slope * IZR i + intercept).
Proof.
  intros HN n D sx sy sxy slope intercept i Hi.
  assert (HnN : INR n = IZR N) by (unfold n; rewrite INR_IZR_INZ, Z2Nat.id; [reflexivity | lia]).
  assert (HN0 : IZR N <> 0) by (apply not_0_IZR; lia).
  assert (HD : 0 < D) by (apply regression_denominator_pos; unfold n; lia).
  assert (Hx2 : Rsum (fun i => IZR (int_mul i i)) n = Rsum (fun i => IZR i * IZR i) n).
  { apply Rsum_ext. intros j Hj. rewrite int_mul_square by (unfold n in Hj; lia).
    apply mult_IZR. }
  rewrite (detrend_signal_eq s N) by lia. cbv zeta. fold n.
  set (mean := Rsum s n / IZR N).
  assert (Hcy : Rsum (fun i => s i - mean) n = sy - IZR N * mean).
  { rewrite (Rsum_ext _ (fun i => s i - (0 * IZR i + mean))) by (intros; ring).
    rewrite Rsum_residual, HnN. fold sy. ring. }
  assert (Hcxy : Rsum (fun i => IZR i * (s i - mean)) n = sxy - mean * sx).
  { rewrite (Rsum_ext _ (fun i => IZR i * (s i - (0 * IZR i + mean))))
      by (intros; ring).
    rewrite Rsum_residual_x. fold sxy sx. ring. }
  rewrite Hcy, Hcxy, Hx2. fold sx.
  replace (IZR N * Rsum (fun i => IZR i * IZR i) n - sx * sx) with D
    by (unfold D, regression_denominator; fold sx; now rewrite HnN).
  unfold intercept, slope, mean. fold sy. field. split; lra.
Qed.

(** X9.  For [2 <= length <= 46341], [detrend_signal] replaces every sample
    by its residual against the ordinary least-squares line through the
    samples: [signal[i] - (slope * i + intercept)] with
    [slope = (N * Sum(x*y) - Sum(x) * Sum(y)) / (N * Sum(x^2) - (Sum(x))^2)] and
    [intercept = (Sum(y) - slope * Sum(x)) / N]. *)
Theorem detrend_signal_residuals (s : buffer) (N : Z) :
  (2 <= N <= 46341)%Z ->
  let n := Z.to_nat N in
  let slope :=
    (IZR N * Rsum (fun i => IZR i * s i) n - Rsum IZR n * Rsum s n)
    / (IZR N * Rsum (fun i => IZR i * IZR i) n - Rsum IZR n * Rsum IZR n) in
  let intercept := (Rsum s n - slope * Rsum IZR n) / IZR N in
  forall i, (0 <= i < N)%Z ->
    detrend_signal s N i = s i - (slope * IZR i + intercept).
Proof.
  intros HN n slope intercept i Hi.
  rewrite (detrend_signal_line s N HN i Hi). cbv zeta. fold n.
  unfold intercept, slope, regression_denominator.
  replace (INR n) with (IZR N)
    by (unfold n; rewrite INR_IZR_INZ, Z2Nat.id; [reflexivity | lia]).
  reflexivity.
Qed.

(** Witness for X9: three samples. *)
Lemma detrend_signal_residuals_witness :
  detrend_signal (vdata [1; 2; 4]) 3 1%Z
  = vdata [1; 2; 4] 1%Z
    - ((IZR 3 * Rsum (fun i => IZR i * vdata [1; 2; 4] i) 3
        - Rsum IZR 3 * Rsum (vdata [1; 2; 4]) 3)
       / (IZR 3 * Rsum (fun i => IZR i * IZR i) 3 - Rsum IZR 3 * Rsum IZR 3)
       * IZR 1
       + (Rsum (vdata [1; 2; 4]) 3
          - (IZR 3 * Rsum (fun i => IZR i * vdata [1; 2; 4] i) 3
             - Rsum IZR 3 * Rsum (vdata [1; 2; 4]) 3)
            / (IZR 3 * Rsum (fun i => IZR i * IZR i) 3 - Rsum IZR 3 * Rsum IZR 3)
            * Rsum IZR 3)
         / IZR 3).
Proof.
  apply (detrend_signal_residuals (vdata [1; 2; 4]) 3); lia.
Defined.

(** Adding a constant and a linear ramp to the samples does not change
    what [detrend_signal] leaves. *)
Lemma detrend_signal_shift (s : buffer) (N : Z) (a b : R) :
  (2 <= N <= 46341)%Z ->
  forall i, (0 <= i < N)%Z ->
    detrend_signal (fun j => s j + (a + b * IZR j)) N i = detrend_signal s N i.
Proof.
  intros HN i Hi.
  rewrite (detrend_signal_line _ N HN i Hi), (detrend_signal_line s N HN i Hi).
  cbv zeta.
  set (n := Z.to_nat N).
  assert (HnN : INR n = IZR N) by (unfold n; rewrite INR_IZR_INZ, Z2Nat.id; [reflexivity | lia]).
  assert (HN0 : IZR N <> 0) by (apply not_0_IZR; lia).
  assert (HD : 0 < regression_denominator n)
    by (apply regression_denominator_pos; unfold n; lia).
  assert (Hsy : Rsum (fun j => s j + (a + b * IZR j)) n
                = Rsum s n + b * Rsum IZR n + IZR N * a).
  { rewrite (Rsum_ext _ (fun j => s j - (- b * IZR j + - a))) by (intros; ring).
    rewrite Rsum_residual, HnN. ring. }
  assert (Hsxy : Rsum (fun j => IZR j * (s j + (a + b * IZR j))) n
                 = Rsum (fun j => IZR j * s j) n
                   + b * Rsum (fun j => IZR j * IZR j) n + a * Rsum IZR n).
  { rewrite (Rsum_ext _ (fun j => IZR j * (s j - (- b * IZR j + - a))))
      by (intros; ring).
    rewrite Rsum_residual_x. ring. }
  rewrite Hsy, Hsxy.
  unfold regression_denominator in *. rewrite HnN in *.
  set (sx := Rsum IZR n) in *. set (sy := Rsum s n).
  set (sxy := Rsum (fun j => IZR j * s j) n).
  set (sx2 := Rsum (fun j => IZR j * IZR j) n) in *.
  field. split; lra.
Qed.

(** X10.  For [2 <= length <= 46341], [detrend_signal] is blind to offset
    and linear trend: the samples [signal[i] + a + b * i] are detrended to
    the same values as the samples [signal[i]]. *)
Theorem detrend_signal_trend_invariant (s : buffer) (N : Z) (a b : R) :
  (2 <= N <= 46341)%Z ->
  forall i, (0 <= i < N)%Z ->
    detrend_signal (fun j => s j + (a + b * IZR j)) N i = detrend_signal s N i.
Proof. apply detrend_signal_shift. Qed.

(** Witness for X10: [1; 2; 4] lifted by [10 + 3 * i]. *)
Lemma detrend_signal_trend_invariant_witness :
  detrend_signal (fun j => vdata [1; 2; 4] j + (10 + 3 * IZR j)) 3 1%Z
  = detrend_signal (vdata [1; 2; 4]) 3 1%Z.
Proof.
  apply (detrend_signal_trend_invariant (vdata [1; 2; 4]) 3 10 3); lia.
Defined.

Lemma detrend_signal_zero (N : Z) :
  (2 <= N <= 46341)%Z ->
  forall i, (0 <= i < N)%Z -> detrend_signal (fun _ => 0) N i = 0.
Proof.
  intros HN i Hi. rewrite (detrend_signal_line _ N HN i Hi). cbv zeta.
  rewrite (Rsum_ext (fun j => IZR j * 0) (fun _ => 0)) by (intros; ring).
  rewrite Rsum_const. unfold Rdiv. ring.
Qed.

(** X11.  For [2 <= length <= 46341], a signal that is a straight line,
    [signal[i] = a + b * i], is detrended to zero everywhere. *)
Theorem detrend_signal_line_to_zero (N : Z) (a b : R) :
  (2 <= N <= 46341)%Z ->
  forall i, (0 <= i < N)%Z -> detrend_signal (fun j => a + b * IZR j) N i = 0.
Proof.
  intros HN i Hi.
  rewrite (detrend_signal_ext (fun j => a + b * IZR j)
             (fun j => (fun _ => 0) j + (a + b * IZR j)) N)
    by (try exact Hi; intros; ring).
  rewrite detrend_signal_shift by assumption.
  now apply detrend_signal_zero.
Qed.

(** Witness for X11: the line [5 + 2 * i] on four samples. *)
Lemma detrend_signal_line_to_zero_witness :
  detrend_signal (fun j => 5 + 2 * IZR j) 4 3%Z = 0.
Proof.
  apply (detrend_signal_line_to_zero 4 5 2); lia.
Defined.

(** X12.  For [2 <= length <= 46341], detrending twice is detrending
    once. *)
Theorem detrend_signal_idempotent (s : buffer) (N : Z) :
  (2 <= N <= 46341)%Z ->
  forall i, (0 <= i < N)%Z ->
    detrend_signal (detrend_signal s N) N i = detrend_signal s N i.
Proof.
  intros HN i Hi.
  pose proof (detrend_signal_line s N HN) as Hline. cbv zeta in Hline.
  set (slope := _ / regression_denominator _) in Hline.
  set (intercept := _ / IZR N) in Hline.
  rewrite (detrend_signal_ext (detrend_signal s N)
             (fun j => s j + (- intercept + - slope * IZR j)) N).
  - now apply detrend_signal_shift.
  - intros j Hj. rewrite Hline by exact Hj. ring.
  - exact Hi.
Qed.

(** Witness for X12: three samples. *)
Lemma detrend_signal_idempotent_witness :
  detrend_signal (detrend_signal (vdata [1; 2; 4]) 3) 3 1%Z
  = detrend_signal (vdata [1; 2; 4]) 3 1%Z.
Proof.
  apply (detrend_signal_idempotent (vdata [1; 2; 4]) 3); lia.
Defined.

(** Witness for [detrend_signal_least_squares]: three samples. *)
Lemma detrend_signal_least_squares_witness :
  detrend_denominator (vdata [1; 2; 4]) 3 <> 0 /\
  mean_of (detrend_signal (vdata [1; 2; 4]) 3) 3 = 0 /\
  regression_slope (detrend_signal (vdata [1; 2; 4]) 3) 3 = 0.
Proof.
  destruct (detrend_signal_least_squares (vdata [1; 2; 4]) 3 ltac:(lia))
    as (_ & Hden & Hmean & Hslope).
  split; [exact Hden|]. split; [exact Hmean | exact Hslope].
Defined.

(** ** The FFT on any size *)

Lemma fft_combine_length (even odd data : list complex) :
  length (fft_combine even odd data) = length data.
Proof.
  unfold fft_combine.
  apply (for_loop_ind (fun _ s => length s = length data)).
  - unfold vsize. apply Z.quot_pos; lia.
  - reflexivity.
  - intros i s _ Hs. now rewrite !vset_length.
Qed.

(** X14.  [fft] never resizes its vector, whatever the size. *)
Theorem fft_length (data : list complex) : length (fft data) = length data.
Proof.
  rewrite fft_unfold. destruct (vsize data <=? 1)%Z; [reflexivity|].
  apply fft_combine_length.
Qed.

Lemma fft_combine_last (even odd data : list complex) (M : Z) :
  (0 <= M)%Z -> vsize data = (2 * M + 1)%Z ->
  vnth C0 (fft_combine even odd data) (2 * M) = vnth C0 data (2 * M).
Proof.
  intros HM HN. unfold fft_combine.
  assert (Hq : Z.quot (vsize data) 2 = M).
  { rewrite Z.quot_div_nonneg by lia. rewrite HN. lia. }
  rewrite Hq.
  apply (for_loop_ind
           (fun i s => vnth C0 s (2 * M) = vnth C0 data (2 * M))).
  - exact HM.
  - reflexivity.
  - intros i s Hi Hs. rewrite !vnth_vset_other by lia. exact Hs.
Qed.

(** X15.  On a vector of odd size [N >= 3] the combine loop writes the
    places [0 .. N-2] only: the last element comes back unchanged. *)
Theorem fft_odd_size_last (data : list complex) (M : Z) :
  (1 <= M)%Z -> vsize data = (2 * M + 1)%Z ->
  vnth C0 (fft data) (2 * M) = vnth C0 data (2 * M).
Proof.
  intros HM HN. rewrite fft_unfold.
  destruct (Z.leb_spec (vsize data) 1); [lia|].
  apply fft_combine_last; [lia | exact HN].
Qed.

(** Witness for X15: three samples. *)
Lemma fft_odd_size_last_witness :
  vnth C0 (fft [(1, 0); (2, 0); (3, 0)]) 2 = (3, 0).
Proof.
  apply (fft_odd_size_last [(1, 0); (2, 0); (3, 0)] 1).
  - lia.
  - reflexivity.
Defined.

Lemma dft_bin_0 (x : list complex) :
  dft x 0 = Csum (fun n => nth n x C0) (length x).
Proof.
  unfold dft. cbv zeta. apply Csum_ext. intros n _.
  replace (-2 * PI * INR n * INR 0 / INR (length x)) with 0
    by (simpl INR; unfold Rdiv; ring).
  rewrite polar_0. apply Cmul_1_r.
Qed.

(** X16.  On a size that is a power of two, bin 0 of [fft] is the sum of
    the samples. *)
Theorem fft_bin_0 (data : list complex) (p : nat) :
  length data = (2 ^ p)%nat ->
  nth 0 (fft data) C0 = Csum (fun n => nth n data C0) (length data).
Proof.
  intros Hlen. destruct (fft_dft_pow2 p data Hlen) as [_ Hdft].
  rewrite Hdft.
  - apply dft_bin_0.
  - rewrite Hlen. apply Nat.neq_0_lt_0, Nat.pow_nonzero. lia.
Qed.

(** Witness for X16: two samples. *)
Lemma fft_bin_0_witness :
  nth 0 (fft [(1, 0); (2, 0)]) C0 = Csum (fun n => nth n [(1, 0); (2, 0)] C0) 2.
Proof.
  apply (fft_bin_0 [(1, 0); (2, 0)] 1). reflexivity.
Defined.

Lemma Cconj_add (a b : complex) : Cconj (Cadd a b) = Cadd (Cconj a) (Cconj b).
Proof. destruct a, b. unfold Cconj, Cadd. simpl. f_equal. ring. Qed.

Lemma Cnorm_conj (z : complex) : Cnorm (Cconj z) = Cnorm z.
Proof. destruct z. unfold Cnorm, Cconj. simpl. ring. Qed.

Lemma Csum_conj (f : nat -> complex) (N : nat) :
  Csum (fun n => Cconj (f n)) N = Cconj (Csum f N).
Proof.
  induction N as [|N IH]; simpl.
  - unfold Cconj, C0. simpl. f_equal. ring.
  - now rewrite IH, Cconj_add.
Qed.

(** The DFT of a real vector is conjugate-symmetric. *)
Lemma dft_real_mirror (x : list complex) (k : nat) :
  (forall n, snd (nth n x C0) = 0) ->
  (0 < k < length x)%nat ->
  dft x (length x - k) = Cconj (dft x k).
Proof.
  intros Hreal Hk. unfold dft. cbv zeta.
  rewrite <- Csum_conj. apply Csum_ext. intros n Hn.
  assert (HN : INR (length x) <> 0) by (apply not_0_INR; lia).
  rewrite (polar_shift _ (- (-2 * PI * INR n * INR k / INR (length x))) n).
  - specialize (Hreal n). destruct (nth n x C0) as [re im]. simpl in Hreal. subst im.
    unfold Cmul, Cconj, polar. simpl. rewrite cos_neg, sin_neg. f_equal; ring.
  - rewrite minus_INR by lia. field. exact HN.
Qed.

(** X17.  On a real vector whose size [N] is a power of two, the bins [k]
    and [N - k] of [fft] are complex conjugates and so have the same power:
    the upper half of the spectrum, which [calculate_psd] drops, mirrors the
    lower half. *)
Theorem fft_real_input_mirror (data : list complex) (p k : nat) :
  length data = (2 ^ p)%nat ->
  (forall n, snd (nth n data C0) = 0) ->
  (0 < k < length data)%nat ->
  nth (length data - k) (fft data) C0 = Cconj (nth k (fft data) C0) /\
  Cnorm (nth (length data - k) (fft data) C0) = Cnorm (nth k (fft data) C0).
Proof.
  intros Hlen Hreal Hk. destruct (fft_dft_pow2 p data Hlen) as [_ Hdft].
  assert (Heq : nth (length data - k) (fft data) C0 = Cconj (nth k (fft data) C0)).
  { rewrite !Hdft by lia. now apply dft_real_mirror. }
  split; [exact Heq|]. rewrite Heq. apply Cnorm_conj.
Qed.

(** Witness for X17: four real samples, bins 1 and 3. *)
Lemma fft_real_input_mirror_witness :
  Cnorm (nth 3 (fft [(1, 0); (2, 0); (4, 0); (8, 0)]) C0)
  = Cnorm (nth 1 (fft [(1, 0); (2, 0); (4, 0); (8, 0)]) C0).
Proof.
  apply (fft_real_input_mirror [(1, 0); (2, 0); (4, 0); (8, 0)] 2 1).
  - reflexivity.
  - intros [|[|[|[|[|n]]]]]; reflexivity.
  - simpl. lia.
Defined.

(** ** Sizes: the padded size and the power spectrum *)

Lemma padded_size_tight (length : Z) :
  exists k,
    (0 <= k)%Z /\ padded_size length = (2 ^ k)%Z /\ (length <= 2 ^ k)%Z /\
    (k = 0 \/ 2 ^ (k - 1) < length)%Z.
Proof.
  apply (grow_fft_size_spec length (Z.to_nat length) 0); [lia | simpl; lia | now left].
Qed.

(** X18.  [padded_size length] is 1 for [length <= 1]; for [length >= 1] it
    is at least [length] and less than twice [length], so the padding never
    doubles the signal; and a size that is already a power of two is kept. *)
Theorem padded_size_bounds (length : Z) :
  ((length <= 1)%Z -> padded_size length = 1%Z) /\
  ((1 <= length)%Z -> (length <= padded_size length < 2 * length)%Z) /\
  (forall k, (0 <= k)%Z -> length = (2 ^ k)%Z -> padded_size length = length).
Proof.
  destruct (padded_size_tight length) as (k & Hk & Heq & Hle & Hmin).
  assert (Hpow : forall j, (0 <= j)%Z -> (0 < 2 ^ j)%Z)
    by (intros; apply Z.pow_pos_nonneg; lia).
  rewrite Heq.
  destruct (Z.eq_dec k 0) as [->|Hk0].
  - change (2 ^ 0)%Z with 1%Z in *.
    split; [reflexivity|]. split; [lia|].
    intros j Hj ->. pose proof (Hpow j Hj). lia.
  - destruct Hmin as [Hmin|Hmin]; [contradiction|].
    assert (Hhalf : (2 ^ k = 2 * 2 ^ (k - 1))%Z).
    { replace k with (k - 1 + 1)%Z at 1 by lia.
      rewrite Z.pow_add_r by lia. change (2 ^ 1)%Z with 2%Z. lia. }
    pose proof (Hpow (k - 1)%Z ltac:(lia)) as Hpos.
    split; [lia|]. split; [lia|].
    intros j Hj Hlen. rewrite Hlen in Hmin, Hle.
    destruct (Z_lt_le_dec j k) as [Hlt|Hge].
    + assert (2 ^ j <= 2 ^ (k - 1))%Z by (apply Z.pow_le_mono_r; lia). lia.
    + destruct (Z.eq_dec j k) as [->|Hne]; [now rewrite Hlen|].
      assert (Hup : (2 ^ (k + 1) <= 2 ^ j)%Z) by (apply Z.pow_le_mono_r; lia).
      rewrite Z.pow_add_r in Hup by lia. change (2 ^ 1)%Z with 2%Z in Hup. lia.
Qed.

(** Witness for X18: 300 samples are padded to 512. *)
Lemma padded_size_bounds_witness :
  (300 <= padded_size 300 < 2 * 300)%Z /\ padded_size (2 ^ 9) = (2 ^ 9)%Z.
Proof.
  destruct (padded_size_bounds 300) as (_ & H & _).
  destruct (padded_size_bounds (2 ^ 9)) as (_ & _ & H').
  split; [apply H; lia | apply (H' 9%Z); [lia | reflexivity]].
Defined.

Lemma calculate_psd_size (signal : buffer) (length : Z) :
  (0 <= length)%Z -> vsize (calculate_psd signal length) = (padded_size length / 2)%Z.
Proof.
  intros Hlen. rewrite (calculate_psd_eq signal length Hlen). cbv zeta.
  unfold vsize. rewrite length_map, length_seq.
  pose proof (padded_size_pos length). lia.
Qed.

(** For [length >= 3] the padded size is an even number, at least 4. *)
Lemma padded_size_ge_3 (length : Z) :
  (3 <= length)%Z ->
  exists h, (2 <= h)%Z /\ padded_size length = (2 * h)%Z.
Proof.
  intros Hlen. destruct (padded_size_tight length) as (k & Hk & Heq & Hle & _).
  assert (Hk2 : (2 <= k)%Z).
  { destruct (Z_lt_le_dec k 2) as [Hlt|]; [|assumption].
    assert (k = 0 \/ k = 1)%Z as [-> | ->] by lia; simpl in Hle; lia. }
  exists (2 ^ (k - 1))%Z. split.
  - replace (k - 1)%Z with (1 + (k - 2))%Z by lia.
    rewrite Z.pow_add_r by lia. change (2 ^ 1)%Z with 2%Z.
    assert (0 < 2 ^ (k - 2))%Z by (apply Z.pow_pos_nonneg; lia). lia.
  - rewrite Heq. replace k with (1 + (k - 1))%Z at 1 by lia.
    rewrite Z.pow_add_r by lia. reflexivity.
Qed.

(** ** Which calls of the rate estimators read outside the spectrum *)

(** X19.  [calculate_heart_rate_fft] on a non-null signal of length 1 or 2
    always reads outside the power spectrum: the spectrum has at most one
    bin, and bin 0 is never looked at. *)
Theorem calculate_heart_rate_fft_short_signal (sig : buffer) (length : Z)
    (sample_rate min_bpm max_bpm : R) :
  (1 <= length <= 2)%Z ->
  (vsize (calculate_psd sig length) <= 1)%Z /\
  calculate_heart_rate_fft (Some sig) length sample_rate min_bpm max_bpm = None.
Proof.
  intros Hlen.
  assert (Hsz : (vsize (calculate_psd sig length) <= 1)%Z).
  { rewrite calculate_psd_size by lia.
    assert (length = 1 \/ length = 2)%Z as [-> | ->] by lia.
    - change (padded_size 1) with 1%Z. lia.
    - change (padded_size 2) with 2%Z. lia. }
  split; [exact Hsz|].
  unfold calculate_heart_rate_fft.
  destruct (Z.leb_spec length 0); [lia|]. cbv zeta.
  rewrite find_peak_frequency_out; [reflexivity|].
  unfold min_bin. lia.
Qed.

(** Witness for X19: two samples. *)
Lemma calculate_heart_rate_fft_short_signal_witness :
  calculate_heart_rate_fft (Some (fun _ => 1)) 2 30 40 180 = None.
Proof.
  apply (calculate_heart_rate_fft_short_signal (fun _ => 1) 2 30 40 180). lia.
Defined.

Lemma float_to_int_lt (x : R) (m : Z) :
  (1 <= m)%Z -> x < IZR m -> (float_to_int x <= m - 1)%Z.
Proof.
  intros Hm Hx. unfold float_to_int. destruct (Rle_dec 0 x) as [H0|H0].
  - pose proof (Zfloor_bound x) as [Hf _].
    assert (IZR (Zfloor x) < IZR m) by lra.
    apply lt_IZR in H. lia.
  - pose proof (Zceil_bound x) as [Hc _].
    assert (IZR (Zceil x) < 1) by lra.
    apply lt_IZR in H. lia.
Qed.

(** With a positive sample rate, at least three samples and a lower
    frequency bound under the Nyquist frequency, the first read of
    [find_peak_frequency] is inside the spectrum. *)
Lemma min_bin_inside (sig : buffer) (length : Z) (sample_rate min_hz : R) :
  0 < sample_rate -> (3 <= length)%Z -> min_hz < sample_rate / 2 ->
  (min_bin (calculate_psd sig length) sample_rate min_hz
   <= vsize (calculate_psd sig length) - 1)%Z.
Proof.
  intros Hsr Hlen Hmin.
  destruct (padded_size_ge_3 length Hlen) as (h & Hh & Hp).
  assert (Hsz : vsize (calculate_psd sig length) = h).
  { rewrite calculate_psd_size by lia. rewrite Hp. lia. }
  unfold min_bin, freq_resolution. rewrite Hsz.
  assert (HhR : 2 <= IZR h) by (apply IZR_le in Hh; exact Hh).
  apply Z.max_lub; [lia|].
  apply float_to_int_lt; [lia|].
  rewrite mult_IZR.
  replace (min_hz / (sample_rate / (IZR h * 2)))
    with (min_hz * (IZR h * 2) / sample_rate) by (field; lra).
  apply (Rmult_lt_reg_r sample_rate); [exact Hsr|].
  replace (min_hz * (IZR h * 2) / sample_rate * sample_rate)
    with (min_hz * (IZR h * 2)) by (field; lra).
  nra.
Qed.

(** X20.  With a sample rate of at least 1 Hz, at least three samples, a
    lower bound [min_bpm >= 0] whose frequency [min_bpm / 60] is at most
    0.49 times the sample rate (98 percent of the Nyquist frequency) and an
    upper bound [max_bpm >= 0] whose frequency is at most the sample rate,
    so that both quotients are far inside the [int] range and the lower one
    is clear of the last bin, [calculate_heart_rate_fft] reads inside the
    power spectrum only and returns an estimate. *)
Theorem calculate_heart_rate_fft_in_bounds (sig : buffer) (length : Z)
    (sample_rate min_bpm max_bpm : R) :
  1 <= sample_rate -> (3 <= length)%Z ->
  0 <= min_bpm -> min_bpm / 60 <= 0.49 * sample_rate ->
  0 <= max_bpm -> max_bpm / 60 <= sample_rate ->
  exists bpm,
    calculate_heart_rate_fft (Some sig) length sample_rate min_bpm max_bpm = Some bpm.
Proof.
  intros Hsr Hlen Hmin0 Hmin Hmax0 Hmax.
  unfold calculate_heart_rate_fft.
  destruct (Z.leb_spec length 0); [lia|]. cbv zeta.
  replace 60.0 with 60 by lra.
  pose proof (min_bin_inside sig length sample_rate (min_bpm / 60)
                ltac:(lra) Hlen ltac:(lra)) as Hin.
  apply (find_peak_frequency_some_iff _ sample_rate (min_bpm / 60) (max_bpm / 60)) in Hin.
  destruct (find_peak_frequency _ _ _ _) as [f|]; [|congruence].
  simpl. eexists. reflexivity.
Qed.

(** Witness for X20: 300 samples at 30 Hz, 40 to 180 beats per minute. *)
Lemma calculate_heart_rate_fft_in_bounds_witness :
  exists bpm, calculate_heart_rate_fft (Some (fun _ => 1)) 300 30 40 180 = Some bpm.
Proof.
  apply (calculate_heart_rate_fft_in_bounds (fun _ => 1) 300 30 40 180);
    try lia; lra.
Defined.

(** ** What the peak finder returns *)

Lemma find_peak_frequency_bounds (psd : list R) (sample_rate min_freq max_freq : R) :
  0 < sample_rate ->
  (min_bin psd sample_rate min_freq <= max_bin psd sample_rate max_freq)%Z ->
  exists f,
    find_peak_frequency psd sample_rate min_freq max_freq = Some f /\
    freq_resolution psd sample_rate <= f <= max_freq.
Proof.
  intros Hsr Hrange.
  destruct (find_peak_frequency_scan psd sample_rate min_freq max_freq Hrange)
    as (pk & Heq & Hpk & _).
  exists (IZR pk * freq_resolution psd sample_rate). split; [exact Heq|].
  assert (Hlo : (1 <= min_bin psd sample_rate min_freq)%Z) by (unfold min_bin; lia).
  assert (Hhi : (max_bin psd sample_rate max_freq <= vsize psd - 1)%Z)
    by (unfold max_bin; lia).
  assert (Htr : (max_bin psd sample_rate max_freq
                 <= float_to_int (max_freq / freq_resolution psd sample_rate))%Z)
    by (unfold max_bin; lia).
  assert (Hres : 0 < freq_resolution psd sample_rate).
  { unfold freq_resolution. apply Rdiv_lt_0_compat; [exact Hsr|].
    apply IZR_lt. lia. }
  set (res := freq_resolution psd sample_rate) in *.
  assert (H1 : 1 <= IZR pk) by (apply IZR_le; lia).
  split; [nra|].
  assert (Htrunc : IZR (float_to_int (max_freq / res)) <= max_freq / res)
    by (apply float_to_int_pos_le; lia).
  assert (Hle : IZR pk <= max_freq / res).
  { eapply Rle_trans; [|exact Htrunc]. apply IZR_le. lia. }
  apply (Rmult_le_compat_r res) in Hle; [|lra].
  replace (max_freq / res * res) with max_freq in Hle by (field; lra).
  exact Hle.
Qed.

(** X21.  With a positive sample rate and a band that holds at least one
    bin of the power spectrum, the heart rate returned is positive and never
    above [max_bpm]. *)
Theorem calculate_heart_rate_fft_within_band (sig : buffer) (length : Z)
    (sample_rate min_bpm max_bpm : R) :
  let psd := calculate_psd sig length in
  (0 < length)%Z ->
  0 < sample_rate ->
  (min_bin psd sample_rate (min_bpm / 60) <= max_bin psd sample_rate (max_bpm / 60))%Z ->
  exists bpm,
    calculate_heart_rate_fft (Some sig) length sample_rate min_bpm max_bpm = Some bpm /\
    0 < bpm <= max_bpm.
Proof.
  intros psd Hlen Hsr Hrange.
  destruct (find_peak_frequency_bounds psd sample_rate (min_bpm / 60) (max_bpm / 60)
              Hsr Hrange) as (f & Heq & Hf).
  assert (Hres : 0 < freq_resolution psd sample_rate).
  { unfold freq_resolution. apply Rdiv_lt_0_compat; [exact Hsr|].
    apply IZR_lt. unfold min_bin, max_bin in Hrange. lia. }
  exists (f * 60). split.
  - unfold calculate_heart_rate_fft.
    destruct (Z.leb_spec length 0); [lia|]. cbv zeta.
    replace 60.0 with 60 by lra. fold psd. rewrite Heq. reflexivity.
  - lra.
Qed.

Lemma calculate_psd_size_8 (sig : buffer) : vsize (calculate_psd sig 8) = 4%Z.
Proof.
  rewrite calculate_psd_size by lia. change (padded_size 8) with 8%Z. reflexivity.
Qed.

(** Witness for X21: eight samples at 8 Hz, 60 to 180 beats per minute. *)
Lemma calculate_heart_rate_fft_within_band_witness :
  exists bpm,
    calculate_heart_rate_fft (Some (fun _ => 1)) 8 8 60 180 = Some bpm /\
    0 < bpm <= 180.
Proof.
  apply (calculate_heart_rate_fft_within_band (fun _ => 1) 8 8 60 180).
  - lia.
  - lra.
  - unfold min_bin, max_bin, freq_resolution. rewrite calculate_psd_size_8.
    simpl Z.mul.
    rewrite (float_to_int_floor (60 / 60 / (8 / 8)) 1) by (try lia; lra).
    rewrite (float_to_int_floor (180 / 60 / (8 / 8)) 3) by (try lia; lra).
    lia.
Defined.



(** ** The two pipelines and the sample rate *)

(** For a proper band [0 < low < high] the validation asks for a sample
    rate above [2 * high], and nothing else. *)
Lemma band_valid_rate (sample_rate low high : R) :
  0 < low -> low < high ->
  (band_valid sample_rate low high <-> 2 * high < sample_rate).
Proof.
  intros Hlo Hlh.
  destruct (Rtotal_order sample_rate 0) as [Hneg|[Hz|Hpos]].
  - rewrite (band_valid_negative_rate _ _ _ Hneg). split; intros H; lra.
  - subst. unfold band_valid. cbv zeta.
    replace (0 / 2) with 0 by lra. unfold Rdiv. rewrite Rinv_0.
    split; intros H; lra.
  - rewrite (band_valid_positive_rate _ _ _ Hpos). split; intros H; lra.
Qed.

Lemma process_rppg_signals_rejected (inp out : buffer) (length : Z) (sample_rate : R) :
  (0 < length)%Z ->
  band_rejected sample_rate 0.8 3.0 = true ->
  exists det,
    process_rppg_signals (Some inp) (Some out) length sample_rate = (0%Z, Some det) /\
    (forall i, (0 <= i < length)%Z -> det i = detrend_signal inp length i) /\
    (forall i, ~ (0 <= i < length)%Z -> det i = out i).
Proof.
  intros Hlen Hband. unfold process_rppg_signals.
  destruct (Z.leb_spec length 0); [lia|]. cbv zeta.
  rewrite bandpass_filter_rejected by exact Hband. simpl Z.eqb. cbv iota.
  eexists. split; [reflexivity|].
  assert (Hcopy : forall j,
             for_loop 0 length (fun i out => bset out i (inp i)) out j
             = if (0 <=? j)%Z && (j <? length)%Z then inp j else out j).
  { intros j. apply (for_loop_bset (fun i _ => inp i) 0 length out). lia. }
  split.
  - intros i Hi. apply detrend_signal_ext; [|exact Hi].
    intros j Hj. rewrite Hcopy.
    destruct (Z.leb_spec 0 j); [|lia]. destruct (Z.ltb_spec j length); [|lia].
    reflexivity.
  - intros i Hi. rewrite detrend_signal_outside by exact Hi. rewrite Hcopy.
    destruct (Z.leb_spec 0 i); destruct (Z.ltb_spec i length); simpl; try reflexivity; lia.
Qed.

(** X23.  With non-null buffers, [process_rppg_signals] returns 1 exactly
    when [length > 0] and the sample rate is above 6 Hz, twice the upper
    edge of the heart-rate band. *)
Theorem process_rppg_signals_rate (inp out : buffer) (length : Z) (sample_rate : R) :
  fst (process_rppg_signals (Some inp) (Some out) length sample_rate) = 1%Z
  <-> (0 < length)%Z /\ 6 < sample_rate.
Proof.
  assert (Hrate : band_valid sample_rate 0.8 3.0 <-> 6 < sample_rate).
  { rewrite band_valid_rate by lra. split; intros H; lra. }
  destruct (Z.leb_spec length 0) as [Hlen|Hlen].
  - unfold process_rppg_signals. destruct (Z.leb_spec length 0); [|lia].
    simpl. split; [discriminate | lia].
  - destruct (band_rejected sample_rate 0.8 3.0) eqn:Hband.
    + destruct (process_rppg_signals_rejected inp out length sample_rate Hlen Hband)
        as (det & -> & _).
      simpl. split; [discriminate|]. intros [_ Hsr].
      apply Hrate, band_rejected_false in Hsr. congruence.
    + destruct (process_rppg_signals_run inp out length sample_rate Hlen Hband)
        as (out' & M & m & -> & _).
      simpl. split; [|reflexivity]. intros _. split; [exact Hlen|].
      now apply Hrate, band_rejected_false.
Qed.

(** X24.  A call of [process_rppg_signals] that fails on the sample rate
    has already written to [output]: with valid buffers, [length > 0] and a
    sample rate of at most 6 Hz it returns 0 and leaves the detrended input
    in the first [length] places of [output]. *)
Theorem process_rppg_signals_low_rate (inp out : buffer) (length : Z)
    (sample_rate : R) :
  (0 < length)%Z ->
  sample_rate <= 6 ->
  exists det,
    process_rppg_signals (Some inp) (Some out) length sample_rate = (0%Z, Some det) /\
    (forall i, (0 <= i < length)%Z -> det i = detrend_signal inp length i) /\
    (forall i, ~ (0 <= i < length)%Z -> det i = out i).
Proof.
  intros Hlen Hsr. apply process_rppg_signals_rejected; [exact Hlen|].
  destruct (band_rejected sample_rate 0.8 3.0) eqn:Hband; [reflexivity|].
  apply band_rejected_false in Hband.
  apply band_valid_rate in Hband; lra.
Qed.

(** Witness for X24: three samples at 5 Hz. *)
Lemma process_rppg_signals_low_rate_witness :
  exists det,
    process_rppg_signals (Some (vdata [1; 2; 4])) (Some (fun _ => 0)) 3 5
    = (0%Z, Some det) /\
    (forall i, (0 <= i < 3)%Z -> det i = detrend_signal (vdata [1; 2; 4]) 3 i) /\
    (forall i, ~ (0 <= i < 3)%Z -> det i = (fun _ : Z => 0) i).
Proof.
  apply (process_rppg_signals_low_rate (vdata [1; 2; 4]) (fun _ => 0) 3 5); [lia | lra].
Defined.

(** X25.  When [process_rppg_signals] succeeds and the filtered signal is
    not constant, the normalised output reaches both ends of [[0, 1]]: some
    sample is exactly 0 and some sample is exactly 1. *)
Theorem process_rppg_signals_full_range (inp out : buffer) (length : Z)
    (sample_rate : R) (i j : Z) :
  let filtered :=
    fun i => cascade sample_rate 0.8 3.0 (detrend_signal inp length) (Z.to_nat i) in
  6 < sample_rate ->
  (0 <= i < length)%Z -> (0 <= j < length)%Z ->
  filtered i <> filtered j ->
  exists out',
    process_rppg_signals (Some inp) (Some out) length sample_rate = (1%Z, Some out') /\
    (exists k, (0 <= k < length)%Z /\ out' k = 0) /\
    (exists k, (0 <= k < length)%Z /\ out' k = 1).
Proof.
  intros filtered Hsr Hi Hj Hne.
  assert (Hband : band_rejected sample_rate 0.8 3.0 = false).
  { apply band_rejected_false, band_valid_rate; lra. }
  destruct (process_rppg_signals_run inp out length sample_rate ltac:(lia) Hband)
    as (out' & M & m & Heq & HM & Hm & Hval & _).
  assert (HM' : is_max filtered length M) by exact HM.
  assert (Hm' : is_min filtered length m) by exact Hm.
  assert (Hval' : forall i, (0 <= i < length)%Z ->
            out' i = if flt m M then (filtered i - m) / (M - m) else filtered i)
    by exact Hval.
  clear HM Hm Hval. clearbody filtered.
  destruct HM' as [(kM & HkM & HfM) HleM]. destruct Hm' as [(km & Hkm & Hfm) Hlem].
  assert (Hlt : m < M).
  { pose proof (HleM i Hi). pose proof (HleM j Hj).
    pose proof (Hlem i Hi). pose proof (Hlem j Hj).
    destruct (Rtotal_order (filtered i) (filtered j)) as [H3|[H3|H3]];
      [lra | contradiction | lra]. }
  assert (E : flt m M = true) by now apply flt_true.
  exists out'. split; [exact Heq|]. split.
  - exists km. split; [exact Hkm|]. rewrite Hval' by exact Hkm.
    rewrite E, Hfm. unfold Rdiv. ring.
  - exists kM. split; [exact HkM|]. rewrite Hval' by exact HkM.
    rewrite E, HfM. field. lra.
Qed.

(** Witness for X23: three samples at 30 Hz. *)
Lemma process_rppg_signals_rate_witness :
  fst (process_rppg_signals (Some (vdata [1; 2; 4])) (Some (fun _ => 0)) 3 30) = 1%Z.
Proof.
  apply (process_rppg_signals_rate (vdata [1; 2; 4]) (fun _ => 0) 3 30).
  split; [lia | lra].
Defined.

Lemma cascade_at_0 (sample_rate low high : R) (x : buffer) :
  cascade sample_rate low high x 0 = x 0%Z.
Proof. reflexivity. Qed.

Lemma cascade_at_1 (sample_rate low high : R) (x : buffer) :
  cascade sample_rate low high x 1
  = x 0%Z + alpha_low sample_rate low
            * (alpha_high sample_rate high * (x 0%Z + x 1%Z - x 0%Z) - x 0%Z).
Proof. reflexivity. Qed.

(** Witness for X25: the samples [1; 2; 4] at 30 Hz. *)
Lemma process_rppg_signals_full_range_witness :
  exists out',
    process_rppg_signals (Some (vdata [1; 2; 4])) (Some (fun _ => 0)) 3 30
    = (1%Z, Some out') /\
    (exists k, (0 <= k < 3)%Z /\ out' k = 0) /\
    (exists k, (0 <= k < 3)%Z /\ out' k = 1).
Proof.
  apply (process_rppg_signals_full_range (vdata [1; 2; 4]) (fun _ => 0) 3 30 0 1).
  - lra.
  - lia.
  - lia.
  - change (Z.to_nat 0) with 0%nat. change (Z.to_nat 1) with 1%nat.
    rewrite cascade_at_0, cascade_at_1.
    destruct detrend_signal_1_2_4 as (H0 & H1 & _). rewrite H0, H1.
    destruct (alpha_bounds 30 0.8 3.0) as [Hl Hh]; try lra.
    set (al := alpha_low 30 0.8) in *. set (ah := alpha_high 30 3.0) in *.
    intros Heq.
    assert (Hp : 0 < al * (ah * (1 / 3) + 1 / 6))
      by (apply Rmult_lt_0_compat; [lra | nra]).
    lra.
Defined.

(** ** The conditioning pipeline against the specification *)

(** While no square overflows and there are at least two samples,
    [detrend_signal] is the detrending of the specification. *)
Lemma detrend_signal_spec (s : buffer) (N : Z) :
  (2 <= N <= 46341)%Z ->
  forall i, (0 <= i < N)%Z -> detrend_signal s N i = detrend_spec s (Z.to_nat N) i.
Proof.
  intros HN i Hi.
  rewrite (detrend_signal_eq s N) by lia. cbv zeta.
  set (n := Z.to_nat N).
  assert (HnN : INR n = IZR N)
    by (unfold n; rewrite INR_IZR_INZ, Z2Nat.id; [reflexivity | lia]).
  assert (Hx2 : Rsum (fun i => IZR (int_mul i i)) n = Rsum (fun i => IZR i * IZR i) n).
  { apply Rsum_ext. intros j Hj. rewrite int_mul_square by (unfold n in Hj; lia).
    apply mult_IZR. }
  rewrite Hx2.
  unfold detrend_spec, regression_intercept, regression_slope, regression_denominator,
    remove_mean, mean_of.
  rewrite HnN. reflexivity.
Qed.

(** The detrending of the specification removes a ramp entirely. *)
Lemma detrend_spec_ramp (n : nat) :
  (2 <= n)%nat -> forall i, detrend_spec IZR n i = 0.
Proof.
  intros Hn i.
  pose proof (regression_denominator_pos n Hn) as HD.
  assert (Hn0 : INR n <> 0).
  { apply le_INR in Hn. change (INR 2) with 2 in Hn. lra. }
  unfold detrend_spec, regression_intercept, regression_slope, remove_mean.
  cbv beta zeta.
  set (mu := mean_of IZR n).
  assert (Hsy : Rsum (fun i => IZR i - mu) n = 0).
  { rewrite (Rsum_ext _ (fun i => IZR i - (0 * IZR i + mu))) by (intros; ring).
    rewrite Rsum_residual. unfold mu, mean_of. field. exact Hn0. }
  assert (Hsxy : INR n * Rsum (fun i => IZR i * (IZR i - mu)) n
                 = regression_denominator n).
  { rewrite (Rsum_ext _ (fun i => IZR i * (IZR i - (0 * IZR i + mu))))
      by (intros; ring).
    rewrite Rsum_residual_x. unfold regression_denominator, mu, mean_of.
    field. exact Hn0. }
  rewrite Hsy, Hsxy.
  unfold mu, mean_of. field. split; lra.
Qed.

(** X30.  For non-null buffers, [2 <= length <= 46341] and a sample rate
    above 6 Hz, [process_rppg_signals] returns 1 and the first [length]
    places of the output hold the input after the three steps of the
    specification: detrended (mean removed, least-squares line subtracted),
    passed through the [0.8, 3.0] Hz cascade and min-max normalised.  Every
    sample is [(x - min) / (max - min)] and lies in [[0, 1]] when
    [max > min], and is the filtered value itself when [max = min]; the
    rest of the output buffer is not written. *)
Theorem process_rppg_signals_pipeline (inp out : buffer) (length : Z)
    (sample_rate : R) :
  let filtered :=
    fun i => cascade sample_rate 0.8 3.0 (detrend_spec inp (Z.to_nat length))
               (Z.to_nat i) in
  (2 <= length <= 46341)%Z ->
  6 < sample_rate ->
  exists out' M m,
    process_rppg_signals (Some inp) (Some out) length sample_rate = (1%Z, Some out') /\
    is_max filtered length M /\
    is_min filtered length m /\
    (m < M -> forall i, (0 <= i < length)%Z ->
                out' i = (filtered i - m) / (M - m) /\ 0 <= out' i <= 1) /\
    (M = m -> forall i, (0 <= i < length)%Z -> out' i = filtered i) /\
    (forall i, ~ (0 <= i < length)%Z -> out' i = out i).
Proof.
  intros filtered Hlen Hsr.
  assert (Hband : band_rejected sample_rate 0.8 3.0 = false).
  { apply band_rejected_false, band_valid_rate; lra. }
  destruct (process_rppg_signals_run inp out length sample_rate ltac:(lia) Hband)
    as (out' & M & m & Heq & HM & Hm & Hval & Hrest).
  set (code := fun i => cascade sample_rate 0.8 3.0 (detrend_signal inp length)
                         (Z.to_nat i)) in *.
  assert (HM' : is_max code length M) by exact HM.
  assert (Hm' : is_min code length m) by exact Hm.
  assert (Hval' : forall i, (0 <= i < length)%Z ->
            out' i = if flt m M then (code i - m) / (M - m) else code i)
    by exact Hval.
  clear HM Hm Hval.
  assert (Hsame : forall i, (0 <= i < length)%Z -> code i = filtered i).
  { intros i Hi. unfold code, filtered. apply cascade_ext.
    intros j Hj. apply detrend_signal_spec; lia. }
  clearbody code filtered.
  apply (is_max_ext code filtered) in HM'; [|exact Hsame].
  apply (is_min_ext code filtered) in Hm'; [|exact Hsame].
  exists out', M, m.
  split; [exact Heq|]. split; [exact HM'|]. split; [exact Hm'|].
  split; [|split; [|exact Hrest]].
  - intros Hlt i Hi. rewrite Hval' by exact Hi.
    assert (E : flt m M = true) by now apply flt_true.
    rewrite E, Hsame by exact Hi. split; [reflexivity|].
    destruct HM' as [_ HM]. destruct Hm' as [_ Hm].
    specialize (HM i Hi). specialize (Hm i Hi).
    split.
    + apply Rmult_le_pos; [lra|]. apply Rlt_le, Rinv_0_lt_compat. lra.
    + apply (Rmult_le_reg_r (M - m)); [lra|].
      unfold Rdiv. rewrite Rmult_assoc, Rinv_l by lra. lra.
  - intros HMm i Hi. rewrite Hval' by exact Hi.
    assert (E : flt m M = false) by (apply flt_false; lra).
    rewrite E. now apply Hsame.
Qed.

(** Witness for X30: the samples [1; 2; 4] at 30 Hz; the filtered signal is
    not constant, so the output is the normalised one. *)
Lemma process_rppg_signals_pipeline_witness :
  exists out' M m,
    process_rppg_signals (Some (vdata [1; 2; 4])) (Some (fun _ => 0)) 3 30
    = (1%Z, Some out') /\
    m < M /\
    out' 0%Z
    = (cascade 30 0.8 3.0 (detrend_spec (vdata [1; 2; 4]) (Z.to_nat 3)) (Z.to_nat 0) - m)
      / (M - m) /\
    0 <= out' 0%Z <= 1 /\
    0 <= out' 1%Z <= 1 /\
    0 <= out' 2%Z <= 1 /\
    out' 3%Z = 0.
Proof.
  destruct (process_rppg_signals_pipeline (vdata [1; 2; 4]) (fun _ => 0) 3 30
              ltac:(lia) ltac:(lra))
    as (out' & M & m & Heq & HM & Hm & Hnorm & _ & Hrest).
  exists out', M, m. split; [exact Heq|].
  assert (Hlt : m < M).
  { destruct HM as [_ HM]. destruct Hm as [_ Hm].
    pose proof (HM 0%Z ltac:(lia)) as HM0. pose proof (HM 1%Z ltac:(lia)) as HM1.
    pose proof (Hm 0%Z ltac:(lia)) as Hm0. pose proof (Hm 1%Z ltac:(lia)) as Hm1.
    cbv beta in HM0, HM1, Hm0, Hm1.
    change (Z.to_nat 0) with 0%nat in HM0, Hm0.
    change (Z.to_nat 1) with 1%nat in HM1, Hm1.
    rewrite cascade_at_0 in HM0, Hm0. rewrite cascade_at_1 in HM1, Hm1.
    rewrite <- (detrend_signal_spec (vdata [1; 2; 4]) 3 ltac:(lia) 0%Z ltac:(lia))
      in HM0, HM1, Hm0, Hm1.
    rewrite <- (detrend_signal_spec (vdata [1; 2; 4]) 3 ltac:(lia) 1%Z ltac:(lia))
      in HM1, Hm1.
    destruct detrend_signal_1_2_4 as (H0 & H1 & _).
    rewrite H0 in HM0, HM1, Hm0, Hm1. rewrite H1 in HM1, Hm1.
    destruct (alpha_bounds 30 0.8 3.0) as [Hl Hh]; try lra.
    set (al := alpha_low 30 0.8) in *. set (ah := alpha_high 30 3.0) in *.
    assert (Hp : 0 < al * (ah * (1 / 3) + 1 / 6))
      by (apply Rmult_lt_0_compat; [lra | nra]).
    lra. }
  split; [exact Hlt|].
  split; [apply (Hnorm Hlt 0%Z); lia|].
  split; [apply (Hnorm Hlt 0%Z); lia|].
  split; [apply (Hnorm Hlt 1%Z); lia|].
  split; [apply (Hnorm Hlt 2%Z); lia|].
  apply (Hrest 3%Z). lia.
Defined.

(** The first detrended sample of the ramp of 46342 samples: the slope the
    code fits is not 1, so the ramp is not removed. *)
Lemma detrend_signal_ramp_46342 : detrend_signal IZR 46342 0%Z <> 0.
Proof.
  set (N := 46342%Z). set (n := Z.to_nat N).
  assert (HnN : INR n = IZR N)
    by (unfold n; rewrite INR_IZR_INZ, Z2Nat.id; [reflexivity | unfold N; lia]).
  assert (HN0 : IZR N <> 0) by (apply not_0_IZR; unfold N; lia).
  assert (HNpos : 0 < IZR N) by (apply IZR_lt; unfold N; lia).
  assert (Hn : n = S (Z.to_nat 46341)) by (unfold n, N; lia).
  set (X2 := Rsum (fun i => IZR i * IZR i) n).
  assert (Hx2 : Rsum (fun i => IZR (int_mul i i)) n = X2 - 2 ^ 32).
  { unfold X2. rewrite Hn, !Rsum_S.
    rewrite (Rsum_ext (fun i => IZR (int_mul i i)) (fun i => IZR i * IZR i))
      by (intros i Hi; rewrite int_mul_square by lia; apply mult_IZR).
    rewrite Z2Nat.id by lia. rewrite int_mul_46341.
    rewrite minus_IZR, mult_IZR, pow_IZR. simpl Z.of_nat. ring. }
  assert (Hpos : 0 < regression_denominator n)
    by (apply regression_denominator_pos; unfold n, N; lia).
  assert (HD : regression_denominator n = IZR N * X2 - Rsum IZR n * Rsum IZR n).
  { unfold regression_denominator, X2. now rewrite HnN. }
  assert (Hx1 : 0 < Rsum IZR n).
  { pose proof (Rsum_index n) as H. rewrite HnN in H.
    assert (2 <= IZR N) by (apply IZR_le; unfold N; lia).
    assert (0 < IZR N * (IZR N - 1)) by (apply Rmult_lt_0_compat; lra).
    lra. }
  rewrite (detrend_signal_eq IZR N) by (unfold N; lia). cbv zeta. fold n.
  set (mean := Rsum IZR n / IZR N).
  assert (Hsy : Rsum (fun i => IZR i - mean) n = 0).
  { rewrite (Rsum_ext _ (fun i => IZR i - (0 * IZR i + mean))) by (intros; ring).
    rewrite Rsum_residual, HnN. unfold mean. field. exact HN0. }
  assert (Hsxy : IZR N * Rsum (fun i => IZR i * (IZR i - mean)) n
                 = regression_denominator n).
  { rewrite (Rsum_ext _ (fun i => IZR i * (IZR i - (0 * IZR i + mean))))
      by (intros; ring).
    rewrite Rsum_residual_x. fold X2. rewrite HD. unfold mean. field. exact HN0. }
  rewrite Hsy, Hsxy, Hx2.
  replace (IZR N * (X2 - 2 ^ 32) - Rsum IZR n * Rsum IZR n)
    with (regression_denominator n - IZR N * 2 ^ 32) by (rewrite HD; ring).
  set (D := regression_denominator n) in *.
  set (Dc := D - IZR N * 2 ^ 32).
  set (slope := (D - Rsum IZR n * 0) / Dc).
  replace (IZR 0 - mean - (slope * IZR 0 + (0 - slope * Rsum IZR n) / IZR N))
    with ((slope - 1) * mean) by (unfold mean; field; exact HN0).
  assert (Hmean : 0 < mean) by (unfold mean; apply Rdiv_lt_0_compat; lra).
  assert (Hslope : slope <> 1).
  { unfold slope. replace (D - Rsum IZR n * 0) with D by ring.
    intros Hone.
    destruct (Req_dec Dc 0) as [Hz|Hnz].
    - rewrite Hz in Hone. unfold Rdiv in Hone. rewrite Rinv_0 in Hone. lra.
    - assert (HDDc : D = Dc).
      { apply (Rmult_eq_compat_r Dc) in Hone.
        unfold Rdiv in Hone.
        rewrite Rmult_assoc, Rinv_l, Rmult_1_r, Rmult_1_l in Hone by exact Hnz.
        exact Hone. }
      unfold Dc in HDDc.
      assert (0 < IZR N * 2 ^ 32) by (apply Rmult_lt_0_compat; [exact HNpos | lra]).
      lra. }
  intros Hzero. apply Rmult_integral in Hzero. destruct Hzero; lra.
Qed.

(** C3, at the first length whose squares overflow.  On the ramp
    [input[i] = i] of 46342 samples at 30 Hz the pipeline of the
    specification gives zeros: the least-squares line is the ramp itself,
    the detrended signal and the filtered signal are zero everywhere, so
    [max = min] and the output is the filtered signal.  The call returns 1,
    but [46341 * 46341] overflows in its detrending step, the detrended
    buffer is not zero, and neither is the output. *)
Theorem process_rppg_signals_square_overflow :
  let N := 46342%Z in
  let n := Z.to_nat N in
  (forall i, detrend_spec IZR n i = 0) /\
  (forall i, cascade 30 0.8 3.0 (detrend_spec IZR n) (Z.to_nat i) = 0) /\
  detrend_signal IZR N 0%Z <> 0 /\
  exists out',
    process_rppg_signals (Some IZR) (Some (fun _ => 0)) N 30 = (1%Z, Some out') /\
    exists k, (0 <= k < N)%Z /\ out' k <> 0.
Proof.
  intros N n.
  assert (Hspec : forall i, detrend_spec IZR n i = 0).
  { apply detrend_spec_ramp. unfold n, N. lia. }
  split; [exact Hspec|].
  split.
  { intros i. rewrite cascade_alpha. apply lowpass_rec_zero.
    intros j _. apply highpass_rec_zero. intros k _. apply Hspec. }
  split; [exact detrend_signal_ramp_46342|].
  assert (Hband : band_rejected 30 0.8 3.0 = false)
    by (apply band_rejected_false, band_valid_30).
  destruct (process_rppg_signals_run IZR (fun _ => 0) N 30 ltac:(unfold N; lia) Hband)
    as (out' & M & m & Heq & HM & Hm & Hval & _).
  exists out'. split; [exact Heq|].
  destruct (flt m M) eqn:E.
  - apply flt_true in E.
    destruct HM as [(kM & HkM & HfM) _].
    exists kM. split; [exact HkM|].
    rewrite (Hval kM HkM). cbv beta in HfM. rewrite HfM.
    replace ((M - m) / (M - m)) with 1 by (field; lra). lra.
  - exists 0%Z. split; [unfold N; lia|].
    rewrite (Hval 0%Z) by (unfold N; lia).
    change (Z.to_nat 0) with 0%nat. rewrite cascade_at_0.
    exact detrend_signal_ramp_46342.
Qed.

(** X26.  [calculate_respiration_rate] needs a sample rate above 1.4 Hz,
    twice the upper edge of its band: with a sample rate of at most 1.4 Hz
    it returns the sentinel 0.0 for every signal and every length. *)
Theorem calculate_respiration_rate_low_rate (signals : option buffer) (length : Z)
    (sample_rate min_brpm max_brpm : R) :
  sample_rate <= 1.4 ->
  calculate_respiration_rate signals length sample_rate min_brpm max_brpm = Some 0.
Proof.
  intros Hsr. unfold calculate_respiration_rate.
  destruct signals as [sig|]; [|reflexivity].
  destruct (length <=? 0)%Z; [reflexivity|]. cbv zeta.
  rewrite bandpass_filter_rejected; [reflexivity|].
  destruct (band_rejected sample_rate 0.1 0.7) eqn:Hband; [reflexivity|].
  apply band_rejected_false in Hband.
  apply band_valid_rate in Hband; lra.
Qed.

(** Witness for X26: 300 samples at 1 Hz. *)
Lemma calculate_respiration_rate_low_rate_witness :
  calculate_respiration_rate (Some (fun _ => 1)) 300 1 6 42 = Some 0.
Proof.
  apply (calculate_respiration_rate_low_rate (Some (fun _ => 1)) 300 1 6 42). lra.
Defined.

(** X27.  With a sample rate above 1.4 Hz, at least three samples, a
    lower bound [min_brpm >= 0] whose frequency [min_brpm / 60] is at most
    0.49 times the sample rate and an upper bound [max_brpm >= 0] whose
    frequency is at most the sample rate, [calculate_respiration_rate]
    passes its filter, reads inside the power spectrum only and returns an
    estimate. *)
Theorem calculate_respiration_rate_in_bounds (sig : buffer) (length : Z)
    (sample_rate min_brpm max_brpm : R) :
  1.4 < sample_rate -> (3 <= length)%Z ->
  0 <= min_brpm -> min_brpm / 60 <= 0.49 * sample_rate ->
  0 <= max_brpm -> max_brpm / 60 <= sample_rate ->
  fst (bandpass_filter (Some sig) (Some (vdata (vmake 0 length))) length
         sample_rate 0.1 0.7) = 1%Z /\
  exists brpm,
    calculate_respiration_rate (Some sig) length sample_rate min_brpm max_brpm
    = Some brpm.
Proof.
  intros Hsr Hlen Hmin0 Hmin Hmax0 Hmax.
  assert (Hband : band_rejected sample_rate 0.1 0.7 = false).
  { apply band_rejected_false, band_valid_rate; lra. }
  destruct (bandpass_filter_run sig (vdata (vmake 0 length)) length sample_rate 0.1 0.7
              ltac:(lia) Hband) as (filtered & Heq & _).
  split; [rewrite Heq; reflexivity|].
  unfold calculate_respiration_rate.
  destruct (Z.leb_spec length 0); [lia|]. cbv zeta.
  rewrite Heq. simpl Z.eqb. cbv iota.
  replace 60.0 with 60 by lra.
  pose proof (min_bin_inside filtered length sample_rate (min_brpm / 60)
                ltac:(lra) Hlen ltac:(lra)) as Hin.
  apply (find_peak_frequency_some_iff _ sample_rate (min_brpm / 60) (max_brpm / 60)) in Hin.
  destruct (find_peak_frequency _ _ _ _) as [f|]; [|congruence].
  simpl. eexists. reflexivity.
Qed.

(** Witness for X27: 300 samples at 30 Hz, 6 to 42 breaths per minute. *)
Lemma calculate_respiration_rate_in_bounds_witness :
  fst (bandpass_filter (Some (fun _ => 1)) (Some (vdata (vmake 0 300))) 300 30 0.1 0.7)
  = 1%Z /\
  exists brpm, calculate_respiration_rate (Some (fun _ => 1)) 300 30 6 42 = Some brpm.
Proof.
  apply (calculate_respiration_rate_in_bounds (fun _ => 1) 300 30 6 42);
    try lia; lra.
Defined.

(** Witness for C8: eight samples equal to 1 at 8 Hz, the band of 60 to 180
    per minute.  Both estimators return a value, and the respiration rate is
    computed from a buffer that differs from the signal at sample 1. *)
Lemma rate_estimators_pipeline_witness :
  (exists bpm,
     calculate_heart_rate_fft (Some (fun _ => 1)) 8 8 60 180 = Some bpm /\
     find_peak_frequency (calculate_psd (fun _ => 1) 8) 8 (60 / 60) (180 / 60)
     = Some (bpm / 60)) /\
  exists filtered,
    bandpass_filter (Some (fun _ => 1)) (Some (vdata (vmake 0 8))) 8 8 0.1 0.7
    = (1%Z, Some filtered) /\
    (forall i, (0 <= i < 8)%Z -> filtered i = cascade 8 0.1 0.7 (fun _ => 1) (Z.to_nat i)) /\
    filtered 1%Z < 1 /\
    (exists brpm,
       calculate_respiration_rate (Some (fun _ => 1)) 8 8 60 180 = Some brpm /\
       find_peak_frequency (calculate_psd filtered 8) 8 (60 / 60) (180 / 60)
       = Some (brpm / 60)) /\
    calculate_respiration_rate (Some (fun _ => 1)) 8 8 60 180
    = calculate_heart_rate_fft (Some filtered) 8 8 60 180.
Proof.
  assert (Hsome : forall sig : buffer,
            exists f, find_peak_frequency (calculate_psd sig 8) 8 (60 / 60) (180 / 60)
                      = Some f).
  { intros sig.
    pose proof (min_bin_inside sig 8 8 (60 / 60) ltac:(lra) ltac:(lia) ltac:(lra)) as Hin.
    apply (find_peak_frequency_some_iff _ 8 (60 / 60) (180 / 60)) in Hin.
    destruct (find_peak_frequency _ _ _ _) as [f|]; [|congruence].
    exists f. reflexivity. }
  assert (Hband : band_rejected 8 0.1 0.7 = false).
  { apply band_rejected_false. apply band_valid_positive_rate; lra. }
  destruct (rate_estimators_pipeline (fun _ => 1) 8 8 60 180 ltac:(lia))
    as [Hheart Hresp].
  unfold buffer in *.
  split.
  - destruct (Hsome (fun _ => 1)) as (f & Hf).
    exists (60 * f). rewrite Hheart, Hf. split; [reflexivity|].
    f_equal. field.
  - destruct Hresp as (filtered & Heq & Hcas & Hpipe & Hsame).
    + destruct (bandpass_filter_run (fun _ => 1) (vdata (vmake 0 8)) 8 8 0.1 0.7
                  ltac:(lia) Hband) as (f & Hrun & _).
      unfold buffer in Hrun. rewrite Hrun. discriminate.
    + exists filtered. split; [exact Heq|]. split; [exact Hcas|].
      split; [|split; [|exact Hsame]].
      * rewrite (Hcas 1%Z) by lia.
        change (Z.to_nat 1) with 1%nat. rewrite cascade_at_1.
        destruct (alpha_bounds 8 0.1 0.7) as [Hl Hh]; try lra.
        set (al := alpha_low 8 0.1) in *. set (ah := alpha_high 8 0.7) in *.
        nra.
      * destruct (Hsome filtered) as (f & Hf).
        exists (60 * f). rewrite Hpipe, Hf. split; [reflexivity|].
        f_equal. field.
Defined.

(** ** The Hann window *)

Lemma hann_range (length i : Z) : 0 <= hann length i <= 1.
Proof.
  unfold hann. pose proof (COS_bound (2 * PI * IZR i / IZR (length - 1))) as [H1 H2].
  split; lra.
Qed.

Lemma hann_first (length : Z) : hann length 0 = 0.
Proof.
  unfold hann. replace (2 * PI * 0 / IZR (length - 1)) with 0 by (unfold Rdiv; ring).
  rewrite cos_0. lra.
Qed.

Lemma hann_last (length : Z) : (2 <= length)%Z -> hann length (length - 1) = 0.
Proof.
  intros Hlen. unfold hann.
  assert (IZR (length - 1) <> 0) by (apply not_0_IZR; lia).
  replace (2 * PI * IZR (length - 1) / IZR (length - 1)) with (2 * Rtrigo1.PI)
    by (unfold PI; field; assumption).
  rewrite cos_2PI. lra.
Qed.

(** X28.  The window weights computed by [calculate_psd] lie in [[0, 1]],
    and for [length >= 2] the first and the last weight are 0. *)
Theorem hann_window_weights (length i : Z) :
  0 <= hann length i <= 1 /\
  ((2 <= length)%Z -> hann length 0 = 0 /\ hann length (length - 1) = 0).
Proof.
  split; [apply hann_range|].
  intros Hlen. split; [apply hann_first | now apply hann_last].
Qed.

(** Witness for X28: 300 samples. *)
Lemma hann_window_weights_witness : hann 300 0 = 0 /\ hann 300 (300 - 1) = 0.
Proof.
  apply (hann_window_weights 300 0). lia.
Defined.

Lemma windowed_padded_ext (s s' : buffer) (length size : Z) :
  (forall i, (0 <= i < length)%Z -> hann length i <> 0 -> s i = s' i) ->
  windowed_padded s length size = windowed_padded s' length size.
Proof.
  intros Hext. unfold windowed_padded. apply map_ext. intros k.
  destruct (Z.ltb_spec (Z.of_nat k) length) as [Hlt|]; [|reflexivity].
  destruct (Req_dec (hann length (Z.of_nat k)) 0) as [Hz|Hnz].
  - rewrite Hz. f_equal. ring.
  - rewrite (Hext (Z.of_nat k)) by (try lia; exact Hnz). reflexivity.
Qed.

(** X29.  The power spectrum depends on the samples [1 .. length-2] only:
    the window zeroes the first and the last sample, and nothing behind the
    first [length] samples is read. *)
Theorem calculate_psd_ignores_ends (s s' : buffer) (length : Z) :
  (2 <= length)%Z ->
  (forall i, (1 <= i <= length - 2)%Z -> s i = s' i) ->
  calculate_psd s length = calculate_psd s' length.
Proof.
  intros Hlen Hext.
  rewrite (calculate_psd_eq s length), (calculate_psd_eq s' length) by lia.
  cbv zeta.
  rewrite (windowed_padded_ext s s' length (padded_size length)); [reflexivity|].
  intros i Hi Hw. apply Hext.
  destruct (Z.eq_dec i 0) as [->|H0]; [now rewrite hann_first in Hw|].
  destruct (Z.eq_dec i (length - 1)) as [->|H1]; [now rewrite hann_last in Hw|].
  lia.
Qed.

(** Witness for X29: two signals of four samples that differ at both
    ends. *)
Lemma calculate_psd_ignores_ends_witness :
  calculate_psd (vdata [1; 2; 4; 8]) 4 = calculate_psd (vdata [5; 2; 4; 0]) 4.
Proof.
  apply (calculate_psd_ignores_ends (vdata [1; 2; 4; 8]) (vdata [5; 2; 4; 0]) 4).
  - lia.
  - intros i Hi. unfold vdata, vnth.
    assert (i = 1 \/ i = 2)%Z as [-> | ->] by lia; reflexivity.
Defined.
